(** * Biometric authentication and vote commitment: a shallow embedding

    The development follows the backend of the voting system:

    - [app/config.py]               the settings record;
    - [app/models/*.py]             the rows of the relational store;
    - [app/middleware/auth.py]      voting-session tokens and their validation;
    - [app/routers/voting.py]       the attempt throttle, [cast_vote] and the
                                    in-memory single-use tracker [used_tokens];
    - [app/services/crypto.py]      AES-GCM storage of templates, quantisation;
    - [app/services/biometric/face.py]  cosine similarity and [compare_embeddings].

    Conventions.  A [datetime] is a number of whole seconds (type [Z]).  A
    request handler is a computation over the request's database session
    (committed rows, pending rows) and the process-wide [used_tokens]
    dictionary; Python exceptions are results of the computation.  What the
    outside world decides (the clock, fresh uuids, the ledger's reply, the
    image pipeline, which texts PostgreSQL reads as an address or a uuid) is
    an argument of the handler. *)

From stdpp Require Import gmap strings list pretty.
From Stdlib Require Import ZArith Lia NArith Reals Lra.
From Stdlib.Strings Require Import Byte.

#[local] Open Scope Z_scope.

(** ** Settings ([app/config.py]) *)

Record Settings := mkSettings {
  JWT_SECRET : string;
  JWT_ALGORITHM : string;
  VOTING_SESSION_SECRET : string;
  BIOMETRIC_ENCRYPTION_KEY : string;
  MAX_AUTH_ATTEMPTS : Z;
  LOCKOUT_DURATION_MINUTES : Z
}.

(** The defaults of the [Field] declarations. *)
Definition default_settings : Settings := {|
  JWT_SECRET := "change-this-secret-in-production-minimum-256-bits";
  JWT_ALGORITHM := "HS256";
  VOTING_SESSION_SECRET := "change-this-voting-session-secret";
  BIOMETRIC_ENCRYPTION_KEY := "change-this-key-must-be-32-bytes";
  MAX_AUTH_ATTEMPTS := 3;
  LOCKOUT_DURATION_MINUTES := 30
|}.

(** [timedelta(minutes=m)] in seconds. *)
Definition minutes (m : Z) : Z := 60 * m.

(** A [datetime] object is naive ([datetime.utcnow()]) or aware (what the
    driver returns for a column [DateTime(timezone=True)]).  Python orders
    two naive or two aware datetimes and raises [TypeError] on a naive and
    an aware one; adding a [timedelta] keeps the kind. *)
Inductive datetime :=
| naive (t : Z)
| aware (t : Z).

Definition utcnow (now : Z) : datetime := naive now.

Definition datetime_add (a : datetime) (delta : Z) : datetime :=
  match a with
  | naive t => naive (t + delta)
  | aware t => aware (t + delta)
  end.

(** [a < b]; [None] is the [TypeError]. *)
Definition datetime_lt (a b : datetime) : option bool :=
  match a, b with
  | naive x, naive y => Some (x <? y)
  | aware x, aware y => Some (x <? y)
  | _, _ => None
  end.

(** [(a - b).seconds // 60]; [None] is the [TypeError]. *)
Definition datetime_minutes_until (a b : datetime) : option Z :=
  match a, b with
  | naive x, naive y => Some (((x - y) `mod` 86400) `div` 60)
  | aware x, aware y => Some (((x - y) `mod` 86400) `div` 60)
  | _, _ => None
  end.

(** ** What PostgreSQL reads

    Two kinds of column are typed beyond text: [auth_attempts.ip_address]
    is INET and the ids of elections, candidates and constituencies are
    UUID.  A statement that gives such a column, or compares it with, a text
    that the type's input function does not read raises [DataError].  Which
    texts these functions read is PostgreSQL's business, and an argument of
    the handlers. *)
Record Postgres := mkPostgres {
  inet_in : string -> bool;
  uuid_in : string -> bool
}.

(** ** Rows ([app/models]) *)

Inductive AuthMethod := FACE | FINGERPRINT.
Inductive AuthOutcome := SUCCESS | FAILURE | LOCKOUT.

#[export] Instance AuthOutcome_eq_dec : EqDecision AuthOutcome.
Proof. solve_decision. Defined.
#[export] Instance AuthMethod_eq_dec : EqDecision AuthMethod.
Proof. solve_decision. Defined.

Module Voter.
(** Table [voters]; the key of the table in [DB] is the column [voter_id],
    the primary key [id] is the field [id_].  [failed_auth_count] is a
    SmallInteger; [voted_at] and [lockout_at] are the instants of columns
    [DateTime(timezone=True)]. *)
Record t := mk {
  id_ : string;
  full_name : string;
  constituency_id : string;
  face_embedding_hash : string;
  fingerprint_template_hash : string;
  biometric_salt : string;
  encrypted_face_embedding : string;
  encrypted_fingerprint_template : string;
  blockchain_voter_id : string;
  has_voted : bool;
  voted_at : option Z;
  vote_tx_hash : option string;
  failed_auth_count : Z;
  locked_out : bool;
  lockout_at : option Z
}.

(** UPDATE voters SET locked_out = FALSE, failed_auth_count = 0 *)
Definition reset_lockout (v : t) : t :=
  mk (id_ v) (full_name v) (constituency_id v) (face_embedding_hash v)
     (fingerprint_template_hash v) (biometric_salt v)
     (encrypted_face_embedding v) (encrypted_fingerprint_template v)
     (blockchain_voter_id v) (has_voted v) (voted_at v) (vote_tx_hash v)
     0 false (lockout_at v).

(** UPDATE voters SET locked_out = TRUE, lockout_at = NOW() *)
Definition lock (now : Z) (v : t) : t :=
  mk (id_ v) (full_name v) (constituency_id v) (face_embedding_hash v)
     (fingerprint_template_hash v) (biometric_salt v)
     (encrypted_face_embedding v) (encrypted_fingerprint_template v)
     (blockchain_voter_id v) (has_voted v) (voted_at v) (vote_tx_hash v)
     (failed_auth_count v) true (Some now).

(** UPDATE voters SET failed_auth_count = :count *)
Definition set_failed_auth_count (count : Z) (v : t) : t :=
  mk (id_ v) (full_name v) (constituency_id v) (face_embedding_hash v)
     (fingerprint_template_hash v) (biometric_salt v)
     (encrypted_face_embedding v) (encrypted_fingerprint_template v)
     (blockchain_voter_id v) (has_voted v) (voted_at v) (vote_tx_hash v)
     count (locked_out v) (lockout_at v).

(** UPDATE voters SET has_voted = TRUE, voted_at = NOW(), vote_tx_hash = :tx_hash *)
Definition mark_voted (now : Z) (tx_hash : string) (v : t) : t :=
  mk (id_ v) (full_name v) (constituency_id v) (face_embedding_hash v)
     (fingerprint_template_hash v) (biometric_salt v)
     (encrypted_face_embedding v) (encrypted_fingerprint_template v)
     (blockchain_voter_id v) true (Some now) (Some tx_hash)
     (failed_auth_count v) (locked_out v) (lockout_at v).
End Voter.

Module Constituency.
Record t := mk { name : string; on_chain_id : Z }.
End Constituency.

Module Election.
Record t := mk { id_ : string; status : string; created_at : Z }.
End Election.

Module Candidate.
(** Table [candidates]; the key of the table in [DB] is the text of the
    column [id], a uuid: a text that finds a row is a text PostgreSQL read
    as that row's id. *)
Record t := mk {
  election_id : string;
  constituency_id : string;
  on_chain_id : Z;
  is_active : bool
}.
End Candidate.

Module AuthAttempt.
(** Table [auth_attempts]; [voter_id] is the sub-select
    [(SELECT id FROM voters WHERE voter_id = :voter_id)]. *)
Record t (score : Type) := mk {
  voter_id : option string;
  auth_method : AuthMethod;
  outcome : AuthOutcome;
  failure_reason : option string;
  similarity_score : option score;
  ip_address : string;
  attempted_at : Z
}.
Arguments mk {score}.
Arguments voter_id {score}.
Arguments auth_method {score}.
Arguments outcome {score}.
Arguments failure_reason {score}.
Arguments similarity_score {score}.
Arguments ip_address {score}.
Arguments attempted_at {score}.
End AuthAttempt.

Module VoteSubmission.
(** Table [vote_submissions]: UNIQUE (voter_id, election_id), UNIQUE tx_hash. *)
Record t := mk {
  voter_id : string;
  election_id : string;
  session_id : string;
  tx_hash : string;
  block_number : Z;
  gas_used : Z;
  submitted_at : Z
}.
End VoteSubmission.

Module BlockchainTransaction.
(** Table [blockchain_txns]: UNIQUE tx_hash. *)
Record t := mk {
  election_id : string;
  tx_type : string;
  tx_hash : string;
  block_number : Z;
  gas_used : Z;
  raw_voter_id : string;
  raw_candidate_id : string
}.
End BlockchainTransaction.

Record DB (score : Type) := mkDB {
  voters : gmap string Voter.t;
  constituencies : gmap string Constituency.t;
  elections : list Election.t;
  candidates : gmap string Candidate.t;
  auth_attempts : list (AuthAttempt.t score);
  vote_submissions : list VoteSubmission.t;
  blockchain_txns : list BlockchainTransaction.t
}.
Arguments mkDB {score}.
Arguments voters {score}.
Arguments constituencies {score}.
Arguments elections {score}.
Arguments candidates {score}.
Arguments auth_attempts {score}.
Arguments vote_submissions {score}.
Arguments blockchain_txns {score}.

(** ** Voting-session tokens ([app/middleware/auth.py])

    A JWT is its header algorithm, its payload and the key it was signed
    with: [jwt.decode] under a key accepts exactly the tokens [jwt.encode]
    produced under that key.  This idealises HMAC: forgery is outside the
    model, and so are two different key texts that HMAC treats as one key
    (a key and the same key followed by NUL characters).  The payload is
    the dictionary restricted to the keys the code reads. *)

Module Claims.
Record t := mk {
  voter_id : option string;
  election_id : option string;
  constituency_id : option string;
  session_id : option string;
  exp : option Z;
  iat : option Z;
  type : option string
}.
End Claims.

Record JWT := mkJWT {
  alg : string;
  payload : Claims.t;
  signed_with : string
}.

(** What arrives in the [Authorization: Bearer] header. *)
Inductive Credentials :=
| Malformed (raw : string)
| Bearer (token : JWT).

Inductive JWTError :=
| JWSError            (* not a token, wrong algorithm, or the signature does not verify *)
| ExpiredSignatureError.

Definition jwt_encode (data : Claims.t) (key algorithm : string) : Credentials :=
  Bearer (mkJWT algorithm data key).

(** python-jose: the signature is verified first, then [exp] when present
    ([exp < now] is expired). *)
Definition jwt_decode (token : Credentials) (key : string) (algorithms : list string)
    (now : Z) : JWTError + Claims.t :=
  match token with
  | Malformed _ => inl JWSError
  | Bearer t =>
      if negb (bool_decide (alg t ∈ algorithms)) then inl JWSError
      else if negb (bool_decide (signed_with t = key)) then inl JWSError
      else match Claims.exp (payload t) with
           | Some e => if e <? now then inl ExpiredSignatureError else inr (payload t)
           | None => inr (payload t)
           end
  end.

Definition create_voting_session_token (settings : Settings)
    (voter_id election_id constituency_id session_id : string) (now : Z) : Credentials :=
  let expire := now + minutes 5 in
  let data := {|
    Claims.voter_id := Some voter_id;
    Claims.election_id := Some election_id;
    Claims.constituency_id := Some constituency_id;
    Claims.session_id := Some session_id;
    Claims.exp := Some expire;
    Claims.iat := Some now;
    Claims.type := Some "voting_session"
  |} in
  jwt_encode data (VOTING_SESSION_SECRET settings) (JWT_ALGORITHM settings).

(** ** Request handlers as computations *)

Record HTTPException := mkHTTP { status_code : Z; detail : string }.

#[export] Instance HTTPException_eq_dec : EqDecision HTTPException.
Proof. solve_decision. Defined.

Inductive Result (A : Type) :=
| Return (a : A)
| Raise (e : HTTPException)     (* raise HTTPException(...) *)
| Throw (msg : string).         (* any other Exception *)
Arguments Return {A}.
Arguments Raise {A}.
Arguments Throw {A}.

(** The state a handler runs in: the session's committed and pending rows
    ([db.commit()] copies pending to committed, [db.rollback()] and
    [db.close()] drop what is pending), and the module-level [used_tokens]. *)
Record State (score : Type) := mkState {
  committed : DB score;
  pending : DB score;
  used_tokens : gmap string Z
}.
Arguments mkState {score}.
Arguments committed {score}.
Arguments pending {score}.
Arguments used_tokens {score}.

Definition M (score : Type) (A : Type) : Type := State score -> Result A * State score.

#[export] Instance M_ret {score} : MRet (M score) := fun A a s => (Return a, s).
#[export] Instance M_bind {score} : MBind (M score) := fun A B f m s =>
  match m s with
  | (Return a, s') => f a s'
  | (Raise e, s') => (Raise e, s')
  | (Throw msg, s') => (Throw msg, s')
  end.

Section Handlers.
Context {score : Type}.

Definition raise {A} (e : HTTPException) : M score A := fun s => (Raise e, s).
Definition throw {A} (msg : string) : M score A := fun s => (Throw msg, s).

(** [db.execute] of a SELECT, of an INSERT/UPDATE. *)
Definition query {A} (f : DB score -> A) : M score A := fun s => (Return (f (pending s)), s).
Definition execute (f : DB score -> DB score) : M score unit :=
  fun s => (Return tt, mkState (committed s) (f (pending s)) (used_tokens s)).
Definition commit : M score unit :=
  fun s => (Return tt, mkState (pending s) (pending s) (used_tokens s)).
Definition rollback : M score unit :=
  fun s => (Return tt, mkState (committed s) (committed s) (used_tokens s)).

(** [try: body  except HTTPException: raise  except Exception as e: handler e] *)
Definition try_except {A} (body : M score A) (handler : string -> M score A) : M score A :=
  fun s => match body s with
           | (Throw msg, s') => handler msg s'
           | r => r
           end.

(** A request: a fresh session on the committed rows; [get_db] closes it
    at the end, which drops whatever was not committed. *)
Definition close (s : State score) : State score :=
  mkState (committed s) (committed s) (used_tokens s).
Definition request {A} (h : M score A) (s : State score) : Result A * State score :=
  let '(r, s') := h (close s) in (r, close s').
End Handlers.

(** ** Token validation: [get_current_session] *)

Record SessionData := mkSessionData {
  sd_voter_id : string;
  sd_election_id : string;
  sd_constituency_id : string;
  sd_session_id : string
}.

(** Python truthiness of [payload.get(key)]: [None] and the empty string are false. *)
Definition truthy (o : option string) : bool :=
  match o with
  | Some s => negb (String.eqb s "")
  | None => false
  end.

Definition credentials_exception : HTTPException := mkHTTP 401 "Invalid voting session".

Section Validation.
Context {score : Type}.
Variable settings : Settings.

Definition get_current_session (credentials : Credentials) (now : Z) : M score SessionData :=
  match jwt_decode credentials (VOTING_SESSION_SECRET settings) [JWT_ALGORITHM settings] now with
  | inl _ => raise credentials_exception
  | inr payload =>
      if negb (bool_decide (Claims.type payload = Some "voting_session"))
      then raise credentials_exception
      else
        if negb (truthy (Claims.voter_id payload) && truthy (Claims.election_id payload)
                 && truthy (Claims.constituency_id payload) && truthy (Claims.session_id payload))
        then raise credentials_exception
        else
          let session_data := mkSessionData
            (default "" (Claims.voter_id payload)) (default "" (Claims.election_id payload))
            (default "" (Claims.constituency_id payload)) (default "" (Claims.session_id payload)) in
          voter ← query (fun d => voters d !! sd_voter_id session_data);
          match voter with
          | None => raise (mkHTTP 404 "Voter not found")
          | Some voter =>
              if Voter.has_voted voter then raise (mkHTTP 409 "Voter has already cast vote")
              else if Voter.locked_out voter then raise (mkHTTP 403 "Voter is locked out")
              else mret session_data
          end
  end.
End Validation.

(** ** The attempt throttle: [authenticate_with_face], [authenticate_with_fingerprint] *)

(** The biometric service object of the router ([face_service],
    [fingerprint_service], built at import when the service is available):
    decoding the sample, extracting the live features (both may raise the
    [BiometricAuthError] of [app/services/biometric/face.py] with a message)
    and the comparison against the stored template, which returns
    [(matched, similarity_score)].  [fmt4] is the format [:.4f]. *)
Record BiometricService (score : Type) := mkService {
  image : Type;
  embedding : Type;
  decode_image : string -> string + image;
  get_embedding : image -> string + embedding;
  compare_embeddings : embedding -> string -> string -> string -> bool * score;
  fmt4 : score -> string
}.
Arguments image {score}.
Arguments embedding {score}.
Arguments decode_image {score}.
Arguments get_embedding {score}.
Arguments compare_embeddings {score}.
Arguments fmt4 {score}.

Record AuthResponse := mkAuthResponse {
  auth_token : Credentials;
  expires_in : Z;
  ar_constituency_id : string;
  ar_name : string;
  ar_constituency : string;
  ar_session_id : string
}.

Definition method_name (m : AuthMethod) : string :=
  match m with FACE => "Face" | FINGERPRINT => "Fingerprint" end.

Definition stored_hash (m : AuthMethod) (v : Voter.t) : string :=
  match m with
  | FACE => Voter.face_embedding_hash v
  | FINGERPRINT => Voter.fingerprint_template_hash v
  end.

Definition stored_encrypted (m : AuthMethod) (v : Voter.t) : string :=
  match m with
  | FACE => Voter.encrypted_face_embedding v
  | FINGERPRINT => Voter.encrypted_fingerprint_template v
  end.

(** SELECT e.id FROM elections e WHERE e.status = 'active'
    ORDER BY e.created_at DESC LIMIT 1 *)
Fixpoint active_election (es : list Election.t) : option Election.t :=
  match es with
  | [] => None
  | e :: es' =>
      let here := if String.eqb (Election.status e) "active" then Some e else None in
      match here, active_election es' with
      | Some e1, Some e2 => if Election.created_at e1 <? Election.created_at e2 then Some e2 else Some e1
      | Some e1, None => Some e1
      | None, r => r
      end
  end.

(** The largest SmallInteger. *)
Definition SMALLINT_MAX : Z := 32767.

Definition authentication_error : HTTPException :=
  mkHTTP 500 "Authentication failed. Please try again.".

Section Throttle.
Context {score : Type}.
Variable settings : Settings.
Variable pg : Postgres.

Definition update_voter (voter_id : string) (f : Voter.t -> Voter.t) (d : DB score) : DB score :=
  mkDB (alter f voter_id (voters d)) (constituencies d) (elections d) (candidates d)
       (auth_attempts d) (vote_submissions d) (blockchain_txns d).

Definition insert_auth_attempt (a : AuthAttempt.t score) (d : DB score) : DB score :=
  mkDB (voters d) (constituencies d) (elections d) (candidates d)
       (auth_attempts d ++ [a]) (vote_submissions d) (blockchain_txns d).

(** The INSERT raises when [ip_address] is not an INET value; the function
    catches every exception, rolls back and returns. *)
Definition log_auth_attempt (voter_id : string) (auth_method : AuthMethod)
    (outcome : AuthOutcome) (failure_reason : option string)
    (similarity_score : option score) (ip_address : string) (now : Z) : M score unit :=
  try_except
    ((if inet_in pg ip_address then
        execute (fun d => insert_auth_attempt
          (AuthAttempt.mk (Voter.id_ <$> voters d !! voter_id) auth_method outcome
                          failure_reason similarity_score ip_address now) d)
      else throw "DataError: invalid input syntax for type inet");;
     commit)
    (fun _ => rollback).

(** The body shared by the two endpoints; [voter] below is the row as
    fetched at the start of the request.

    Two exceptions of the body are not [HTTPException]s and end in the last
    handler, which answers 500.  The first is the comparison of
    [datetime.utcnow()], naive, with [lockout_at + lockout_duration], aware.
    The second is the [BiometricAuthError] of the services: [voting.py]
    imports the class of that name from [app/services/biometric/__init__.py],
    the services raise the class that [face.py] defines, so the clause
    [except BiometricAuthError] of the router never matches what they raise. *)
Definition authenticate (svc : BiometricService score) (method : AuthMethod)
    (voter_id sample ip_address session_id : string) (now : Z) : M score AuthResponse :=
  try_except (
  row ← query (fun d =>
    v ← voters d !! voter_id;
    c ← constituencies d !! Voter.constituency_id v;
    Some (v, Constituency.name c));
  match row with
  | None =>
      log_auth_attempt voter_id method FAILURE (Some "Voter not found") None ip_address now;;
      raise (mkHTTP 404 "Voter not found. Please check your voter ID.")
  | Some (voter, constituency_name) =>
      if Voter.has_voted voter then
        log_auth_attempt voter_id method FAILURE (Some "Already voted") None ip_address now;;
        raise (mkHTTP 409 "You have already cast your vote in this election.")
      else
        (* Check if voter is locked out *)
        (if Voter.locked_out voter then
           let lockout_duration := minutes (LOCKOUT_DURATION_MINUTES settings) in
           match aware <$> Voter.lockout_at voter with
           | Some lockout_time =>
               match datetime_lt (utcnow now) (datetime_add lockout_time lockout_duration) with
               | None => throw "TypeError: can't compare offset-naive and offset-aware datetimes"
               | Some true =>
                   match datetime_minutes_until (datetime_add lockout_time lockout_duration)
                           (utcnow now) with
                   | None => throw "TypeError: can't subtract offset-naive and offset-aware datetimes"
                   | Some remaining =>
                       log_auth_attempt voter_id method LOCKOUT
                         (Some ("Account locked for " +:+ pretty remaining +:+ " more minutes"))
                         None ip_address now;;
                       raise (mkHTTP 403
                                ("Account locked due to multiple failed attempts. Try again in "
                                 +:+ pretty remaining +:+ " minutes."))
                   end
               | Some false =>
                   (* Reset lockout if duration has passed *)
                   execute (update_voter voter_id Voter.reset_lockout);; commit
               end
           | None =>
               execute (update_voter voter_id Voter.reset_lockout);; commit
           end
         else mret tt);;
        (* Check max auth attempts *)
        if MAX_AUTH_ATTEMPTS settings <=? Voter.failed_auth_count voter then
          execute (update_voter voter_id (Voter.lock now));; commit;;
          log_auth_attempt voter_id method LOCKOUT (Some "Max attempts exceeded") None ip_address now;;
          raise (mkHTTP 403 ("Maximum authentication attempts exceeded. Account locked for "
                             +:+ pretty (LOCKOUT_DURATION_MINUTES settings) +:+ " minutes."))
        else
          (* Decode and process live sample *)
          match decode_image svc sample with
          | inl e => throw ("BiometricAuthError: " +:+ e)
          | inr image_bytes =>
          match get_embedding svc image_bytes with
          | inl e => throw ("BiometricAuthError: " +:+ e)
          | inr live_embedding =>
              let '(matched, similarity_score) :=
                compare_embeddings svc live_embedding (stored_hash method voter)
                  (stored_encrypted method voter) (Voter.biometric_salt voter) in
              if negb matched then
                (* Increment failed attempt count *)
                let new_count := Voter.failed_auth_count voter + 1 in
                (if SMALLINT_MAX <? new_count then throw "DataError: smallint out of range"
                 else execute (update_voter voter_id (Voter.set_failed_auth_count new_count)));;
                commit;;
                let remaining_attempts := MAX_AUTH_ATTEMPTS settings - new_count in
                log_auth_attempt voter_id method FAILURE
                  (Some (method_name method +:+ " not matched (similarity: "
                         +:+ fmt4 svc similarity_score +:+ ")"))
                  (Some similarity_score) ip_address now;;
                raise (mkHTTP 401 (method_name method +:+ " authentication failed. "
                                   +:+ pretty remaining_attempts +:+ " attempt(s) remaining."))
              else
                (* Authentication successful - reset failed attempts *)
                execute (update_voter voter_id (Voter.set_failed_auth_count 0));; commit;;
                election ← query (fun d => active_election (elections d));
                match election with
                | None => raise (mkHTTP 400 "No active election available.")
                | Some election =>
                    let auth_token := create_voting_session_token settings voter_id
                      (Election.id_ election) (Voter.constituency_id voter) session_id now in
                    log_auth_attempt voter_id method SUCCESS None (Some similarity_score)
                      ip_address now;;
                    mret (mkAuthResponse auth_token 300 (Voter.constituency_id voter)
                            (Voter.full_name voter) constituency_name session_id)
                end
          end
          end
  end)
  (fun _ => raise authentication_error).

Definition authenticate_with_face (face_service : BiometricService score)
    (voter_id face_image ip_address session_id : string) (now : Z) : M score AuthResponse :=
  authenticate face_service FACE voter_id face_image ip_address session_id now.

(** [if not FINGERPRINT_AVAILABLE or not fingerprint_service] comes before
    the [try]. *)
Definition authenticate_with_fingerprint (fingerprint_service : option (BiometricService score))
    (voter_id fingerprint_template ip_address session_id : string) (now : Z)
    : M score AuthResponse :=
  match fingerprint_service with
  | None => raise (mkHTTP 503
      "Fingerprint authentication is not available. Please use face authentication.")
  | Some svc => authenticate svc FINGERPRINT voter_id fingerprint_template ip_address session_id now
  end.
End Throttle.

(** ** Vote commitment: [cast_vote] *)

(** What [blockchain_service.submit_vote_on_chain] does: the receipt's
    fields (the transaction hash in hexadecimal, the block number and the
    gas used), or [BlockchainError] (it converts every failure into one). *)
Inductive LedgerReply :=
| Receipt (tx_hash : string) (block_number gas_used : Z)
| BlockchainError (msg : string).

(** The attributes of the module-level [blockchain_service] that [cast_vote]
    reads: the first account of the node and the VotingBooth contract (its
    address), each [None] when the service could not load it at start-up. *)
Record BlockchainService := mkBlockchainService {
  default_account : option string;
  voting_booth : option string
}.

Record VoteResponse := mkVoteResponse {
  vr_tx_hash : string;
  vr_block_number : Z;
  vr_timestamp : Z
}.

Section Commitment.
Context {score : Type}.
Variable settings : Settings.
Variable pg : Postgres.
Variable blockchain_service : BlockchainService.

Definition get_used_tokens : M score (gmap string Z) :=
  fun s => (Return (used_tokens s), s).

(** [used_tokens[session_id] = exp_time] *)
Definition mark_used (session_id : string) (exp_time : Z) : M score unit :=
  fun s => (Return tt, mkState (committed s) (pending s) (<[session_id := exp_time]> (used_tokens s))).

(** [clean_expired_tokens]: deletes the entries with [exp_time < now]. *)
Definition clean_expired_tokens (now : Z) : M score unit :=
  fun s => (Return tt, mkState (committed s) (pending s)
              (filter (fun kv => ¬ (kv.2 < now)) (used_tokens s))).

(** SELECT ... FROM candidates WHERE id = :candidate_id AND election_id = :election_id.
    Both parameters are compared with uuid columns: when no row answers,
    either both texts are uuids and the result is empty, or the statement
    raises [DataError]. *)
Definition select_candidate (candidate_id election_id : string) : M score (option Candidate.t) :=
  found ← query (fun d =>
    c ← candidates d !! candidate_id;
    if String.eqb (Candidate.election_id c) election_id then Some c else None);
  match found with
  | Some c => mret (Some c)
  | None =>
      if uuid_in pg candidate_id && uuid_in pg election_id then mret None
      else throw "DataError: invalid input syntax for type uuid"
  end.

(** INSERT INTO vote_submissions: the two UNIQUE constraints of the table
    make the statement raise [IntegrityError]. *)
Definition violates_unique (row : VoteSubmission.t) (rows : list VoteSubmission.t) : bool :=
  existsb (fun r =>
    (String.eqb (VoteSubmission.voter_id r) (VoteSubmission.voter_id row)
     && String.eqb (VoteSubmission.election_id r) (VoteSubmission.election_id row))
    || String.eqb (VoteSubmission.tx_hash r) (VoteSubmission.tx_hash row)) rows.

Definition insert_vote_submission (row : VoteSubmission.t) : M score unit :=
  rows ← query vote_submissions;
  if violates_unique row rows then throw "IntegrityError: vote_submissions"
  else execute (fun d =>
    mkDB (voters d) (constituencies d) (elections d) (candidates d)
         (auth_attempts d) (vote_submissions d ++ [row]) (blockchain_txns d)).

(** [db.add(blockchain_tx)]: UNIQUE tx_hash on [blockchain_txns]. *)
Definition add_blockchain_tx (row : BlockchainTransaction.t) : M score unit :=
  rows ← query blockchain_txns;
  if existsb (fun r => String.eqb (BlockchainTransaction.tx_hash r)
                                  (BlockchainTransaction.tx_hash row)) rows
  then throw "IntegrityError: blockchain_txns"
  else execute (fun d =>
    mkDB (voters d) (constituencies d) (elections d) (candidates d)
         (auth_attempts d) (vote_submissions d) (blockchain_txns d ++ [row])).

Definition replay_exception : HTTPException :=
  mkHTTP 403 "This session token has already been used.".

(** The INSERT into [vote_submissions] gives the uuid column [session_id]
    the text of the token (the text given to [election_id] is the one the
    candidate query has found equal to the candidate's election).  In the
    row of [blockchain_txns], [uuid.UUID(election_id)] reads that same
    text; [to_address] is [blockchain_service.voting_booth.address], an
    [AttributeError] when the contract is not loaded; [from_address] is
    [blockchain_service.default_account], a column that is NOT NULL. *)
Definition cast_vote (session_data : SessionData) (candidate_id : string)
    (submit_vote_on_chain : string -> Z -> Z -> LedgerReply) (now : Z) : M score VoteResponse :=
  let voter_id := sd_voter_id session_data in
  let election_id := sd_election_id session_data in
  let constituency_id := sd_constituency_id session_data in
  let session_id := sd_session_id session_data in
  (* Check if token has been used *)
  used ← get_used_tokens;
  if bool_decide (is_Some (used !! session_id)) then raise replay_exception
  else
  try_except (
    voter ← query (fun d => voters d !! voter_id);
    match voter with
    | None => raise (mkHTTP 404 "Voter not found.")
    | Some voter =>
    if Voter.has_voted voter then raise (mkHTTP 409 "You have already cast your vote.")
    else if Voter.locked_out voter then raise (mkHTTP 403 "Your account is locked.")
    else
    candidate ← select_candidate candidate_id election_id;
    match candidate with
    | None => raise (mkHTTP 404 "Candidate not found.")
    | Some candidate =>
    if negb (Candidate.is_active candidate) then raise (mkHTTP 400 "Candidate is not active.")
    else if negb (String.eqb (Candidate.constituency_id candidate) constituency_id)
    then raise (mkHTTP 400 "Candidate is not in your constituency.")
    else
    constituency ← query (fun d => constituencies d !! constituency_id);
    match constituency with
    | None => raise (mkHTTP 404 "Constituency not found.")
    | Some constituency =>
    (* Submit vote to blockchain *)
    match submit_vote_on_chain (Voter.blockchain_voter_id voter)
            (Candidate.on_chain_id candidate) (Constituency.on_chain_id constituency) with
    | BlockchainError e => raise (mkHTTP 503 ("Blockchain error: " +:+ e))
    | Receipt tx_hash0 block_number gas_used =>
        let tx_hash := if String.prefix "0x" tx_hash0 then tx_hash0 else "0x" +:+ tx_hash0 in
        (* Record vote submission in database *)
        (if uuid_in pg session_id then mret tt
         else throw "DataError: invalid input syntax for type uuid");;
        insert_vote_submission
          (VoteSubmission.mk (Voter.id_ voter) election_id session_id tx_hash
                             block_number gas_used now);;
        (* Mark voter as voted *)
        execute (update_voter voter_id (Voter.mark_voted now tx_hash));;
        (* Record blockchain transaction *)
        match voting_booth blockchain_service with
        | None => throw "AttributeError: 'NoneType' object has no attribute 'address'"
        | Some to_address =>
        add_blockchain_tx
          (BlockchainTransaction.mk election_id "cast_vote" tx_hash block_number gas_used
                                    voter_id candidate_id);;
        match default_account blockchain_service with
        | None => throw "IntegrityError: null value in column from_address"
        | Some from_address =>
        commit;;
        (* Mark token as used *)
        mark_used session_id (now + minutes 10);;
        clean_expired_tokens now;;
        mret (mkVoteResponse tx_hash block_number now)
        end
        end
    end
    end
    end
    end)
    (fun _ => rollback;; raise (mkHTTP 500 "Failed to cast vote. Please try again.")).

(** POST /api/voting/cast: FastAPI resolves
    [session_data = Depends(get_current_session)] on the request's session,
    then calls [cast_vote]. *)
Definition post_cast (credentials : Credentials) (candidate_id : string)
    (submit_vote_on_chain : string -> Z -> Z -> LedgerReply) (now : Z) : M score VoteResponse :=
  session_data ← get_current_session settings credentials now;
  cast_vote session_data candidate_id submit_vote_on_chain now.
End Commitment.

(** ** The server as a transition system *)

Inductive Request :=
| AuthenticateFace (voter_id face_image ip_address session_id : string) (now : Z)
| AuthenticateFingerprint (voter_id fingerprint_template ip_address session_id : string) (now : Z)
| CastVote (credentials : Credentials) (candidate_id : string)
           (submit_vote_on_chain : string -> Z -> Z -> LedgerReply) (now : Z).

Definition request_time (r : Request) : Z :=
  match r with
  | AuthenticateFace _ _ _ _ now => now
  | AuthenticateFingerprint _ _ _ _ now => now
  | CastVote _ _ _ now => now
  end.

Section Server.
Context {score : Type}.
Variable settings : Settings.
Variable pg : Postgres.
Variable blockchain_service : BlockchainService.
Variable face_service : BiometricService score.
Variable fingerprint_service : option (BiometricService score).

Definition step (s : State score) (r : Request) : State score :=
  match r with
  | AuthenticateFace v img ip sid now =>
      snd (request (authenticate_with_face settings pg face_service v img ip sid now) s)
  | AuthenticateFingerprint v tpl ip sid now =>
      snd (request (authenticate_with_fingerprint settings pg fingerprint_service v tpl ip sid now) s)
  | CastVote c cand ledger now =>
      snd (request (post_cast settings pg blockchain_service c cand ledger now) s)
  end.

Definition run (s : State score) (rs : list Request) : State score :=
  fold_left step rs s.
End Server.

(** ** Bytes, base64 and AES-GCM ([app/services/crypto.py])

    [bytes] is a list of [byte]; arithmetic on bytes goes through [N].  The
    functions of the Python standard library and of the [cryptography]
    package that the module calls are written out: [base64.b64encode] /
    [b64decode] (RFC 4648, decoding as [binascii.a2b_base64] does it), the
    AES block cipher (FIPS 197) and the GCM mode (NIST SP 800-38D) behind
    [AESGCM.encrypt] / [AESGCM.decrypt]. *)

Definition bytes_to_N (bs : list byte) : list N := map Byte.to_N bs.

Definition byte_of_N (n : N) : byte :=
  match Byte.of_N (n mod 256) with Some b => b | None => "000"%byte end.

Definition bytes_of_N (ns : list N) : list byte := map byte_of_N ns.

(** [str.encode('utf-8')] and [bytes.decode('utf-8')] on the strings that
    occur here (a [string] is already a sequence of 8-bit characters). *)
Definition encode_utf8 (s : string) : list byte := String.list_byte_of_string s.
Definition decode_utf8 (bs : list byte) : string := String.string_of_list_byte bs.

(** *** base64 *)

Definition b64_char (n : N) : N :=
  if (n <? 26)%N then (65 + n)%N
  else if (n <? 52)%N then (97 + (n - 26))%N
  else if (n <? 62)%N then (48 + (n - 52))%N
  else if (n =? 62)%N then 43%N
  else 47%N.

(** [table_a2b_base64]: the value of an alphabet character. *)
Definition b64_value (c : N) : option N :=
  if ((65 <=? c) && (c <=? 90))%N then Some (c - 65)%N
  else if ((97 <=? c) && (c <=? 122))%N then Some (c - 97 + 26)%N
  else if ((48 <=? c) && (c <=? 57))%N then Some (c - 48 + 52)%N
  else if (c =? 43)%N then Some 62%N
  else if (c =? 47)%N then Some 63%N
  else None.

Definition BASE64_PAD : N := 61%N.

Fixpoint b2a_base64 (bs : list N) : list N :=
  match bs with
  | [] => []
  | [a] =>
      [b64_char (N.shiftr a 2); b64_char (N.shiftl (N.land a 3) 4); BASE64_PAD; BASE64_PAD]
  | [a; b] =>
      [b64_char (N.shiftr a 2);
       b64_char (N.lor (N.shiftl (N.land a 3) 4) (N.shiftr b 4));
       b64_char (N.shiftl (N.land b 15) 2); BASE64_PAD]
  | a :: b :: c :: rest =>
      b64_char (N.shiftr a 2)
      :: b64_char (N.lor (N.shiftl (N.land a 3) 4) (N.shiftr b 4))
      :: b64_char (N.lor (N.shiftl (N.land b 15) 2) (N.shiftr c 6))
      :: b64_char (N.land c 63)
      :: b2a_base64 rest
  end.

(** [binascii.a2b_base64] in its default, non-strict mode: characters
    outside the alphabet are skipped, a complete pad sequence ends the
    input, and leftover characters of a quad are an error. *)
Fixpoint a2b_base64 (cs : list N) (quad_pos leftchar pads : N) (out : list N)
    : option (list N) :=
  match cs with
  | [] => if (quad_pos =? 0)%N then Some out else None
  | this_ch :: cs' =>
      if (this_ch =? BASE64_PAD)%N then
        if (2 <=? quad_pos)%N then
          if (4 <=? quad_pos + (pads + 1))%N then Some out
          else a2b_base64 cs' quad_pos leftchar (pads + 1)%N out
        else a2b_base64 cs' quad_pos leftchar pads out
      else
        match b64_value this_ch with
        | None => a2b_base64 cs' quad_pos leftchar pads out
        | Some v =>
            if (quad_pos =? 0)%N then a2b_base64 cs' 1%N v 0%N out
            else if (quad_pos =? 1)%N then
              a2b_base64 cs' 2%N (N.land v 15) 0%N
                (out ++ [N.lor (N.shiftl leftchar 2) (N.shiftr v 4)])
            else if (quad_pos =? 2)%N then
              a2b_base64 cs' 3%N (N.land v 3) 0%N
                (out ++ [N.lor (N.shiftl leftchar 4) (N.shiftr v 2)])
            else
              a2b_base64 cs' 0%N 0%N 0%N
                (out ++ [N.lor (N.shiftl leftchar 6) v])
        end
  end.

Definition b64encode (data : list byte) : list byte :=
  bytes_of_N (b2a_base64 (bytes_to_N data)).

(** [None] is [binascii.Error]. *)
Definition b64decode (s : list byte) : option (list byte) :=
  bytes_of_N <$> a2b_base64 (bytes_to_N s) 0%N 0%N 0%N [].

(** *** AES (FIPS 197) *)

Definition sbox_table : list N :=
  [0x63; 0x7c; 0x77; 0x7b; 0xf2; 0x6b; 0x6f; 0xc5; 0x30; 0x01; 0x67; 0x2b; 0xfe; 0xd7; 0xab; 0x76;
   0xca; 0x82; 0xc9; 0x7d; 0xfa; 0x59; 0x47; 0xf0; 0xad; 0xd4; 0xa2; 0xaf; 0x9c; 0xa4; 0x72; 0xc0;
   0xb7; 0xfd; 0x93; 0x26; 0x36; 0x3f; 0xf7; 0xcc; 0x34; 0xa5; 0xe5; 0xf1; 0x71; 0xd8; 0x31; 0x15;
   0x04; 0xc7; 0x23; 0xc3; 0x18; 0x96; 0x05; 0x9a; 0x07; 0x12; 0x80; 0xe2; 0xeb; 0x27; 0xb2; 0x75;
   0x09; 0x83; 0x2c; 0x1a; 0x1b; 0x6e; 0x5a; 0xa0; 0x52; 0x3b; 0xd6; 0xb3; 0x29; 0xe3; 0x2f; 0x84;
   0x53; 0xd1; 0x00; 0xed; 0x20; 0xfc; 0xb1; 0x5b; 0x6a; 0xcb; 0xbe; 0x39; 0x4a; 0x4c; 0x58; 0xcf;
   0xd0; 0xef; 0xaa; 0xfb; 0x43; 0x4d; 0x33; 0x85; 0x45; 0xf9; 0x02; 0x7f; 0x50; 0x3c; 0x9f; 0xa8;
   0x51; 0xa3; 0x40; 0x8f; 0x92; 0x9d; 0x38; 0xf5; 0xbc; 0xb6; 0xda; 0x21; 0x10; 0xff; 0xf3; 0xd2;
   0xcd; 0x0c; 0x13; 0xec; 0x5f; 0x97; 0x44; 0x17; 0xc4; 0xa7; 0x7e; 0x3d; 0x64; 0x5d; 0x19; 0x73;
   0x60; 0x81; 0x4f; 0xdc; 0x22; 0x2a; 0x90; 0x88; 0x46; 0xee; 0xb8; 0x14; 0xde; 0x5e; 0x0b; 0xdb;
   0xe0; 0x32; 0x3a; 0x0a; 0x49; 0x06; 0x24; 0x5c; 0xc2; 0xd3; 0xac; 0x62; 0x91; 0x95; 0xe4; 0x79;
   0xe7; 0xc8; 0x37; 0x6d; 0x8d; 0xd5; 0x4e; 0xa9; 0x6c; 0x56; 0xf4; 0xea; 0x65; 0x7a; 0xae; 0x08;
   0xba; 0x78; 0x25; 0x2e; 0x1c; 0xa6; 0xb4; 0xc6; 0xe8; 0xdd; 0x74; 0x1f; 0x4b; 0xbd; 0x8b; 0x8a;
   0x70; 0x3e; 0xb5; 0x66; 0x48; 0x03; 0xf6; 0x0e; 0x61; 0x35; 0x57; 0xb9; 0x86; 0xc1; 0x1d; 0x9e;
   0xe1; 0xf8; 0x98; 0x11; 0x69; 0xd9; 0x8e; 0x94; 0x9b; 0x1e; 0x87; 0xe9; 0xce; 0x55; 0x28; 0xdf;
   0x8c; 0xa1; 0x89; 0x0d; 0xbf; 0xe6; 0x42; 0x68; 0x41; 0x99; 0x2d; 0x0f; 0xb0; 0x54; 0xbb; 0x16]%N.

Definition sub_byte (b : N) : N := nth (N.to_nat b) sbox_table 0%N.

(** Multiplication by x in GF(2^8) modulo x^8 + x^4 + x^3 + x + 1. *)
Definition xtime (b : N) : N :=
  let d := (N.shiftl b 1 mod 256)%N in
  if N.testbit b 7 then N.lxor d 0x1b else d.

Definition sub_bytes (st : list N) : list N := map sub_byte st.

Definition byte_at (st : list N) (i : nat) : N := nth i st 0%N.

(** The state is the 16 bytes in input order, column by column:
    the byte of row r and column c is at index r + 4c. *)
Definition shift_rows (st : list N) : list N :=
  map (fun i => byte_at st ((i mod 4) + 4 * ((i / 4 + i mod 4) mod 4))%nat) (seq 0 16).

Definition mix_column (a0 a1 a2 a3 : N) : list N :=
  [N.lxor (N.lxor (xtime a0) (N.lxor (xtime a1) a1)) (N.lxor a2 a3);
   N.lxor (N.lxor a0 (xtime a1)) (N.lxor (N.lxor (xtime a2) a2) a3);
   N.lxor (N.lxor a0 a1) (N.lxor (xtime a2) (N.lxor (xtime a3) a3));
   N.lxor (N.lxor (N.lxor (xtime a0) a0) a1) (N.lxor a2 (xtime a3))].

Definition mix_columns (st : list N) : list N :=
  concat (map (fun c => mix_column (byte_at st (4 * c)) (byte_at st (4 * c + 1))
                                   (byte_at st (4 * c + 2)) (byte_at st (4 * c + 3)))
              (seq 0 4)).

Definition xor_bytes (xs ys : list N) : list N := zip_with N.lxor xs ys.

(** Key expansion: the words of the schedule, each a list of 4 bytes. *)
Definition rot_word (w : list N) : list N :=
  match w with a :: rest => rest ++ [a] | [] => [] end.

Fixpoint rcon (i : nat) : N :=
  match i with
  | O => 0%N
  | S O => 1%N
  | S j => xtime (rcon j)
  end.

Fixpoint expand_key (fuel : nat) (Nk : nat) (ws : list (list N)) : list (list N) :=
  match fuel with
  | O => ws
  | S fuel' =>
      let i := length ws in
      let temp := nth (i - 1) ws [] in
      let temp :=
        if (i mod Nk =? 0)%nat then
          xor_bytes (map sub_byte (rot_word temp)) [rcon (i / Nk); 0; 0; 0]%N
        else if ((6 <? Nk) && (i mod Nk =? 4))%nat then map sub_byte temp
        else temp in
      expand_key fuel' Nk (ws ++ [xor_bytes (nth (i - Nk) ws []) temp])
  end.

Fixpoint words (n : nat) (bs : list N) : list (list N) :=
  match n with
  | O => []
  | S n' => take 4 bs :: words n' (drop 4 bs)
  end.

Definition key_schedule (key : list N) : list (list N) :=
  let Nk := (length key / 4)%nat in
  expand_key (4 * (Nk + 7) - Nk) Nk (words Nk key).

Definition round_key (sched : list (list N)) (r : nat) : list N :=
  concat (take 4 (drop (4 * r) sched)).

Fixpoint aes_rounds (sched : list (list N)) (n : nat) (r : nat) (st : list N) : list N :=
  match n with
  | O => st
  | S n' =>
      aes_rounds sched n' (S r)
        (xor_bytes (mix_columns (shift_rows (sub_bytes st))) (round_key sched r))
  end.

(** The cipher on a block of 16 bytes; Nr = Nk + 6 rounds. *)
Definition aes_encrypt_block (key : list N) (block : list N) : list N :=
  let sched := key_schedule key in
  let Nr := (length key / 4 + 6)%nat in
  let st := xor_bytes block (round_key sched 0) in
  let st := aes_rounds sched (Nr - 1) 1 st in
  xor_bytes (shift_rows (sub_bytes st)) (round_key sched Nr).

(** *** GCM (NIST SP 800-38D); a block is a number below 2^128, most
    significant byte first. *)

Definition be_to_N (bs : list N) : N :=
  fold_left (fun acc b => (acc * 256 + b)%N) bs 0%N.

Fixpoint N_to_be (len : nat) (n : N) : list N :=
  match len with
  | O => []
  | S len' => N_to_be len' (n / 256)%N ++ [(n mod 256)%N]
  end.

Definition CIPH (key : list N) (block : N) : N :=
  be_to_N (aes_encrypt_block key (N_to_be 16 block)).

(** Multiplication in GF(2^128): the bits of [x] are read from the most
    significant one, [v] is multiplied by the indeterminate at each step. *)
Definition R_poly : N := N.shiftl 0xe1 120.

Definition gf_shift (v : N) : N :=
  if N.testbit v 0 then N.lxor (N.shiftr v 1) R_poly else N.shiftr v 1.

Fixpoint gf_mul_aux (n : nat) (x v z : N) : N :=
  match n with
  | O => z
  | S n' =>
      gf_mul_aux n' x (gf_shift v) (if N.testbit x (N.of_nat n') then N.lxor z v else z)
  end.

Definition gf_mul (x y : N) : N := gf_mul_aux 128 x y 0%N.

(** The blocks of a byte string, the last one padded with zeros. *)
Fixpoint blocks_of (fuel : nat) (bs : list N) : list N :=
  match fuel with
  | O => []
  | S fuel' =>
      match bs with
      | [] => []
      | _ => be_to_N (take 16 (bs ++ repeat 0%N 15)) :: blocks_of fuel' (drop 16 bs)
      end
  end.

Definition ghash (H : N) (blocks : list N) : N :=
  fold_left (fun y x => gf_mul (N.lxor y x) H) blocks 0%N.

(** The hash of associated data [a] and ciphertext [c]. *)
Definition ghash_ac (H : N) (a c : list N) : N :=
  ghash H (blocks_of (length a) a ++ blocks_of (length c) c
           ++ [(N.shiftl (8 * N.of_nat (length a)) 64 + 8 * N.of_nat (length c))%N]).

Definition inc32 (cb : N) : N :=
  (N.shiftl (N.shiftr cb 32) 32 + (cb + 1) mod 2 ^ 32)%N.

Fixpoint gctr (fuel : nat) (key : list N) (cb : N) (xs : list N) : list N :=
  match fuel with
  | O => []
  | S fuel' =>
      match xs with
      | [] => []
      | _ => xor_bytes (take 16 xs) (N_to_be 16 (CIPH key cb))
             ++ gctr fuel' key (inc32 cb) (drop 16 xs)
      end
  end.

(** The pre-counter block J0. *)
Definition j0 (H : N) (iv : list N) : N :=
  if (length iv =? 12)%nat then (N.shiftl (be_to_N iv) 32 + 1)%N
  else ghash H (blocks_of (length iv) iv ++ [(8 * N.of_nat (length iv))%N]).

Definition gcm_tag (key : list N) (iv a c : list N) : list N :=
  let H := CIPH key 0%N in
  N_to_be 16 (N.lxor (ghash_ac H a c) (CIPH key (j0 H iv))).

Definition gcm_encrypt (key iv a p : list N) : list N :=
  let H := CIPH key 0%N in
  let c := gctr (length p) key (inc32 (j0 H iv)) p in
  c ++ gcm_tag key iv a c.

(** [None] is a tag mismatch. *)
Definition gcm_decrypt (key iv a ct : list N) : option (list N) :=
  let H := CIPH key 0%N in
  let c := take (length ct - 16) ct in
  let t := drop (length ct - 16) ct in
  if bool_decide (gcm_tag key iv a c = t)
  then Some (gctr (length c) key (inc32 (j0 H iv)) c)
  else None.

(** *** Invertibility of the hash subkey

    The authentication tag detects a modified ciphertext block because
    multiplication by the hash subkey H = CIPH_K(0) is a bijection of
    GF(2^128), which it is exactly when H has an inverse.  [gf_inv] is the
    candidate inverse H^(2^128 - 2) and [hash_subkey_invertible] checks, on
    the 128 basis elements, that multiplying by H and then by it is the
    identity.  The unit of the field is the block with only its leftmost bit
    set. *)
Definition gf_one : N := (2 ^ 127)%N.

Fixpoint gf_inv_aux (n : nat) (sq acc : N) : N :=
  match n with
  | O => acc
  | S n' => let sq' := gf_mul sq sq in gf_inv_aux n' sq' (gf_mul acc sq')
  end.

Definition gf_inv (x : N) : N := gf_inv_aux 127 x gf_one.

Definition hash_subkey_invertible (H : N) : bool :=
  let Hinv := gf_inv H in
  forallb (fun j => (gf_mul (gf_mul (2 ^ N.of_nat j) H) Hinv =? 2 ^ N.of_nat j)%N)
          (seq 0 128).

(** *** The [cryptography] package's [AESGCM] and the two functions of
    [crypto.py] *)

Inductive CryptoError :=
| ValueError       (* bad key or nonce length *)
| InvalidTag       (* cryptography.exceptions.InvalidTag *)
| BinasciiError.   (* binascii.Error: incorrect padding *)

Definition key_length_ok (key : list byte) : bool :=
  bool_decide (length key = 16 \/ length key = 24 \/ length key = 32)%nat.

Definition nonce_length_ok (nonce : list byte) : bool :=
  bool_decide (8 <= length nonce <= 128)%nat.

Definition AESGCM_encrypt (key nonce data : list byte) : CryptoError + list byte :=
  if negb (key_length_ok key) then inl ValueError
  else if negb (nonce_length_ok nonce) then inl ValueError
  else inr (bytes_of_N (gcm_encrypt (bytes_to_N key) (bytes_to_N nonce) [] (bytes_to_N data))).

Definition AESGCM_decrypt (key nonce data : list byte) : CryptoError + list byte :=
  if negb (key_length_ok key) then inl ValueError
  else if negb (nonce_length_ok nonce) then inl ValueError
  else if (length data <? 16)%nat then inl InvalidTag
  else match gcm_decrypt (bytes_to_N key) (bytes_to_N nonce) [] (bytes_to_N data) with
       | Some p => inr (bytes_of_N p)
       | None => inl InvalidTag
       end.

Section Crypto.
Variable settings : Settings.

(** [nonce] is the result of [secrets.token_bytes(12)]. *)
Definition encrypt_biometric (nonce : list byte) (template_bytes : list byte)
    : CryptoError + string :=
  let key := take 32 (encode_utf8 (BIOMETRIC_ENCRYPTION_KEY settings)) in
  match AESGCM_encrypt key nonce template_bytes with
  | inl e => inl e
  | inr ciphertext =>
      let encrypted_data := nonce ++ ciphertext in
      inr (decode_utf8 (b64encode encrypted_data))
  end.

Definition decrypt_biometric (encrypted_b64 : string) : CryptoError + list byte :=
  let key := take 32 (encode_utf8 (BIOMETRIC_ENCRYPTION_KEY settings)) in
  if negb (key_length_ok key) then inl ValueError
  else
    match b64decode (encode_utf8 encrypted_b64) with
    | None => inl BinasciiError
    | Some encrypted_data =>
        let nonce := take 12 encrypted_data in
        let ciphertext := drop 12 encrypted_data in
        AESGCM_decrypt key nonce ciphertext
    end.
End Crypto.

(** ** Quantisation of feature vectors ([app/services/crypto.py])

    A NumPy array of floats is a list of real numbers and its shape is its
    length.  The operations are the exact ones: rounding, overflow and NaN
    of [float32] and [float64] are not modelled, so what is proved of these
    functions is stated with the slack that rounding needs, or concerns only
    the integers and the shapes. *)

Section Numeric.
Local Open Scope R_scope.

(** [np.abs(a).max()]; the array is not empty. *)
Definition abs_max (a : list R) : R := fold_right (fun x m => Rmax (Rabs x) m) 0 a.

(** The C cast of a float to an integer truncates towards zero. *)
Definition trunc (x : R) : Z :=
  if Rle_dec 0 x then Int_part x else (- Int_part (- x))%Z.

(** Wrap-around to the range of [int8]. *)
Definition wrap_int8 (z : Z) : Z := ((z + 128) mod 256 - 128)%Z.

(** [astype('int8')] of one component, [tobytes] and [frombuffer] of one
    [int8] (two's complement). *)
Definition astype_int8 (x : R) : Z := wrap_int8 (trunc x).
Definition int8_to_byte (z : Z) : byte := byte_of_N (Z.to_N (z mod 256)).
Definition int8_of_byte (b : byte) : Z :=
  let n := Z.of_N (Byte.to_N b) in if (n <? 128)%Z then n else (n - 256)%Z.

(** [None]: NumPy raises ([max] of an empty array). *)
Definition quantize_embedding (embedding_array : list R) : option (list byte) :=
  match embedding_array with
  | [] => None
  | _ =>
      let scale := abs_max embedding_array + 1 / 100000000 in
      let embedding_normalized := map (fun x => x / scale) embedding_array in
      let embedding_quantized := map (fun x => astype_int8 (x * 127)) embedding_normalized in
      Some (map int8_to_byte embedding_quantized)
  end.

(** [None]: [reshape] raises when the sizes differ. *)
Definition dequantize_embedding (embedding_bytes : list byte) (shape : nat) : option (list R) :=
  if negb (length embedding_bytes =? shape)%nat then None
  else Some (map (fun b => IZR (int8_of_byte b) / 127) embedding_bytes).

(** ** Matching ([app/services/biometric/face.py]) *)

Definition dot (a b : list R) : R := fold_right Rplus 0 (zip_with Rmult a b).
Definition norm (a : list R) : R := sqrt (dot a a).

Definition _cosine_similarity (a b : list R) : R :=
  if negb (length a =? length b)%nat then 0
  else
    let dot_product := dot a b in
    let norm_a := norm a in
    let norm_b := norm b in
    if Req_EM_T norm_a 0 then 0
    else if Req_EM_T norm_b 0 then 0
    else
      let similarity := dot_product / (norm_a * norm_b) in
      Rmax 0 (Rmin 1 similarity).

(** [similarity >= threshold] *)
Definition Rgeb (x y : R) : bool := if Rle_dec y x then true else false.
End Numeric.

Section Face.
Variable settings : Settings.
(** [self.threshold = settings.FACE_THRESHOLD] *)
Variable threshold : R.

(** Every exception of the body is caught and turned into [(False, 0.0)].
    (When [matched], the body also hashes the live embedding and drops the
    result.) *)
Definition face_compare_embeddings (live_embedding : list R)
    (stored_hash stored_encrypted salt : string) : bool * R :=
  match decrypt_biometric settings stored_encrypted with
  | inl _ => (false, 0%R)
  | inr decrypted_bytes =>
      match dequantize_embedding decrypted_bytes (length live_embedding) with
      | None => (false, 0%R)
      | Some stored_embedding =>
          let similarity := _cosine_similarity live_embedding stored_embedding in
          let matched := Rgeb similarity threshold in
          (matched, similarity)
      end
  end.

(** [decode_image]: the part after the first comma of a data URI, base64
    decoded; any failure is [BiometricAuthError("Invalid image format")].
    [base64.b64decode] of a [str] encodes it as ASCII first and raises on
    any other character. *)
Definition is_ascii (c : byte) : bool := (Byte.to_N c <? 128)%N.

Fixpoint split_comma (cur : list byte) (s : list byte) : list (list byte) :=
  match s with
  | [] => [cur]
  | c :: s' => if Byte.eqb c ","%byte then cur :: split_comma [] s'
               else split_comma (cur ++ [c]) s'
  end.

Definition face_decode_image (base64_image : string) : string + list byte :=
  let raw := encode_utf8 base64_image in
  let parts := split_comma [] raw in
  let payload := match parts with _ :: p :: _ => p | _ => raw end in
  if negb (forallb is_ascii payload) then inl "Invalid image format"
  else
    match b64decode payload with
    | Some image_bytes => inr image_bytes
    | None => inl "Invalid image format"
    end.

(** [get_embedding] runs the OpenCV pipeline (decode, detect one face,
    crop, resize, equalise, flatten): a function of the image bytes that
    returns the feature vector or raises [BiometricAuthError]. *)
Variable face_get_embedding : list byte -> string + list R.
Variable format_score : R -> string.

Definition FaceService : BiometricService R := {|
  image := list byte;
  embedding := list R;
  decode_image := face_decode_image;
  get_embedding := face_get_embedding;
  compare_embeddings := face_compare_embeddings;
  fmt4 := format_score
|}.
End Face.

(** ** Administrators ([app/models/admin.py]) *)

Inductive AdminRole := SUPER_ADMIN | ELECTION_ADMINISTRATOR | POLLING_OFFICER | AUDITOR.

#[export] Instance AdminRole_eq_dec : EqDecision AdminRole.
Proof. solve_decision. Defined.

(** The value of a member; the enumeration derives from [str], so a member
    compares and hashes as its value. *)
Definition AdminRole_value (r : AdminRole) : string :=
  match r with
  | SUPER_ADMIN => "super_admin"
  | ELECTION_ADMINISTRATOR => "election_administrator"
  | POLLING_OFFICER => "polling_officer"
  | AUDITOR => "auditor"
  end.

Module Admin.
(** Table [admins]; [role] is a string column. *)
Record t := mk {
  id_ : string;
  username : string;
  role : string;
  is_active : bool
}.

Definition role_hierarchy : list (AdminRole * Z) :=
  [(SUPER_ADMIN, 4); (ELECTION_ADMINISTRATOR, 3); (POLLING_OFFICER, 2); (AUDITOR, 1)].

(** [role_hierarchy.get(key, 0)] *)
Definition role_hierarchy_get (key : string) (default : Z) : Z :=
  match find (fun kv => String.eqb (AdminRole_value kv.1) key) role_hierarchy with
  | Some kv => kv.2
  | None => default
  end.

Definition has_permission (self : t) (required_role : AdminRole) : bool :=
  role_hierarchy_get (AdminRole_value required_role) 0 <=? role_hierarchy_get (role self) 0.
End Admin.

(** ** Administrator tokens ([app/middleware/auth.py])

    The payload is the dictionary restricted to the keys the callers pass
    ([sub], [username], [role], [mfa_required]) and the functions add
    ([exp], [iat], [type]); tokens are as for voting sessions. *)

Module AdminClaims.
Record t := mk {
  sub : option string;
  username : option string;
  role : option string;
  mfa_required : option bool;
  type : option string;
  exp : option Z;
  iat : option Z
}.
End AdminClaims.

Record AdminJWT := mkAdminJWT {
  admin_alg : string;
  admin_payload : AdminClaims.t;
  admin_signed_with : string
}.

Inductive AdminCredentials :=
| AdminMalformed (raw : string)
| AdminBearer (token : AdminJWT).

Definition admin_jwt_encode (data : AdminClaims.t) (key algorithm : string)
    : AdminCredentials :=
  AdminBearer (mkAdminJWT algorithm data key).

Definition admin_jwt_decode (token : AdminCredentials) (key : string)
    (algorithms : list string) (now : Z) : JWTError + AdminClaims.t :=
  match token with
  | AdminMalformed _ => inl JWSError
  | AdminBearer t =>
      if negb (bool_decide (admin_alg t ∈ algorithms)) then inl JWSError
      else if negb (bool_decide (admin_signed_with t = key)) then inl JWSError
      else match AdminClaims.exp (admin_payload t) with
           | Some e => if e <? now then inl ExpiredSignatureError else inr (admin_payload t)
           | None => inr (admin_payload t)
           end
  end.

(** The two settings of [app/config.py] that only these tokens use. *)
Record TokenSettings := mkTokenSettings {
  ACCESS_TOKEN_EXPIRE_MINUTES : Z;
  REFRESH_TOKEN_EXPIRE_DAYS : Z
}.

Definition default_token_settings : TokenSettings := {|
  ACCESS_TOKEN_EXPIRE_MINUTES := 30;
  REFRESH_TOKEN_EXPIRE_DAYS := 7
|}.

(** [timedelta(days=d)] in seconds. *)
Definition days (d : Z) : Z := 86400 * d.

Section AdminTokens.
Variable settings : Settings.
Variable token_settings : TokenSettings.

(** [expires_delta] is a number of seconds; [if expires_delta:] is false
    for [None] and for a zero [timedelta]. *)
Definition create_access_token (data : AdminClaims.t) (expires_delta : option Z) (now : Z)
    : AdminCredentials :=
  let expire :=
    match expires_delta with
    | Some delta =>
        if negb (delta =? 0) then now + delta
        else now + minutes (ACCESS_TOKEN_EXPIRE_MINUTES token_settings)
    | None => now + minutes (ACCESS_TOKEN_EXPIRE_MINUTES token_settings)
    end in
  let to_encode :=
    AdminClaims.mk (AdminClaims.sub data) (AdminClaims.username data) (AdminClaims.role data)
      (AdminClaims.mfa_required data) (AdminClaims.type data) (Some expire) (Some now) in
  admin_jwt_encode to_encode (JWT_SECRET settings) (JWT_ALGORITHM settings).

Definition create_refresh_token (data : AdminClaims.t) (now : Z) : AdminCredentials :=
  let expire := now + days (REFRESH_TOKEN_EXPIRE_DAYS token_settings) in
  let to_encode :=
    AdminClaims.mk (AdminClaims.sub data) (AdminClaims.username data) (AdminClaims.role data)
      (AdminClaims.mfa_required data) (Some "refresh") (Some expire) (Some now) in
  admin_jwt_encode to_encode (JWT_SECRET settings) (JWT_ALGORITHM settings).

Definition decode_refresh_token (token : AdminCredentials) (now : Z)
    : HTTPException + AdminClaims.t :=
  match admin_jwt_decode token (JWT_SECRET settings) [JWT_ALGORITHM settings] now with
  | inl _ => inl (mkHTTP 401 "Invalid refresh token")
  | inr payload =>
      if negb (bool_decide (AdminClaims.type payload = Some "refresh"))
      then inl (mkHTTP 401 "Invalid token type")
      else inr payload
  end.

Definition admin_credentials_exception : HTTPException :=
  mkHTTP 401 "Could not validate credentials".

(** [query_admin admin_id] is
    [db.query(Admin).filter(Admin.id == admin_id).first()]. *)
Definition get_current_admin (query_admin : string -> option Admin.t)
    (credentials : AdminCredentials) (now : Z) : HTTPException + Admin.t :=
  match admin_jwt_decode credentials (JWT_SECRET settings) [JWT_ALGORITHM settings] now with
  | inl _ => inl admin_credentials_exception
  | inr payload =>
      match AdminClaims.sub payload with
      | None => inl admin_credentials_exception
      | Some admin_id =>
          if bool_decide (AdminClaims.type payload = Some "refresh")
          then inl (mkHTTP 401 "Cannot use refresh token for authentication")
          else
            match query_admin admin_id with
            | None => inl admin_credentials_exception
            | Some admin =>
                if negb (Admin.is_active admin)
                then inl (mkHTTP 403 "Admin account is inactive")
                else inr admin
            end
      end
  end.
End AdminTokens.

(** [f"{[r.value for r in roles]}"]: the [repr] of a list of strings
    (the values have no quote or backslash). *)
Definition repr_values (roles : list AdminRole) : string :=
  "[" +:+ String.concat ", " (map (fun r => "'" +:+ AdminRole_value r +:+ "'") roles) +:+ "]".

(** [require_role], given the roles, returns [role_checker]; its argument
    is the result of [get_current_admin]. *)
Definition role_checker (roles : list AdminRole) (current_admin : Admin.t)
    : HTTPException + Admin.t :=
  if negb (bool_decide (Admin.role current_admin ∈ map AdminRole_value roles)) then
    let has_permission := existsb (Admin.has_permission current_admin) roles in
    if negb has_permission then
      inl (mkHTTP 403 ("Insufficient permissions. Required: " +:+ repr_values roles))
    else inr current_admin
  else inr current_admin.

Definition require_role (roles : list AdminRole) : Admin.t -> HTTPException + Admin.t :=
  role_checker roles.

(** * Token validation *)

Section ValidationFacts.
Context {score : Type}.
Variable settings : Settings.

Lemma jwt_decode_inr (c : Credentials) (key : string) (algs : list string) (now : Z) (p : Claims.t) :
  jwt_decode c key algs now = inr p <->
  exists tok, c = Bearer tok /\ alg tok ∈ algs /\ signed_with tok = key /\
              match Claims.exp (payload tok) with Some e => now <= e | None => True end /\
              p = payload tok.
Proof.
  unfold jwt_decode. split.
  - destruct c as [raw|tok]; [discriminate|].
    repeat case_bool_decide; simpl; try discriminate.
    destruct (Claims.exp (payload tok)) as [e|] eqn:He.
    + destruct (Z.ltb_spec e now); [discriminate|].
      intros [= <-]. exists tok. rewrite He. auto.
    + intros [= <-]. exists tok. rewrite He. auto.
  - intros (tok & -> & Halg & Hkey & Hexp & ->).
    rewrite !bool_decide_eq_true_2 by assumption. simpl.
    destruct (Claims.exp (payload tok)) as [e|]; [|reflexivity].
    destruct (Z.ltb_spec e now); [lia|reflexivity].
Qed.

Lemma truthy_Some (o : option string) :
  truthy o = true -> exists s, o = Some s /\ s <> "".
Proof.
  destruct o as [s|]; simpl; [|discriminate].
  intros H. exists s. split; [reflexivity|].
  intros ->. discriminate.
Qed.
End ValidationFacts.

Ltac unfold_M :=
  unfold mbind, M_bind, mret, M_ret, query, execute, commit, rollback, raise, throw; cbn.

Ltac expired_absurd :=
  match goal with
  | He : Claims.exp _ = Some _, Hexp : match Claims.exp _ with Some _ => _ | None => _ end |- _ =>
      rewrite He in Hexp; lia
  end.

Ltac falsy_absurd :=
  match goal with
  | Hv : ?x = Some ?v, T : truthy ?x = false |- _ =>
      rewrite Hv in T; simpl in T;
      destruct (String.eqb_spec v ""); [contradiction|discriminate]
  end.

Section ValidationTheorem.
Context {score : Type}.

(** C6. [get_current_session] returns the session data only for a token
    signed with the voting-session secret (so a token signed with the
    admin secret is refused when the two secrets differ), not expired, of
    type "voting_session", whose voter exists with [has_voted = false] and
    [locked_out = false]; the returned data are the token's claims.
    Otherwise it raises: 401 for a bad signature, an expired token or a
    wrong type, 404 when the voter no longer exists, 409 when the voter has
    voted, 403 when the voter is locked out.  It never writes. *)
Theorem get_current_session_validates
    (settings : Settings) (c : Credentials) (now : Z) (s : State score)
    (Hdomains : JWT_SECRET settings <> VOTING_SESSION_SECRET settings) :
  let r := get_current_session settings c now s in
  snd r = s /\
  (forall sd, fst r = Return sd ->
     exists tok voter,
       c = Bearer tok /\
       signed_with tok = VOTING_SESSION_SECRET settings /\
       match Claims.exp (payload tok) with Some e => now <= e | None => True end /\
       Claims.type (payload tok) = Some "voting_session" /\
       Claims.voter_id (payload tok) = Some (sd_voter_id sd) /\
       Claims.election_id (payload tok) = Some (sd_election_id sd) /\
       Claims.constituency_id (payload tok) = Some (sd_constituency_id sd) /\
       Claims.session_id (payload tok) = Some (sd_session_id sd) /\
       voters (pending s) !! sd_voter_id sd = Some voter /\
       Voter.has_voted voter = false /\
       Voter.locked_out voter = false) /\
  (forall tok, c = Bearer tok -> signed_with tok = JWT_SECRET settings ->
     fst r = Raise credentials_exception) /\
  (forall tok, c = Bearer tok -> signed_with tok <> VOTING_SESSION_SECRET settings ->
     fst r = Raise credentials_exception) /\
  (forall tok e, c = Bearer tok -> Claims.exp (payload tok) = Some e -> e < now ->
     fst r = Raise credentials_exception) /\
  (forall tok, c = Bearer tok -> Claims.type (payload tok) <> Some "voting_session" ->
     fst r = Raise credentials_exception) /\
  (forall tok v e k sid,
     c = Bearer tok ->
     alg tok = JWT_ALGORITHM settings ->
     signed_with tok = VOTING_SESSION_SECRET settings ->
     match Claims.exp (payload tok) with Some e => now <= e | None => True end ->
     Claims.type (payload tok) = Some "voting_session" ->
     Claims.voter_id (payload tok) = Some v -> v <> "" ->
     Claims.election_id (payload tok) = Some e -> e <> "" ->
     Claims.constituency_id (payload tok) = Some k -> k <> "" ->
     Claims.session_id (payload tok) = Some sid -> sid <> "" ->
     fst r =
       match voters (pending s) !! v with
       | None => Raise (mkHTTP 404 "Voter not found")
       | Some voter =>
           if Voter.has_voted voter then Raise (mkHTTP 409 "Voter has already cast vote")
           else if Voter.locked_out voter then Raise (mkHTTP 403 "Voter is locked out")
           else Return (mkSessionData v e k sid)
       end).
Proof.
  intros r. subst r. unfold get_current_session.
  destruct (jwt_decode c (VOTING_SESSION_SECRET settings) [JWT_ALGORITHM settings] now)
    as [err|p] eqn:Hdec.
  - (* jwt.decode raised *)
    assert (Hno : forall p, jwt_decode c (VOTING_SESSION_SECRET settings)
                   [JWT_ALGORITHM settings] now <> inr p) by (intros p; rewrite Hdec; discriminate).
    cbn. repeat split; try (intros; reflexivity); try discriminate.
    intros tok v e k sid Hc Halg Hkey Hexp _ _ _ _ _ _ _ _ _. subst c.
    exfalso. apply (Hno (payload tok)). apply jwt_decode_inr.
    exists tok. rewrite Halg. repeat split; try assumption. set_solver.
  - apply jwt_decode_inr in Hdec as (tok & -> & Halg & Hkey & Hexp & ->).
    apply list_elem_of_singleton in Halg.
    destruct (bool_decide (Claims.type (payload tok) = Some "voting_session")) eqn:Hty; simpl.
    2: { apply bool_decide_eq_false in Hty. cbn.
         repeat split; try (intros; reflexivity); try discriminate.
         intros; simplify_eq. }
    apply bool_decide_eq_true in Hty.
    destruct (truthy (Claims.voter_id (payload tok))) eqn:T1; simpl.
    2: { cbn. repeat split; try (intros; reflexivity); try discriminate.
         intros; simplify_eq. falsy_absurd. }
    destruct (truthy (Claims.election_id (payload tok))) eqn:T2; simpl.
    2: { cbn. repeat split; try (intros; reflexivity); try discriminate.
         intros; simplify_eq. falsy_absurd. }
    destruct (truthy (Claims.constituency_id (payload tok))) eqn:T3; simpl.
    2: { cbn. repeat split; try (intros; reflexivity); try discriminate.
         intros; simplify_eq. falsy_absurd. }
    destruct (truthy (Claims.session_id (payload tok))) eqn:T4; simpl.
    2: { cbn. repeat split; try (intros; reflexivity); try discriminate.
         intros; simplify_eq. falsy_absurd. }
    apply truthy_Some in T1 as (v & Hv & Hvne).
    apply truthy_Some in T2 as (e & He & Hene).
    apply truthy_Some in T3 as (k & Hk & Hkne).
    apply truthy_Some in T4 as (sid & Hsid & Hsidne).
    rewrite Hv, He, Hk, Hsid. cbn. unfold_M.
    destruct (voters (pending s) !! v) as [voter|] eqn:Hvoter; cbn.
    2: { repeat split; try (intros; reflexivity); try discriminate.
         all: intros; simplify_eq; try congruence; try expired_absurd.
         rewrite Hvoter. reflexivity. }
    destruct (Voter.has_voted voter) eqn:Hhv; cbn.
    { repeat split; try (intros; reflexivity); try discriminate.
      all: intros; simplify_eq; try congruence; try expired_absurd.
      rewrite Hvoter, Hhv. reflexivity. }
    destruct (Voter.locked_out voter) eqn:Hlo; cbn.
    { repeat split; try (intros; reflexivity); try discriminate.
      all: intros; simplify_eq; try congruence; try expired_absurd.
      rewrite Hvoter, Hhv, Hlo. reflexivity. }
    repeat split; try (intros; reflexivity).
    all: intros; simplify_eq; try congruence; try expired_absurd.
    + exists tok, voter. cbn. rewrite Hv, He, Hk, Hsid. auto 12.
    + rewrite Hvoter, Hhv, Hlo. reflexivity.
Qed.
End ValidationTheorem.

Section LedgerFailure.
Context {score : Type}.
Variable pg : Postgres.
Variable blockchain_service : BlockchainService.

(** C3. When [cast_vote] reaches the ledger and the submission raises
    [BlockchainError], the call raises 503 and nothing is written: the
    state after the call is the state before it (committed rows, pending
    rows and [used_tokens]), so the voter still has [has_voted = false],
    the same [voted_at], and [vote_submissions] has no new row. *)
Theorem cast_vote_ledger_failure
    (sd : SessionData) (candidate_id : string)
    (submit_vote_on_chain : string -> Z -> Z -> LedgerReply) (now : Z) (s : State score)
    (voter : Voter.t) (candidate : Candidate.t) (constituency : Constituency.t) (e : string)
    (Hfresh : used_tokens s !! sd_session_id sd = None)
    (Hvoter : voters (pending s) !! sd_voter_id sd = Some voter)
    (Hnot_voted : Voter.has_voted voter = false)
    (Hnot_locked : Voter.locked_out voter = false)
    (Hcandidate : candidates (pending s) !! candidate_id = Some candidate)
    (Helection : Candidate.election_id candidate = sd_election_id sd)
    (Hactive : Candidate.is_active candidate = true)
    (Hconstituency : Candidate.constituency_id candidate = sd_constituency_id sd)
    (Hrow : constituencies (pending s) !! sd_constituency_id sd = Some constituency)
    (Hledger : submit_vote_on_chain (Voter.blockchain_voter_id voter)
                 (Candidate.on_chain_id candidate) (Constituency.on_chain_id constituency)
               = BlockchainError e) :
  cast_vote pg blockchain_service sd candidate_id submit_vote_on_chain now s
    = (Raise (mkHTTP 503 ("Blockchain error: " +:+ e)), s) /\
  (forall r s', cast_vote pg blockchain_service sd candidate_id submit_vote_on_chain now s = (r, s') ->
     voters (committed s') !! sd_voter_id sd = voters (committed s) !! sd_voter_id sd /\
     voters (pending s') !! sd_voter_id sd = Some voter /\
     Voter.voted_at voter = Voter.voted_at voter /\
     vote_submissions (committed s') = vote_submissions (committed s) /\
     vote_submissions (pending s') = vote_submissions (pending s) /\
     used_tokens s' = used_tokens s).
Proof.
  assert (Heq : cast_vote pg blockchain_service sd candidate_id submit_vote_on_chain now s
                = (Raise (mkHTTP 503 ("Blockchain error: " +:+ e)), s)).
  { unfold cast_vote, select_candidate, get_used_tokens, try_except. unfold_M.
    rewrite Hfresh. cbn.
    rewrite Hvoter. cbn. rewrite Hnot_voted, Hnot_locked. cbn.
    rewrite Hcandidate. cbn. rewrite Helection, String.eqb_refl. cbn.
    rewrite Hactive. cbn. rewrite Hconstituency, String.eqb_refl. cbn.
    rewrite Hrow. cbn. rewrite Hledger. reflexivity. }
  split; [exact Heq|].
  intros r s' H. rewrite Heq in H. injection H as <- <-. auto 10.
Qed.
End LedgerFailure.

(** * The attempt throttle *)

Section ThrottleFacts.
Context {score : Type}.
Variable settings : Settings.
Variable pg : Postgres.
Variable svc : BiometricService score.

(** The sample is processed to a live embedding and the comparison with
    the voter's stored template does not match, with score [sc]. *)
Definition rejects (method : AuthMethod) (voter : Voter.t) (sample : string) (sc : score) : Prop :=
  exists img emb,
    decode_image svc sample = inr img /\
    get_embedding svc img = inr emb /\
    compare_embeddings svc emb (stored_hash method voter) (stored_encrypted method voter)
      (Voter.biometric_salt voter) = (false, sc).

Definition accepts (method : AuthMethod) (voter : Voter.t) (sample : string) (sc : score) : Prop :=
  exists img emb,
    decode_image svc sample = inr img /\
    get_embedding svc img = inr emb /\
    compare_embeddings svc emb (stored_hash method voter) (stored_encrypted method voter)
      (Voter.biometric_salt voter) = (true, sc).

(** The rows after [log_auth_attempt]: the attempt is appended when its
    address is an INET value, and nothing is written otherwise. *)
Definition logged (a : AuthAttempt.t score) (d : DB score) : DB score :=
  if inet_in pg (AuthAttempt.ip_address a) then insert_auth_attempt a d else d.

Lemma voters_logged (a : AuthAttempt.t score) (d : DB score) :
  voters (logged a d) = voters d.
Proof. unfold logged. destruct (inet_in pg _); reflexivity. Qed.

Lemma constituencies_logged (a : AuthAttempt.t score) (d : DB score) :
  constituencies (logged a d) = constituencies d.
Proof. unfold logged. destruct (inet_in pg _); reflexivity. Qed.

Lemma auth_attempts_logged (a : AuthAttempt.t score) (d : DB score) :
  auth_attempts (logged a d)
  = auth_attempts d ++ (if inet_in pg (AuthAttempt.ip_address a) then [a] else []).
Proof. unfold logged. destruct (inet_in pg _); cbn; [reflexivity|]. now rewrite app_nil_r. Qed.

(** The row of a failed match and the row of the lock. *)
Definition failure_row (method : AuthMethod) (voter : Voter.t) (sc : score)
    (ip : string) (now : Z) : AuthAttempt.t score :=
  AuthAttempt.mk (Some (Voter.id_ voter)) method FAILURE
    (Some (method_name method +:+ " not matched (similarity: " +:+ fmt4 svc sc +:+ ")"))
    (Some sc) ip now.

Definition lockout_row (method : AuthMethod) (voter : Voter.t)
    (ip : string) (now : Z) : AuthAttempt.t score :=
  AuthAttempt.mk (Some (Voter.id_ voter)) method LOCKOUT
    (Some "Max attempts exceeded") None ip now.

Lemma log_auth_attempt_clean (voter_id : string) (method : AuthMethod) (outcome : AuthOutcome)
    (failure_reason : option string) (similarity_score : option score) (ip : string) (now : Z)
    (d : DB score) (used : gmap string Z) :
  let d' := logged (AuthAttempt.mk (Voter.id_ <$> voters d !! voter_id) method outcome
                      failure_reason similarity_score ip now) d in
  log_auth_attempt pg voter_id method outcome failure_reason similarity_score ip now
    (mkState d d used)
  = (Return tt, mkState d' d' used).
Proof.
  unfold log_auth_attempt, logged, try_except. unfold_M.
  destruct (inet_in pg ip); reflexivity.
Qed.

(** A failed match on an active voter: 401, the counter is incremented,
    the FAILURE attempt is logged; nothing else changes. *)
Lemma authenticate_failed_match (method : AuthMethod)
    (voter_id sample ip session_id : string) (now : Z) (s : State score)
    (voter : Voter.t) (c : Constituency.t) (sc : score) :
  voters (committed s) !! voter_id = Some voter ->
  constituencies (committed s) !! Voter.constituency_id voter = Some c ->
  Voter.has_voted voter = false ->
  Voter.locked_out voter = false ->
  Voter.failed_auth_count voter < MAX_AUTH_ATTEMPTS settings ->
  Voter.failed_auth_count voter < SMALLINT_MAX ->
  rejects method voter sample sc ->
  let new_count := Voter.failed_auth_count voter + 1 in
  let d := logged (failure_row method voter sc ip now)
             (update_voter voter_id (Voter.set_failed_auth_count new_count) (committed s)) in
  request (authenticate settings pg svc method voter_id sample ip session_id now) s
  = (Raise (mkHTTP 401 (method_name method +:+ " authentication failed. "
                        +:+ pretty (MAX_AUTH_ATTEMPTS settings - new_count)
                        +:+ " attempt(s) remaining.")),
     mkState d d (used_tokens s)).
Proof.
  intros Hv Hc Hhv Hlo Hcount Hsmall (img & emb & Hdec & Hemb & Hcmp) new_count d.
  unfold request, authenticate, try_except at 1, close. unfold_M.
  rewrite Hv. cbn. rewrite Hc. cbn. rewrite Hhv, Hlo. cbn.
  destruct (Z.leb_spec (MAX_AUTH_ATTEMPTS settings) (Voter.failed_auth_count voter)); [lia|].
  rewrite Hdec, Hemb, Hcmp. cbn.
  destruct (Z.ltb_spec SMALLINT_MAX (Voter.failed_auth_count voter + 1)); [lia|].
  cbn. rewrite log_auth_attempt_clean. cbn.
  rewrite lookup_alter_eq, Hv. reflexivity.
Qed.

(** An attempt on a voter that is not locked but has used up the
    attempts: the account is locked now, the LOCKOUT attempt is logged
    without a score, and the sample is not looked at. *)
Lemma authenticate_locks (method : AuthMethod)
    (voter_id sample ip session_id : string) (now : Z) (s : State score)
    (voter : Voter.t) (c : Constituency.t) :
  voters (committed s) !! voter_id = Some voter ->
  constituencies (committed s) !! Voter.constituency_id voter = Some c ->
  Voter.has_voted voter = false ->
  Voter.locked_out voter = false ->
  MAX_AUTH_ATTEMPTS settings <= Voter.failed_auth_count voter ->
  let d := logged (lockout_row method voter ip now)
             (update_voter voter_id (Voter.lock now) (committed s)) in
  request (authenticate settings pg svc method voter_id sample ip session_id now) s
  = (Raise (mkHTTP 403 ("Maximum authentication attempts exceeded. Account locked for "
                        +:+ pretty (LOCKOUT_DURATION_MINUTES settings) +:+ " minutes.")),
     mkState d d (used_tokens s)).
Proof.
  intros Hv Hc Hhv Hlo Hcount d.
  unfold request, authenticate, try_except at 1, close. unfold_M.
  rewrite Hv. cbn. rewrite Hc. cbn. rewrite Hhv, Hlo. cbn.
  destruct (Z.leb_spec (MAX_AUTH_ATTEMPTS settings) (Voter.failed_auth_count voter)); [|lia].
  cbn. rewrite log_auth_attempt_clean. cbn.
  rewrite lookup_alter_eq, Hv. reflexivity.
Qed.

(** An attempt on a voter whose row is locked with a lockout instant:
    the comparison of the clock with the end of the lockout raises, the
    request answers 500, and no row is written, whatever the time and the
    sample. *)
Lemma authenticate_locked_raises (method : AuthMethod)
    (voter_id sample ip session_id : string) (now lockout_time : Z) (s : State score)
    (voter : Voter.t) (c : Constituency.t) :
  voters (committed s) !! voter_id = Some voter ->
  constituencies (committed s) !! Voter.constituency_id voter = Some c ->
  Voter.has_voted voter = false ->
  Voter.locked_out voter = true ->
  Voter.lockout_at voter = Some lockout_time ->
  request (authenticate settings pg svc method voter_id sample ip session_id now) s
  = (Raise authentication_error, close s).
Proof.
  intros Hv Hc Hhv Hlo Hat.
  unfold request, authenticate, try_except at 1, close. unfold_M.
  rewrite Hv. cbn. rewrite Hc. cbn. rewrite Hhv, Hlo, Hat. reflexivity.
Qed.
End ThrottleFacts.

Section LockoutExpiry.
Context {score : Type}.

(** C4 on the code. A voter locked by the throttle has [locked_out] set
    and a lockout instant in [lockout_at].  When the lockout duration has
    elapsed and the voter presents a sample that matches, the request does
    not reset the row and does not reach the comparison: the check
    [datetime.utcnow() < lockout_time + lockout_duration] compares a naive
    with an aware datetime and raises, the request answers 500
    "Authentication failed. Please try again.", the voter's row keeps
    [locked_out] and its counter, and no attempt is logged. *)
Theorem attempt_after_lockout_expiry_fails
    (settings : Settings) (pg : Postgres) (svc : BiometricService score) (method : AuthMethod)
    (voter_id sample ip session_id : string) (now lockout_time : Z) (s : State score)
    (voter : Voter.t) (c : Constituency.t) (sc : score)
    (Hvoter : voters (committed s) !! voter_id = Some voter)
    (Hconst : constituencies (committed s) !! Voter.constituency_id voter = Some c)
    (Hnot_voted : Voter.has_voted voter = false)
    (Hlocked : Voter.locked_out voter = true)
    (Hat : Voter.lockout_at voter = Some lockout_time)
    (Helapsed : lockout_time + minutes (LOCKOUT_DURATION_MINUTES settings) <= now)
    (Hmatch : accepts svc method voter sample sc) :
  let r := request (authenticate settings pg svc method voter_id sample ip session_id now) s in
  fst r = Raise (mkHTTP 500 "Authentication failed. Please try again.") /\
  committed (snd r) = committed s /\
  voters (committed (snd r)) !! voter_id = Some voter /\
  auth_attempts (committed (snd r)) = auth_attempts (committed s) /\
  used_tokens (snd r) = used_tokens s.
Proof.
  intros r. subst r.
  rewrite (authenticate_locked_raises settings pg svc method voter_id sample ip session_id
             now lockout_time s voter c Hvoter Hconst Hnot_voted Hlocked Hat).
  cbn. auto.
Qed.
End LockoutExpiry.

Section LockTransition.
Context {score : Type}.

Lemma rejects_set_failed_auth_count (svc : BiometricService score) (m : AuthMethod)
    (voter : Voter.t) (n : Z) (sample : string) (sc : score) :
  rejects svc m voter sample sc ->
  rejects svc m (Voter.set_failed_auth_count n voter) sample sc.
Proof. destruct m; exact (fun H => H). Qed.

Lemma failure_row_set_failed_auth_count (svc : BiometricService score) (m : AuthMethod)
    (voter : Voter.t) (n : Z) (sc : score) (ip : string) (now : Z) :
  failure_row svc m (Voter.set_failed_auth_count n voter) sc ip now
  = failure_row svc m voter sc ip now.
Proof. reflexivity. Qed.

(** C5 (amended). With [MAX_AUTH_ATTEMPTS = 3] and a voter at
    [failed_auth_count = 0], three consecutive failed matches leave the
    voter at [failed_auth_count = 3] with [locked_out] still false and no
    lockout timestamp written, and log three FAILURE attempts with their
    scores when the client address is one that the INET column reads (none
    of them otherwise); the transition to LOCKED happens on the next
    attempt, which is refused with 403, sets [locked_out = true] and
    [lockout_at = now] and logs a LOCKOUT attempt without a score (again
    when its address is read), whatever the sample is. *)
Theorem lock_is_set_on_the_attempt_after_the_third_failure
    (settings : Settings) (pg : Postgres) (face_service : BiometricService score)
    (blockchain_service : BlockchainService)
    (fingerprint_service : option (BiometricService score))
    (s : State score) (voter_id : string) (voter : Voter.t) (c : Constituency.t)
    (img1 img2 img3 ip sid1 sid2 sid3 : string) (sc1 sc2 sc3 : score) (t1 t2 t3 : Z)
    (Hmax : MAX_AUTH_ATTEMPTS settings = 3)
    (Hvoter : voters (committed s) !! voter_id = Some voter)
    (Hconst : constituencies (committed s) !! Voter.constituency_id voter = Some c)
    (Hnot_voted : Voter.has_voted voter = false)
    (Hactive : Voter.locked_out voter = false)
    (Hzero : Voter.failed_auth_count voter = 0)
    (Hfail1 : rejects face_service FACE voter img1 sc1)
    (Hfail2 : rejects face_service FACE voter img2 sc2)
    (Hfail3 : rejects face_service FACE voter img3 sc3) :
  let s3 := run settings pg blockchain_service face_service fingerprint_service s
              [AuthenticateFace voter_id img1 ip sid1 t1;
               AuthenticateFace voter_id img2 ip sid2 t2;
               AuthenticateFace voter_id img3 ip sid3 t3] in
  auth_attempts (committed s3)
    = auth_attempts (committed s)
      ++ (if inet_in pg ip
          then [failure_row face_service FACE voter sc1 ip t1;
                failure_row face_service FACE voter sc2 ip t2;
                failure_row face_service FACE voter sc3 ip t3]
          else []) /\
  voters (committed s3) !! voter_id = Some (Voter.set_failed_auth_count 3 voter) /\
  Voter.locked_out (Voter.set_failed_auth_count 3 voter) = false /\
  Voter.lockout_at (Voter.set_failed_auth_count 3 voter) = Voter.lockout_at voter /\
  (forall img4 ip4 sid4 t4,
     let r := request (authenticate_with_face settings pg face_service
                         voter_id img4 ip4 sid4 t4) s3 in
     fst r = Raise (mkHTTP 403
               ("Maximum authentication attempts exceeded. Account locked for "
                +:+ pretty (LOCKOUT_DURATION_MINUTES settings) +:+ " minutes.")) /\
     voters (committed (snd r)) !! voter_id
       = Some (Voter.lock t4 (Voter.set_failed_auth_count 3 voter)) /\
     auth_attempts (committed (snd r))
       = auth_attempts (committed s3)
         ++ (if inet_in pg ip4
             then [AuthAttempt.mk (Some (Voter.id_ voter)) FACE LOCKOUT
                     (Some "Max attempts exceeded") None ip4 t4]
             else [])).
Proof.
  intros s3. subst s3. unfold run. cbn [fold_left step].
  unfold authenticate_with_face.
  (* first failure *)
  rewrite (authenticate_failed_match settings pg face_service FACE voter_id img1 ip sid1 t1 s
             voter c sc1) by (try assumption; unfold SMALLINT_MAX; lia).
  cbn [snd]. rewrite Hzero.
  match goal with |- context [mkState ?d ?d ?u] => remember (mkState d d u) as s1 eqn:E1 end.
  assert (Hv1 : voters (committed s1) !! voter_id = Some (Voter.set_failed_auth_count 1 voter))
    by (subst s1; cbn; rewrite voters_logged; cbn; rewrite lookup_alter_eq, Hvoter; reflexivity).
  assert (Hc1 : constituencies (committed s1) = constituencies (committed s))
    by (subst s1; cbn; rewrite constituencies_logged; reflexivity).
  assert (Ha1 : auth_attempts (committed s1)
                = auth_attempts (committed s)
                  ++ (if inet_in pg ip then [failure_row face_service FACE voter sc1 ip t1]
                      else []))
    by (subst s1; cbn; rewrite auth_attempts_logged; reflexivity).
  clear E1.
  (* second failure *)
  rewrite (authenticate_failed_match settings pg face_service FACE voter_id img2 ip sid2 t2 s1
             (Voter.set_failed_auth_count 1 voter) c sc2)
    by (try assumption; try (apply rejects_set_failed_auth_count; assumption);
        try (rewrite Hc1; assumption); unfold SMALLINT_MAX; cbn; lia).
  cbn [snd]. rewrite failure_row_set_failed_auth_count.
  match goal with |- context [mkState ?d ?d ?u] => remember (mkState d d u) as s2 eqn:E2 end.
  assert (Hv2 : voters (committed s2) !! voter_id = Some (Voter.set_failed_auth_count 2 voter))
    by (subst s2; cbn; rewrite voters_logged; cbn; rewrite lookup_alter_eq, Hv1; reflexivity).
  assert (Hc2 : constituencies (committed s2) = constituencies (committed s))
    by (subst s2; cbn; rewrite constituencies_logged; cbn; exact Hc1).
  assert (Ha2 : auth_attempts (committed s2)
                = auth_attempts (committed s1)
                  ++ (if inet_in pg ip then [failure_row face_service FACE voter sc2 ip t2]
                      else []))
    by (subst s2; cbn; rewrite auth_attempts_logged; reflexivity).
  clear E2.
  (* third failure *)
  rewrite (authenticate_failed_match settings pg face_service FACE voter_id img3 ip sid3 t3 s2
             (Voter.set_failed_auth_count 2 voter) c sc3)
    by (try assumption; try (apply rejects_set_failed_auth_count; assumption);
        try (rewrite Hc2; assumption); unfold SMALLINT_MAX; cbn; lia).
  cbn [snd]. rewrite failure_row_set_failed_auth_count.
  match goal with |- context [mkState ?d ?d ?u] => remember (mkState d d u) as s3 eqn:E3 end.
  assert (Hv3 : voters (committed s3) !! voter_id = Some (Voter.set_failed_auth_count 3 voter))
    by (subst s3; cbn; rewrite voters_logged; cbn; rewrite lookup_alter_eq, Hv2; reflexivity).
  assert (Hc3 : constituencies (committed s3) = constituencies (committed s))
    by (subst s3; cbn; rewrite constituencies_logged; cbn; exact Hc2).
  assert (Ha3 : auth_attempts (committed s3)
                = auth_attempts (committed s2)
                  ++ (if inet_in pg ip then [failure_row face_service FACE voter sc3 ip t3]
                      else []))
    by (subst s3; cbn; rewrite auth_attempts_logged; reflexivity).
  clear E3.
  split; [|split; [exact Hv3|split; [exact Hactive|split; [reflexivity|]]]].
  - rewrite Ha3, Ha2, Ha1, <- !app_assoc. destruct (inet_in pg ip); reflexivity.
  - intros img4 ip4 sid4 t4.
    rewrite (authenticate_locks settings pg face_service FACE voter_id img4 ip4 sid4 t4 s3
               (Voter.set_failed_auth_count 3 voter) c)
      by (try assumption; try (rewrite Hc3; assumption); cbn; lia).
    cbn [fst snd committed]. split; [reflexivity|]. split.
    + rewrite voters_logged. cbn. rewrite lookup_alter_eq, Hv3. reflexivity.
    + rewrite auth_attempts_logged. reflexivity.
Qed.
End LockTransition.

(** * Exactly-once vote commitment *)

Section Ballots.
Context {score : Type}.

(** The rows of [vote_submissions] of one voter (by primary key), and of
    one (voter, election) pair. *)
Definition submissions_of (d : DB score) (uuid : string) : list VoteSubmission.t :=
  filter (fun r => VoteSubmission.voter_id r = uuid) (vote_submissions d).

Definition submissions_for (d : DB score) (uuid election : string) : list VoteSubmission.t :=
  filter (fun r => VoteSubmission.voter_id r = uuid /\ VoteSubmission.election_id r = election)
         (vote_submissions d).

(** The invariant: a voter row has exactly one submission when
    [has_voted] is set and none otherwise; [voters.id] is a key. *)
Definition votes_consistent (d : DB score) : Prop :=
  forall k v, voters d !! k = Some v ->
    length (submissions_of d (Voter.id_ v)) = if Voter.has_voted v then 1%nat else 0%nat.

Definition primary_key_unique (d : DB score) : Prop :=
  forall k1 k2 v1 v2, voters d !! k1 = Some v1 -> voters d !! k2 = Some v2 ->
    Voter.id_ v1 = Voter.id_ v2 -> k1 = k2.

(** What the throttle may change: nothing about ballots. *)
Definition same_ballots (d d' : DB score) : Prop :=
  vote_submissions d' = vote_submissions d /\
  forall k, (fun v => (Voter.id_ v, Voter.has_voted v)) <$> voters d' !! k
            = (fun v => (Voter.id_ v, Voter.has_voted v)) <$> voters d !! k.

Lemma same_ballots_refl d : same_ballots d d.
Proof. split; auto. Qed.

Lemma same_ballots_trans d1 d2 d3 :
  same_ballots d1 d2 -> same_ballots d2 d3 -> same_ballots d1 d3.
Proof. intros [A1 B1] [A2 B2]. split; [congruence|]. intros k. rewrite B2. apply B1. Qed.

Lemma same_ballots_update_voter (f : Voter.t -> Voter.t) (voter_id : string) (d : DB score) :
  (forall v, Voter.id_ (f v) = Voter.id_ v /\ Voter.has_voted (f v) = Voter.has_voted v) ->
  same_ballots d (update_voter voter_id f d).
Proof.
  intros Hf. split; [reflexivity|]. intros k. cbn.
  destruct (decide (voter_id = k)) as [->|Hne].
  - rewrite lookup_alter_eq. destruct (voters d !! k) as [v|]; cbn; [|reflexivity].
    destruct (Hf v) as [-> ->]. reflexivity.
  - rewrite lookup_alter_ne by assumption. reflexivity.
Qed.

Lemma same_ballots_insert_auth_attempt (a : AuthAttempt.t score) (d : DB score) :
  same_ballots d (insert_auth_attempt a d).
Proof. split; reflexivity. Qed.

Lemma same_ballots_invariant d d' :
  same_ballots d d' ->
  votes_consistent d /\ primary_key_unique d ->
  votes_consistent d' /\ primary_key_unique d'.
Proof.
  intros [Hs Hv] [Hc Hp]. split.
  - intros k v' Hk. specialize (Hv k). rewrite Hk in Hv. cbn in Hv.
    destruct (voters d !! k) as [v|] eqn:Hd; [|discriminate].
    cbn in Hv. injection Hv as E1 E2. unfold submissions_of. rewrite Hs, E1, E2.
    exact (Hc k v Hd).
  - intros k1 k2 v1 v2 H1 H2 Hid.
    pose proof (Hv k1) as G1. pose proof (Hv k2) as G2. rewrite H1 in G1. rewrite H2 in G2.
    destruct (voters d !! k1) as [w1|] eqn:D1; [|discriminate].
    destruct (voters d !! k2) as [w2|] eqn:D2; [|discriminate].
    cbn in G1, G2. injection G1 as E1 _. injection G2 as E2 _.
    apply (Hp k1 k2 w1 w2 D1 D2). congruence.
Qed.

Lemma ballot_view_alter (f : Voter.t -> Voter.t) (voter_id k : string)
    (m : gmap string Voter.t) :
  (forall v, Voter.id_ (f v) = Voter.id_ v /\ Voter.has_voted (f v) = Voter.has_voted v) ->
  (fun v => (Voter.id_ v, Voter.has_voted v)) <$> alter f voter_id m !! k
  = (fun v => (Voter.id_ v, Voter.has_voted v)) <$> m !! k.
Proof.
  intros Hf. destruct (decide (voter_id = k)) as [->|Hne].
  - rewrite lookup_alter_eq. destruct (m !! k) as [v|]; cbn; [|reflexivity].
    destruct (Hf v) as [-> ->]. reflexivity.
  - rewrite lookup_alter_ne by assumption. reflexivity.
Qed.

(** The throttle never touches ballots, the single-use tracker, or leaves
    work uncommitted. *)
Lemma authenticate_same_ballots (settings : Settings) (pg : Postgres)
    (svc : BiometricService score)
    (method : AuthMethod) (voter_id sample ip session_id : string) (now : Z) (s : State score) :
  let r := request (authenticate settings pg svc method voter_id sample ip session_id now) s in
  same_ballots (committed s) (committed (snd r)) /\
  pending (snd r) = committed (snd r) /\
  used_tokens (snd r) = used_tokens s.
Proof.
  cbn zeta. unfold request, authenticate, log_auth_attempt, try_except, close. unfold_M.
  repeat (case_match; simplify_eq/=).
  all: repeat split; try reflexivity.
  all: intros k; cbn; rewrite ?ballot_view_alter by (intros v; split; reflexivity); reflexivity.
Qed.
End Ballots.

Section CastOutcomes.
Context {score : Type}.
Variable settings : Settings.
Variable pg : Postgres.
Variable blockchain_service : BlockchainService.

(** [get_current_session] reads only, and raises nothing but
    [HTTPException]. *)
Lemma get_current_session_reads (c : Credentials) (now : Z) (s : State score) :
  snd (get_current_session settings c now s) = s /\
  forall msg, fst (get_current_session settings c now s) <> Throw msg.
Proof.
  unfold get_current_session. unfold_M.
  repeat (case_match; simplify_eq/=); split; try reflexivity; intros; discriminate.
Qed.

(** What a returned session tells about the token and the voter. *)
Lemma get_current_session_Return (c : Credentials) (now : Z) (s s' : State score)
    (sd : SessionData) :
  get_current_session settings c now s = (Return sd, s') ->
  s' = s /\
  exists tok voter,
    c = Bearer tok /\
    Claims.voter_id (payload tok) = Some (sd_voter_id sd) /\
    Claims.session_id (payload tok) = Some (sd_session_id sd) /\
    Claims.election_id (payload tok) = Some (sd_election_id sd) /\
    match Claims.exp (payload tok) with Some e => now <= e | None => True end /\
    voters (pending s) !! sd_voter_id sd = Some voter /\
    Voter.has_voted voter = false /\
    Voter.locked_out voter = false.
Proof.
  intros H.
  pose proof (get_current_session_reads c now s) as [Hs _]. rewrite H in Hs. cbn in Hs.
  split; [exact Hs|]. subst s'.
  unfold get_current_session in H.
  destruct (jwt_decode c _ _ now) as [err|p] eqn:Hdec; [discriminate|].
  assert (Hexp : exists tok, c = Bearer tok /\ p = payload tok /\
            match Claims.exp (payload tok) with Some e => now <= e | None => True end).
  { unfold jwt_decode in Hdec. destruct c as [raw|tok]; [discriminate|].
    exists tok. repeat (case_match; simplify_eq/=); try discriminate; repeat split; try lia. }
  destruct Hexp as (tok & -> & -> & Hexp).
  destruct (bool_decide _); [|discriminate]. cbn [negb] in H.
  destruct (Claims.voter_id (payload tok)) as [v|] eqn:E1; [|discriminate].
  destruct (Claims.election_id (payload tok)) as [e|] eqn:E2;
    [|cbn in H; rewrite andb_false_r in H; discriminate].
  destruct (Claims.constituency_id (payload tok)) as [k|] eqn:E3;
    [|cbn in H; rewrite andb_false_r in H; discriminate].
  destruct (Claims.session_id (payload tok)) as [sid|] eqn:E4;
    [|cbn in H; rewrite andb_false_r in H; discriminate].
  destruct (negb _) in H; [discriminate|].
  cbn in H. unfold_M. cbn in H. revert H. unfold_M.
  destruct (voters (pending s) !! v) as [voter|] eqn:Hv; [|discriminate].
  destruct (Voter.has_voted voter) eqn:Hhv; [discriminate|].
  destruct (Voter.locked_out voter) eqn:Hlo; [discriminate|].
  intros [= <-]. exists tok, voter. cbn. rewrite E1, E2, E4. auto 10.
Qed.

(** The rows after a committed vote. *)
Definition committed_vote (d : DB score) (voter_id candidate_id : string) (voter : Voter.t)
    (election_id session_id tx_hash : string) (block_number gas_used now : Z) : DB score :=
  mkDB (alter (Voter.mark_voted now tx_hash) voter_id (voters d))
       (constituencies d) (elections d) (candidates d) (auth_attempts d)
       (vote_submissions d
          ++ [VoteSubmission.mk (Voter.id_ voter) election_id session_id tx_hash
                block_number gas_used now])
       (blockchain_txns d
          ++ [BlockchainTransaction.mk election_id "cast_vote" tx_hash block_number gas_used
                voter_id candidate_id]).

(** [cast_vote] either commits the submission row and the [has_voted]
    flag together and records the session id, or raises and leaves the
    committed rows and [used_tokens] as they were. *)
Lemma cast_vote_outcomes (sd : SessionData) (candidate_id : string)
    (ledger : string -> Z -> Z -> LedgerReply) (now : Z) (s : State score) :
  let r := cast_vote pg blockchain_service sd candidate_id ledger now s in
  (exists voter tx_hash block_number gas_used,
     fst r = Return (mkVoteResponse tx_hash block_number now) /\
     used_tokens s !! sd_session_id sd = None /\
     voters (pending s) !! sd_voter_id sd = Some voter /\
     Voter.has_voted voter = false /\
     Voter.locked_out voter = false /\
     let d := committed_vote (pending s) (sd_voter_id sd) candidate_id voter
                (sd_election_id sd) (sd_session_id sd) tx_hash block_number gas_used now in
     snd r = mkState d d
               (filter (fun kv => ~ (kv.2 < now))
                  (<[sd_session_id sd := now + minutes 10]> (used_tokens s)))) \/
  ((exists e, fst r = Raise e) /\
   (snd r = s \/ snd r = mkState (committed s) (committed s) (used_tokens s))).
Proof.
  cbn zeta. unfold cast_vote, select_candidate, get_used_tokens, try_except, insert_vote_submission,
    add_blockchain_tx, mark_used, clean_expired_tokens. unfold_M.
  repeat (case_match; simplify_eq/=).
  all: try (right; split; [eexists; reflexivity|auto]; fail).
  all: left; eexists _, _, _, _; repeat split; try reflexivity; try eassumption.
  all: match goal with
       | H : bool_decide (is_Some ?x) = false |- ?x = None =>
           apply bool_decide_eq_false in H; apply eq_None_not_Some; exact H
       end.
Qed.
End CastOutcomes.

Section Endpoint.
Context {score : Type}.
Variable settings : Settings.
Variable pg : Postgres.
Variable blockchain_service : BlockchainService.

(** POST /api/voting/cast, as one request. *)
Lemma post_cast_outcomes (c : Credentials) (candidate_id : string)
    (ledger : string -> Z -> Z -> LedgerReply) (now : Z) (s : State score) :
  let r := request (post_cast settings pg blockchain_service c candidate_id ledger now) s in
  (exists sd tok voter tx_hash block_number gas_used,
     c = Bearer tok /\
     fst (get_current_session settings c now (close s)) = Return sd /\
     Claims.voter_id (payload tok) = Some (sd_voter_id sd) /\
     Claims.session_id (payload tok) = Some (sd_session_id sd) /\
     Claims.election_id (payload tok) = Some (sd_election_id sd) /\
     match Claims.exp (payload tok) with Some e => now <= e | None => True end /\
     fst r = Return (mkVoteResponse tx_hash block_number now) /\
     used_tokens s !! sd_session_id sd = None /\
     voters (committed s) !! sd_voter_id sd = Some voter /\
     Voter.has_voted voter = false /\
     Voter.locked_out voter = false /\
     let d := committed_vote (committed s) (sd_voter_id sd) candidate_id voter
                (sd_election_id sd) (sd_session_id sd) tx_hash block_number gas_used now in
     snd r = mkState d d
               (filter (fun kv => ~ (kv.2 < now))
                  (<[sd_session_id sd := now + minutes 10]> (used_tokens s)))) \/
  ((exists e, fst r = Raise e) /\ snd r = close s).
Proof.
  cbn zeta. unfold request, post_cast. unfold mbind, M_bind.
  pose proof (get_current_session_reads settings c now (close s)) as [Hs Hthrow].
  destruct (get_current_session settings c now (close s)) as [[sd|e|msg] s1] eqn:Hg;
    cbn in Hs; subst s1.
  - pose proof Hg as Hg0.
    apply get_current_session_Return in Hg as (_ & tok & voter & -> & Hv & Hsid & He & Hexp & Hrow & Hhv & Hlo).
    pose proof (cast_vote_outcomes pg blockchain_service sd candidate_id ledger now (close s)) as Hc. cbn zeta in Hc.
    destruct (cast_vote pg blockchain_service sd candidate_id ledger now (close s)) as [r s2].
    cbn [fst snd] in *.
    destruct Hc as [(voter' & tx & blk & gas & Hr & Hfresh & Hrow' & _ & _ & Hs2)|[He' Hs2]].
    + left. exists sd, tok, voter, tx, blk, gas.
      cbn in Hrow, Hrow'. rewrite Hrow in Hrow'. injection Hrow' as <-.
      repeat split; try assumption; try (rewrite Hg0; reflexivity). rewrite Hs2. reflexivity.
    + right. split; [assumption|]. destruct Hs2 as [-> | ->]; reflexivity.
  - right. cbn. split; [eexists; reflexivity|reflexivity].
  - exfalso. apply (Hthrow msg). reflexivity.
Qed.

(** A committed vote keeps the invariant. *)
Lemma committed_vote_invariant (d : DB score) (voter_id candidate_id : string)
    (voter : Voter.t) (election_id session_id tx_hash : string) (blk gas now : Z) :
  voters d !! voter_id = Some voter ->
  Voter.has_voted voter = false ->
  votes_consistent d /\ primary_key_unique d ->
  let d' := committed_vote d voter_id candidate_id voter election_id session_id tx_hash
              blk gas now in
  votes_consistent d' /\ primary_key_unique d'.
Proof.
  intros Hv Hhv [Hc Hp] d'. split.
  - intros k v' Hk. unfold submissions_of. subst d'. cbn in *.
    rewrite filter_app, length_app.
    destruct (decide (voter_id = k)) as [<-|Hne].
    + rewrite lookup_alter_eq, Hv in Hk. cbn in Hk. injection Hk as <-.
      pose proof (Hc voter_id voter Hv) as Hn. rewrite Hhv in Hn.
      unfold submissions_of in Hn. cbn [Voter.mark_voted Voter.id_ Voter.has_voted].
      rewrite Hn. rewrite filter_cons_True by reflexivity. reflexivity.
    + rewrite lookup_alter_ne in Hk by assumption.
      pose proof (Hc k v' Hk) as Hn. unfold submissions_of in Hn. rewrite Hn.
      rewrite filter_cons_False, filter_nil; [cbn; lia|].
      cbn. intros Hid. apply Hne. exact (Hp voter_id k voter v' Hv Hk Hid).
  - intros k1 k2 v1 v2 H1 H2 Hid. subst d'. cbn in *.
    assert (Hback : forall k v, alter (Voter.mark_voted now tx_hash) voter_id (voters d) !! k
                                = Some v ->
              exists w, voters d !! k = Some w /\ Voter.id_ w = Voter.id_ v).
    { intros k v. destruct (decide (voter_id = k)) as [<-|Hne].
      - rewrite lookup_alter_eq, Hv. cbn. intros [= <-]. eauto.
      - rewrite lookup_alter_ne by assumption. eauto. }
    destruct (Hback _ _ H1) as (w1 & W1 & E1), (Hback _ _ H2) as (w2 & W2 & E2).
    apply (Hp k1 k2 w1 w2 W1 W2). congruence.
Qed.
End Endpoint.

Section Reachable.
Context {score : Type}.
Variable settings : Settings.
Variable pg : Postgres.
Variable blockchain_service : BlockchainService.
Variable face_service : BiometricService score.
Variable fingerprint_service : option (BiometricService score).

Lemma filter_pair_le (rows : list VoteSubmission.t) (uuid election : string) :
  (length (filter (fun r => VoteSubmission.voter_id r = uuid /\
                            VoteSubmission.election_id r = election) rows)
   <= length (filter (fun r => VoteSubmission.voter_id r = uuid) rows))%nat.
Proof.
  induction rows as [|r rows IH]; [reflexivity|].
  rewrite !filter_cons. repeat case_decide; cbn; try lia. tauto.
Qed.

Lemma submissions_for_le (d : DB score) (uuid election : string) :
  (length (submissions_for d uuid election) <= length (submissions_of d uuid))%nat.
Proof. apply filter_pair_le. Qed.

Lemma submissions_for_single (d : DB score) (uuid : string) :
  length (submissions_of d uuid) = 1%nat ->
  exists election,
    length (submissions_for d uuid election) = 1%nat /\
    forall e', e' <> election -> length (submissions_for d uuid e') = 0%nat.
Proof.
  unfold submissions_for, submissions_of.
  induction (vote_submissions d) as [|r rows IH]; [discriminate|].
  rewrite filter_cons. case_decide as Hr.
  - intros Hlen. cbn [length] in Hlen. exists (VoteSubmission.election_id r).
    assert (Hnone : forall e, length (filter (fun r0 => VoteSubmission.voter_id r0 = uuid /\
                                       VoteSubmission.election_id r0 = e) rows) = 0%nat).
    { intros e. pose proof (filter_pair_le rows uuid e). lia. }
    split.
    + rewrite filter_cons_True by auto. cbn. rewrite Hnone. reflexivity.
    + intros e' Hne. rewrite filter_cons_False by (intros [_ ?]; congruence).
      apply Hnone.
  - intros Hlen. destruct (IH Hlen) as (e & H1 & H2). exists e. split.
    + rewrite filter_cons_False by tauto. exact H1.
    + intros e' Hne. rewrite filter_cons_False by tauto. auto.
Qed.

(** One request keeps the invariant and leaves nothing pending. *)
Lemma step_invariant (s : State score) (r : Request) :
  votes_consistent (committed s) /\ primary_key_unique (committed s) ->
  votes_consistent (committed (step settings pg blockchain_service face_service fingerprint_service s r)) /\
  primary_key_unique (committed (step settings pg blockchain_service face_service fingerprint_service s r)).
Proof.
  intros Hinv. destruct r as [v img ip sid now|v tpl ip sid now|c cand ledger now]; cbn [step].
  - unfold authenticate_with_face.
    pose proof (authenticate_same_ballots settings pg face_service FACE v img ip sid now s) as [H _].
    exact (same_ballots_invariant _ _ H Hinv).
  - unfold authenticate_with_fingerprint. destruct fingerprint_service as [svc|].
    + pose proof (authenticate_same_ballots settings pg svc FINGERPRINT v tpl ip sid now s) as [H _].
      exact (same_ballots_invariant _ _ H Hinv).
    + exact Hinv.
  - pose proof (post_cast_outcomes settings pg blockchain_service c cand ledger now s) as H. cbn zeta in H.
    destruct H as [(sd & tok & voter & tx & blk & gas & _ & _ & _ & _ & _ & _ & _ & _ & Hv & Hhv & _ & Hs)
                  |[_ Hs]]; rewrite Hs; cbn.
    + apply committed_vote_invariant; assumption.
    + exact Hinv.
Qed.

Lemma run_invariant (s : State score) (rs : list Request) :
  votes_consistent (committed s) /\ primary_key_unique (committed s) ->
  votes_consistent (committed (run settings pg blockchain_service face_service fingerprint_service s rs)) /\
  primary_key_unique (committed (run settings pg blockchain_service face_service fingerprint_service s rs)).
Proof.
  revert s. induction rs as [|r rs IH]; intros s Hinv; [exact Hinv|].
  cbn. apply IH, step_invariant, Hinv.
Qed.
End Reachable.

Section ExactlyOnce.
Context {score : Type}.

(** [cast_vote] for a voter whose flag is set raises before any write. *)
Lemma cast_vote_already_voted (pg : Postgres) (blockchain_service : BlockchainService)
    (sd : SessionData) (candidate_id : string)
    (ledger : string -> Z -> Z -> LedgerReply) (now : Z) (s : State score) (voter : Voter.t) :
  voters (pending s) !! sd_voter_id sd = Some voter ->
  Voter.has_voted voter = true ->
  exists e, cast_vote pg blockchain_service sd candidate_id ledger now s = (Raise e, s) /\
            (e = replay_exception \/ e = mkHTTP 409 "You have already cast your vote.").
Proof.
  intros Hv Hhv. unfold cast_vote, select_candidate, get_used_tokens, try_except. unfold_M.
  destruct (bool_decide (is_Some (used_tokens s !! sd_session_id sd))).
  - eexists. split; [reflexivity|auto].
  - cbn. rewrite Hv. cbn. rewrite Hhv. cbn. eexists. split; [reflexivity|auto].
Qed.

(** C1 (amended). [has_voted] is a flag of the voter, not of a (voter,
    election) pair.  From a store in which every voter row with
    [has_voted] has exactly one row of [vote_submissions] and every other
    voter row has none, any sequence of authentication and cast requests
    leads to a store with the same property: [has_voted] is set iff the
    voter has exactly one submission over all elections; a (voter,
    election) pair never has more than one, and when the flag is set the
    one row is for a single election and every other election has none.  A
    successful cast appends exactly one submission for the token's voter
    and election and sets the voter's flag in the same commit; a cast that
    raises commits nothing; a cast for a voter whose flag is already set
    raises and inserts nothing. *)
Theorem has_voted_iff_one_submission
    (settings : Settings) (pg : Postgres) (blockchain_service : BlockchainService)
    (face_service : BiometricService score)
    (fingerprint_service : option (BiometricService score))
    (s0 : State score) (rs : list Request)
    (Hinit : votes_consistent (committed s0))
    (Hkey : primary_key_unique (committed s0)) :
  let s := run settings pg blockchain_service face_service fingerprint_service s0 rs in
  (forall voter_id voter, voters (committed s) !! voter_id = Some voter ->
     (Voter.has_voted voter = true <->
        length (submissions_of (committed s) (Voter.id_ voter)) = 1%nat) /\
     (Voter.has_voted voter = false <->
        length (submissions_of (committed s) (Voter.id_ voter)) = 0%nat) /\
     (forall election,
        (length (submissions_for (committed s) (Voter.id_ voter) election) <= 1)%nat) /\
     (Voter.has_voted voter = true ->
        exists election,
          length (submissions_for (committed s) (Voter.id_ voter) election) = 1%nat /\
          forall e', e' <> election ->
            length (submissions_for (committed s) (Voter.id_ voter) e') = 0%nat)) /\
  (forall c candidate_id ledger now,
     let r := request (post_cast settings pg blockchain_service c candidate_id ledger now) s in
     (forall resp, fst r = Return resp ->
        exists tok voter_id election_id voter row,
          c = Bearer tok /\
          Claims.voter_id (payload tok) = Some voter_id /\
          Claims.election_id (payload tok) = Some election_id /\
          voters (committed s) !! voter_id = Some voter /\
          Voter.has_voted voter = false /\
          VoteSubmission.voter_id row = Voter.id_ voter /\
          VoteSubmission.election_id row = election_id /\
          vote_submissions (committed (snd r)) = vote_submissions (committed s) ++ [row] /\
          voters (committed (snd r))
            = alter (Voter.mark_voted now (vr_tx_hash resp)) voter_id (voters (committed s)) /\
          Voter.has_voted (Voter.mark_voted now (vr_tx_hash resp) voter) = true) /\
     (forall e, fst r = Raise e ->
        committed (snd r) = committed s /\ used_tokens (snd r) = used_tokens s) /\
     (forall msg, fst r <> Throw msg) /\
     (forall tok voter_id voter,
        c = Bearer tok ->
        Claims.voter_id (payload tok) = Some voter_id ->
        voters (committed s) !! voter_id = Some voter ->
        Voter.has_voted voter = true ->
        (exists e, fst r = Raise e) /\
        vote_submissions (committed (snd r)) = vote_submissions (committed s))) /\
  (forall sd candidate_id ledger now (s1 : State score) voter,
     voters (pending s1) !! sd_voter_id sd = Some voter ->
     Voter.has_voted voter = true ->
     exists e, cast_vote pg blockchain_service sd candidate_id ledger now s1 = (Raise e, s1)).
Proof.
  intros s.
  pose proof (run_invariant settings pg blockchain_service face_service fingerprint_service s0 rs (conj Hinit Hkey))
    as [Hc Hp]. fold s in Hc, Hp.
  split; [|split].
  - intros voter_id voter Hv. pose proof (Hc voter_id voter Hv) as Hn.
    split; [|split; [|split]].
    + destruct (Voter.has_voted voter); rewrite Hn; split; auto; discriminate.
    + destruct (Voter.has_voted voter); rewrite Hn; split; auto; discriminate.
    + intros election.
      pose proof (submissions_for_le (committed s) (Voter.id_ voter) election).
      destruct (Voter.has_voted voter); lia.
    + intros Hhv. rewrite Hhv in Hn. apply submissions_for_single, Hn.
  - intros c candidate_id ledger now r.
    pose proof (post_cast_outcomes settings pg blockchain_service c candidate_id ledger now s) as H. cbn zeta in H.
    fold r in H.
    destruct H as [(sd & tok & voter & tx & blk & gas & -> & _ & Hvid & Hsid & Hel & Hexp & Hr
                    & Hfresh & Hv & Hhv & Hlo & Hs)|[[e He] Hs]].
    + split; [|split; [|split]].
      * intros resp Hresp. rewrite Hr in Hresp. injection Hresp as <-.
        eexists tok, _, _, voter, _. rewrite Hs. cbn.
        repeat split; try eassumption; reflexivity.
      * intros e He. rewrite Hr in He. discriminate.
      * intros msg. rewrite Hr. discriminate.
      * intros tok' voter_id voter' [= <-] Hvid' Hv' Hhv'.
        rewrite Hvid in Hvid'. injection Hvid' as <-. rewrite Hv in Hv'.
        injection Hv' as <-. congruence.
    + split; [|split; [|split]].
      * intros resp Hresp. rewrite He in Hresp. discriminate.
      * intros _ _. rewrite Hs. split; reflexivity.
      * intros msg. rewrite He. discriminate.
      * intros _ _ _ _ _ _ _. split; [eauto|]. rewrite Hs. reflexivity.
  - intros sd candidate_id ledger now s1 voter Hv Hhv.
    destruct (cast_vote_already_voted pg blockchain_service sd candidate_id ledger now s1 voter Hv Hhv) as (e & He & _).
    eauto.
Qed.
End ExactlyOnce.

(** * Single use of a session *)

Section Replay.
Context {score : Type}.
Variable settings : Settings.
Variable pg : Postgres.
Variable blockchain_service : BlockchainService.
Variable face_service : BiometricService score.
Variable fingerprint_service : option (BiometricService score).

(** A token that was accepted once is refused by validation as soon as
    its voter has voted: 401 if it has expired meanwhile, 409 otherwise. *)
Lemma get_current_session_after_vote (c : Credentials) (t0 t : Z) (s s' : State score)
    (sd : SessionData) (voter : Voter.t) :
  fst (get_current_session settings c t0 s) = Return sd ->
  voters (pending s') !! sd_voter_id sd = Some voter ->
  Voter.has_voted voter = true ->
  fst (get_current_session settings c t s') = Raise credentials_exception \/
  fst (get_current_session settings c t s') = Raise (mkHTTP 409 "Voter has already cast vote").
Proof.
  unfold get_current_session, jwt_decode. destruct c as [raw|tok]; [discriminate|].
  destruct (negb (bool_decide (alg tok ∈ [JWT_ALGORITHM settings]))); [discriminate|].
  destruct (negb (bool_decide (signed_with tok = VOTING_SESSION_SECRET settings)));
    [discriminate|].
  intros H Hv Hhv.
  assert (H' : fst ((if negb (bool_decide (Claims.type (payload tok) = Some "voting_session"))
         then raise credentials_exception
         else if negb (truthy (Claims.voter_id (payload tok))
                       && truthy (Claims.election_id (payload tok))
                       && truthy (Claims.constituency_id (payload tok))
                       && truthy (Claims.session_id (payload tok)))
         then raise credentials_exception
         else
           let session_data := mkSessionData
             (default "" (Claims.voter_id (payload tok)))
             (default "" (Claims.election_id (payload tok)))
             (default "" (Claims.constituency_id (payload tok)))
             (default "" (Claims.session_id (payload tok))) in
           voter ← query (fun d : DB score => voters d !! sd_voter_id session_data);
           match voter with
           | None => raise (mkHTTP 404 "Voter not found")
           | Some voter =>
               if Voter.has_voted voter then raise (mkHTTP 409 "Voter has already cast vote")
               else if Voter.locked_out voter then raise (mkHTTP 403 "Voter is locked out")
               else mret session_data
           end) s) = Return sd).
  { destruct (Claims.exp (payload tok)) as [e|]; [|exact H].
    destruct (e <? t0); [discriminate|exact H]. }
  clear H.
  assert (G : fst ((if negb (bool_decide (Claims.type (payload tok) = Some "voting_session"))
         then raise credentials_exception
         else if negb (truthy (Claims.voter_id (payload tok))
                       && truthy (Claims.election_id (payload tok))
                       && truthy (Claims.constituency_id (payload tok))
                       && truthy (Claims.session_id (payload tok)))
         then raise credentials_exception
         else
           let session_data := mkSessionData
             (default "" (Claims.voter_id (payload tok)))
             (default "" (Claims.election_id (payload tok)))
             (default "" (Claims.constituency_id (payload tok)))
             (default "" (Claims.session_id (payload tok))) in
           voter ← query (fun d : DB score => voters d !! sd_voter_id session_data);
           match voter with
           | None => raise (mkHTTP 404 "Voter not found")
           | Some voter =>
               if Voter.has_voted voter then raise (mkHTTP 409 "Voter has already cast vote")
               else if Voter.locked_out voter then raise (mkHTTP 403 "Voter is locked out")
               else mret session_data
           end) s') = Raise (mkHTTP 409 "Voter has already cast vote")).
  { destruct (negb (bool_decide _)); [discriminate|].
    destruct (negb (_ && _)); [discriminate|].
    revert H'. cbn zeta. unfold_M.
    destruct (voters (pending s) !! _) as [v0|]; [|discriminate].
    destruct (Voter.has_voted v0); [discriminate|].
    destruct (Voter.locked_out v0); [discriminate|].
    intros [= <-]. cbn in Hv. rewrite Hv, Hhv. reflexivity. }
  destruct (Claims.exp (payload tok)) as [e|]; [|right; exact G].
  destruct (e <? t); [left; reflexivity|right; exact G].
Qed.

(** [has_voted] is never cleared. *)
Lemma step_has_voted (s : State score) (r : Request) (voter_id : string) (voter : Voter.t) :
  voters (committed s) !! voter_id = Some voter ->
  Voter.has_voted voter = true ->
  exists voter',
    voters (committed (step settings pg blockchain_service face_service fingerprint_service s r)) !! voter_id
      = Some voter' /\
    Voter.has_voted voter' = true.
Proof.
  intros Hv Hhv.
  assert (Hsame : forall d', same_ballots (committed s) d' ->
            exists voter', voters d' !! voter_id = Some voter' /\ Voter.has_voted voter' = true).
  { intros d' [_ H]. specialize (H voter_id). rewrite Hv in H. cbn in H.
    destruct (voters d' !! voter_id) as [v'|]; [|discriminate].
    cbn in H. injection H as _ E. exists v'. split; [reflexivity|congruence]. }
  destruct r as [v img ip sid now|v tpl ip sid now|c cand ledger now]; cbn [step].
  - apply Hsame. apply (authenticate_same_ballots settings pg face_service FACE).
  - unfold authenticate_with_fingerprint. destruct fingerprint_service as [svc|].
    + apply Hsame. apply (authenticate_same_ballots settings pg svc FINGERPRINT).
    + cbn. eauto.
  - pose proof (post_cast_outcomes settings pg blockchain_service c cand ledger now s) as H. cbn zeta in H.
    destruct H as [(sd & tok & w & tx & blk & gas & _ & _ & _ & _ & _ & _ & _ & _ & Hw & _ & _ & Hs)
                  |[_ Hs]]; rewrite Hs; cbn; [|eauto].
    destruct (decide (sd_voter_id sd = voter_id)) as [<-|Hne].
    + rewrite lookup_alter_eq, Hw. cbn. eauto.
    + rewrite lookup_alter_ne by assumption. eauto.
Qed.

Lemma run_has_voted (rs : list Request) (s : State score) (voter_id : string) (voter : Voter.t) :
  voters (committed s) !! voter_id = Some voter ->
  Voter.has_voted voter = true ->
  exists voter',
    voters (committed (run settings pg blockchain_service face_service fingerprint_service s rs)) !! voter_id
      = Some voter' /\
    Voter.has_voted voter' = true.
Proof.
  revert s voter. induction rs as [|r rs IH]; intros s voter Hv Hhv; [cbn; eauto|].
  cbn. destruct (step_has_voted s r voter_id voter Hv Hhv) as (v' & Hv' & Hhv').
  exact (IH _ v' Hv' Hhv').
Qed.

(** A request leaves nothing pending. *)
Lemma step_closed (s : State score) (r : Request) :
  pending (step settings pg blockchain_service face_service fingerprint_service s r)
  = committed (step settings pg blockchain_service face_service fingerprint_service s r).
Proof.
  destruct r; cbn [step]; unfold request;
    match goal with |- context [?h (close s)] => destruct (h (close s)) end; reflexivity.
Qed.

(** A tracked session id stays tracked while the clock has not passed its
    expiry: [clean_expired_tokens] removes only entries with
    [exp_time < now]. *)
Lemma step_keeps_used (s : State score) (r : Request) (session_id : string) (exp_time : Z) :
  used_tokens s !! session_id = Some exp_time ->
  request_time r <= exp_time ->
  used_tokens (step settings pg blockchain_service face_service fingerprint_service s r) !! session_id
    = Some exp_time.
Proof.
  intros Hu Ht.
  destruct r as [v img ip sid now|v tpl ip sid now|c cand ledger now]; cbn [step].
  - unfold authenticate_with_face.
    pose proof (authenticate_same_ballots settings pg face_service FACE v img ip sid now s)
      as (_ & _ & ->). exact Hu.
  - unfold authenticate_with_fingerprint. destruct fingerprint_service as [svc|].
    + pose proof (authenticate_same_ballots settings pg svc FINGERPRINT v tpl ip sid now s)
        as (_ & _ & ->). exact Hu.
    + exact Hu.
  - pose proof (post_cast_outcomes settings pg blockchain_service c cand ledger now s) as H. cbn zeta in H.
    destruct H as [(sd & tok & w & tx & blk & gas & _ & _ & _ & _ & _ & _ & _ & Hfresh & _ & _ & _ & Hs)
                  |[_ Hs]]; rewrite Hs; cbn; [|exact Hu].
    apply map_lookup_filter_Some. cbn in Ht. split; [|cbn; lia].
    rewrite lookup_insert_ne; [exact Hu|]. intros E. rewrite E in Hfresh. congruence.
Qed.

Lemma run_keeps_used (rs : list Request) (s : State score) (session_id : string) (exp_time : Z) :
  used_tokens s !! session_id = Some exp_time ->
  Forall (fun r => request_time r <= exp_time) rs ->
  used_tokens (run settings pg blockchain_service face_service fingerprint_service s rs) !! session_id
    = Some exp_time.
Proof.
  revert s. induction rs as [|r rs IH]; intros s Hu Hall; [exact Hu|].
  inversion Hall as [|? ? Hr Hrs]; subst. cbn.
  apply IH; [|assumption]. apply step_keeps_used; assumption.
Qed.

(** The replay check of [cast_vote]. *)
Lemma cast_vote_replay (sd : SessionData) (candidate_id : string)
    (ledger : string -> Z -> Z -> LedgerReply) (now : Z) (s : State score) :
  is_Some (used_tokens s !! sd_session_id sd) ->
  cast_vote pg blockchain_service sd candidate_id ledger now s = (Raise replay_exception, s).
Proof.
  intros Hu. unfold cast_vote, select_candidate, get_used_tokens. unfold_M.
  rewrite bool_decide_eq_true_2 by assumption. reflexivity.
Qed.
End Replay.

Section SingleUse.
Context {score : Type}.

(** C2 (amended). After a cast with a token has succeeded, every later
    cast presenting that token is refused, whatever happened in between
    and whenever it is made: token validation raises 409 (the voter has
    voted) or 401 (the token has expired) before [cast_vote] runs, and
    nothing is written.  The session id is recorded in [used_tokens] with
    expiry ten minutes after the cast; as long as no request is later than
    that expiry the id stays recorded, and [cast_vote] refuses any session
    data carrying it with 403 "already been used". *)
Theorem accepted_session_is_refused_afterwards
    (settings : Settings) (pg : Postgres) (blockchain_service : BlockchainService)
    (face_service : BiometricService score)
    (fingerprint_service : option (BiometricService score))
    (s : State score) (tok : JWT) (candidate_id : string)
    (ledger : string -> Z -> Z -> LedgerReply) (t0 : Z) (resp : VoteResponse)
    (Haccepted : fst (request (post_cast settings pg blockchain_service (Bearer tok) candidate_id ledger t0) s)
                 = Return resp) :
  let s1 := snd (request (post_cast settings pg blockchain_service (Bearer tok) candidate_id ledger t0) s) in
  forall rs : list Request,
  let s2 := run settings pg blockchain_service face_service fingerprint_service s1 rs in
  (forall candidate_id' ledger' t,
     let r := request (post_cast settings pg blockchain_service (Bearer tok) candidate_id' ledger' t) s2 in
     (fst r = Raise (mkHTTP 409 "Voter has already cast vote") \/
      fst r = Raise credentials_exception) /\
     snd r = close s2) /\
  (exists session_id,
     Claims.session_id (payload tok) = Some session_id /\
     used_tokens s1 !! session_id = Some (t0 + minutes 10) /\
     (Forall (fun r => request_time r <= t0 + minutes 10) rs ->
      used_tokens s2 !! session_id = Some (t0 + minutes 10) /\
      forall sd candidate_id' ledger' t (s3 : State score),
        sd_session_id sd = session_id ->
        used_tokens s3 = used_tokens s2 ->
        cast_vote pg blockchain_service sd candidate_id' ledger' t s3 = (Raise replay_exception, s3))).
Proof.
  intros s1 rs s2.
  pose proof (post_cast_outcomes settings pg blockchain_service (Bearer tok) candidate_id ledger t0 s) as H.
  cbn zeta in H. fold s1 in H.
  destruct H as [(sd & tok' & voter & tx & blk & gas & [= <-] & Hg & Hvid & Hsid & Hel & Hexp
                  & Hr & Hfresh & Hv & Hhv & Hlo & Hs1)|[[e He] _]];
    [|rewrite He in Haccepted; discriminate].
  assert (Hv1 : voters (committed s1) !! sd_voter_id sd
                = Some (Voter.mark_voted t0 tx voter)).
  { rewrite Hs1. cbn. rewrite lookup_alter_eq, Hv. reflexivity. }
  assert (Hu1 : used_tokens s1 !! sd_session_id sd = Some (t0 + minutes 10)).
  { rewrite Hs1. cbn. apply map_lookup_filter_Some. rewrite lookup_insert_eq.
    split; [reflexivity|]. cbn. unfold minutes. lia. }
  split.
  - intros candidate_id' ledger' t r.
    destruct (run_has_voted settings pg blockchain_service face_service fingerprint_service rs s1
                (sd_voter_id sd) _ Hv1 eq_refl) as (voter2 & Hv2 & Hhv2). fold s2 in Hv2.
    pose proof (get_current_session_after_vote settings (Bearer tok) t0 t (close s) (close s2)
                  sd voter2 Hg Hv2 Hhv2) as Hgcs.
    pose proof (get_current_session_reads settings (Bearer tok) t (close s2)) as [Hsame _].
    subst r. unfold request, post_cast. unfold mbind, M_bind.
    destruct (get_current_session settings (Bearer tok) t (close s2)) as [res s'].
    cbn in Hsame, Hgcs. subst s'.
    destruct Hgcs as [-> | ->]; cbn; auto.
  - exists (sd_session_id sd). split; [exact Hsid|]. split; [exact Hu1|].
    intros Hall.
    pose proof (run_keeps_used settings pg blockchain_service face_service fingerprint_service rs s1 _ _ Hu1 Hall)
      as Hu2. fold s2 in Hu2.
    split; [exact Hu2|].
    intros sd' candidate_id' ledger' t s3 Hsd Hu3.
    apply cast_vote_replay. rewrite Hsd, Hu3, Hu2. eauto.
Qed.
End SingleUse.

(** * Quantisation *)

Lemma to_N_byte_of_N (n : N) : Byte.to_N (byte_of_N n) = (n mod 256)%N.
Proof.
  unfold byte_of_N. destruct (Byte.of_N (n mod 256)) as [b|] eqn:Hb.
  - apply Byte.to_of_N. exact Hb.
  - apply Byte.of_N_None_iff in Hb.
    pose proof (N.mod_upper_bound n 256). lia.
Qed.

Lemma byte_of_to_N (b : byte) : byte_of_N (Byte.to_N b) = b.
Proof.
  unfold byte_of_N. pose proof (Byte.to_N_bounded b).
  rewrite N.mod_small by lia. rewrite Byte.of_to_N. reflexivity.
Qed.

Lemma int8_roundtrip (z : Z) : -128 <= z <= 127 -> int8_of_byte (int8_to_byte z) = z.
Proof.
  intros Hz. unfold int8_of_byte, int8_to_byte. rewrite to_N_byte_of_N.
  assert (H0 : 0 <= z mod 256 < 256) by (apply Z.mod_pos_bound; lia).
  rewrite N.mod_small by lia. rewrite Z2N.id by lia.
  destruct (Z.ltb_spec (z mod 256) 128); Z.div_mod_to_equations; lia.
Qed.

Lemma wrap_int8_small (z : Z) : -128 <= z <= 127 -> wrap_int8 z = z.
Proof. intros Hz. unfold wrap_int8. Z.div_mod_to_equations. lia. Qed.

Section Trunc.
Local Open Scope R_scope.

(** Truncation moves a number towards zero by less than one. *)
Lemma trunc_spec (x : R) :
  Rabs (IZR (trunc x) - x) < 1 /\ Rabs (IZR (trunc x)) <= Rabs x.
Proof.
  unfold trunc. destruct (Rle_dec 0 x) as [Hx|Hx].
  - destruct (base_Int_part x) as [H1 H2].
    assert (0 <= IZR (Int_part x)).
    { apply IZR_le. apply Z.lt_succ_r. apply lt_IZR. rewrite succ_IZR. lra. }
    split; apply Rabs_def1 || idtac; try lra.
    rewrite !Rabs_right by lra. lra.
  - destruct (base_Int_part (- x)) as [H1 H2].
    assert (0 <= IZR (Int_part (- x))).
    { apply IZR_le. apply Z.lt_succ_r. apply lt_IZR. rewrite succ_IZR. lra. }
    rewrite opp_IZR.
    split; [apply Rabs_def1; lra|].
    rewrite Rabs_left1 by lra. rewrite (Rabs_left1 x) by lra. lra.
Qed.

Lemma abs_max_nonneg (a : list R) : 0 <= abs_max a.
Proof.
  induction a as [|x a IH]; cbn; [lra|].
  eapply Rle_trans; [exact IH|apply Rmax_r].
Qed.

Lemma abs_max_bound (a : list R) (i : nat) (x : R) :
  a !! i = Some x -> Rabs x <= abs_max a.
Proof.
  revert i. induction a as [|y a IH]; intros i Hi; [discriminate|].
  destruct i as [|i]; cbn in *.
  - injection Hi as ->. apply Rmax_l.
  - eapply Rle_trans; [exact (IH i Hi)|apply Rmax_r].
Qed.

(** One component: normalise by [scale], multiply by 127, cast to
    [int8], store as a byte, read back and divide by 127. *)
Lemma quantize_component (x scale : R) :
  Rabs x < scale ->
  let q := int8_of_byte (int8_to_byte (astype_int8 (x / scale * 127))) in
  (-127 < q < 127)%Z /\
  Rabs (IZR q / 127 - x / scale) < 1 / 127.
Proof.
  intros Hx q.
  assert (Hs : 0 < scale) by (pose proof (Rabs_pos x); lra).
  assert (Ht : Rabs (x / scale * 127) < 127).
  { unfold Rdiv. rewrite !Rabs_mult, (Rabs_right 127), (Rabs_right (/ scale)) by
      (try lra; left; apply Rinv_0_lt_compat; exact Hs).
    apply (Rmult_lt_compat_r (/ scale)) in Hx; [|apply Rinv_0_lt_compat; exact Hs].
    rewrite Rinv_r in Hx by lra. nra. }
  destruct (trunc_spec (x / scale * 127)) as [H1 H2].
  assert (Hz : (-127 < trunc (x / scale * 127) < 127)%Z).
  { assert (Rabs (IZR (trunc (x / scale * 127))) < 127) by lra.
    apply Rabs_def2 in H. split; apply lt_IZR; lra. }
  subst q. unfold astype_int8.
  rewrite wrap_int8_small by lia. rewrite int8_roundtrip by lia.
  split; [exact Hz|].
  replace (IZR (trunc (x / scale * 127)) / 127 - x / scale)
    with ((IZR (trunc (x / scale * 127)) - x / scale * 127) / 127) by (field; lra).
  unfold Rdiv at 1. rewrite Rabs_mult, (Rabs_right (/ 127)) by lra. lra.
Qed.
End Trunc.

Section RoundTrip.
Local Open Scope R_scope.

Lemma norm_nil : norm [] = 0.
Proof. unfold norm, dot. cbn. apply sqrt_0. Qed.

(** C8 (amended). For every finite vector [v] of non-zero norm, with
    [scale = max |v_i| + 1e-8]: quantising and dequantising succeeds,
    keeps the shape, and returns the normalised vector [v / scale] up to
    an error below 1/127 + 1e-6 in every component; multiplied back by
    [scale] the result is [v] up to [scale * (1/127 + 1e-6)].  (The result
    is not rescaled by [dequantize_embedding], so it approximates [v]
    itself only when [scale] is 1.  The truncation to an integer loses
    less than 1/127; the term 1e-6 covers the rounding of the [float32]
    and [float64] operations, under which the bound 1/127 alone can be
    met.) *)
Theorem dequantize_quantize_normalized (v : list R) (Hnorm : norm v <> 0) :
  let scale := abs_max v + 1 / 100000000 in
  exists embedding_bytes w,
    quantize_embedding v = Some embedding_bytes /\
    dequantize_embedding embedding_bytes (length v) = Some w /\
    length w = length v /\
    forall i x y, v !! i = Some x -> w !! i = Some y ->
      Rabs (y - x / scale) < 1 / 127 + 1 / 1000000 /\
      Rabs (scale * y - x) < scale * (1 / 127 + 1 / 1000000).
Proof.
  intros scale.
  assert (Hscale : 0 < scale) by (pose proof (abs_max_nonneg v); unfold scale; lra).
  exists (map int8_to_byte (map (fun x => astype_int8 (x * 127)) (map (fun x => x / scale) v))).
  exists (map (fun b => IZR (int8_of_byte b) / 127)
            (map int8_to_byte (map (fun x => astype_int8 (x * 127)) (map (fun x => x / scale) v)))).
  split.
  { destruct v as [|x0 rest]; [destruct Hnorm; apply norm_nil|reflexivity]. }
  split.
  { unfold dequantize_embedding.
    assert (Hlen : length (map int8_to_byte (map (fun x => astype_int8 (x * 127))
                      (map (fun x => x / scale) v))) = length v)
      by (rewrite 3 length_map; reflexivity).
    rewrite Hlen, Nat.eqb_refl. reflexivity. }
  split; [rewrite 4 length_map; reflexivity|].
  intros i x y Hx Hy.
  rewrite 4 list_lookup_fmap in Hy. rewrite Hx in Hy. cbn [fmap option_fmap option_map] in Hy.
  injection Hy as <-.
  assert (Hlt : Rabs x < scale).
  { pose proof (abs_max_bound v i x Hx). unfold scale. lra. }
  destruct (quantize_component x scale Hlt) as [_ Hq]. cbn zeta in Hq.
  split; [lra|].
  set (y := IZR _ / 127) in *.
  replace (scale * y - x) with (scale * (y - x / scale)) by (field; lra).
  rewrite Rabs_mult, (Rabs_right scale) by lra.
  apply Rmult_lt_compat_l; lra.
Qed.

(** The theorem at a vector of two components. *)
Lemma dequantize_quantize_normalized_example :
  norm [11; 7.622046947479248] <> 0 /\
  exists embedding_bytes w,
    quantize_embedding [11; 7.622046947479248] = Some embedding_bytes /\
    dequantize_embedding embedding_bytes 2 = Some w /\
    length w = 2%nat /\
    forall i x y, [11; 7.622046947479248] !! i = Some x -> w !! i = Some y ->
      Rabs (y - x / (abs_max [11; 7.622046947479248] + 1 / 100000000))
        < 1 / 127 + 1 / 1000000 /\
      Rabs ((abs_max [11; 7.622046947479248] + 1 / 100000000) * y - x)
        < (abs_max [11; 7.622046947479248] + 1 / 100000000) * (1 / 127 + 1 / 1000000).
Proof.
  assert (Hnorm : norm [11; 7.622046947479248] <> 0).
  { unfold norm, dot. cbn. intros H.
    assert (0 < sqrt (11 * 11 + (7.622046947479248 * 7.622046947479248 + 0)))
      by (apply sqrt_lt_R0; lra).
    lra. }
  split; [exact Hnorm|].
  exact (dequantize_quantize_normalized [11; 7.622046947479248] Hnorm).
Defined.

(** C8, as stated, fails: a dequantised component is never above 1, so for
    the one-component vector [2.0], whose normalisation scale is 2, the
    result is at distance at least 1 from 2.0 while the claimed bound is
    2/127. *)
Lemma dequantize_quantize_not_rescaled :
  exists embedding_bytes y,
    quantize_embedding [2] = Some embedding_bytes /\
    dequantize_embedding embedding_bytes 1 = Some [y] /\
    y <= 1 /\
    abs_max [2] = 2 /\
    Rabs (y - 2) > 1 / 127 * abs_max [2].
Proof.
  assert (Hmax : abs_max [2] = 2).
  { cbn. rewrite Rabs_right by lra. apply Rmax_left. lra. }
  assert (Htrunc : trunc (2 / (2 + 1 / 100000000) * 127) = 126%Z).
  { set (q := 2 / (2 + 1 / 100000000) * 127).
    assert (Hq : q * (2 + 1 / 100000000) = 254) by (unfold q; field; lra).
    assert (Hb : 126 <= q < 127) by lra.
    unfold trunc. destruct (Rle_dec 0 q) as [H|H]; [|lra].
    symmetry. apply Int_part_spec. lra. }
  exists ["~"%byte], (126 / 127).
  repeat split.
  - unfold quantize_embedding. rewrite Hmax. cbn [map]. unfold astype_int8.
    rewrite Htrunc. reflexivity.
  - lra.
  - exact Hmax.
  - rewrite Hmax. rewrite Rabs_left by lra. lra.
Qed.
End RoundTrip.

(** * Matching *)

Section Cosine.
Local Open Scope R_scope.

Lemma Rgeb_true (x y : R) : Rgeb x y = true <-> y <= x.
Proof. unfold Rgeb. destruct (Rle_dec y x); split; auto; discriminate. Qed.

Lemma Rgeb_false (x y : R) : Rgeb x y = false <-> x < y.
Proof. unfold Rgeb. destruct (Rle_dec y x); split; auto; try discriminate; lra. Qed.

Lemma cosine_range (a b : list R) : 0 <= _cosine_similarity a b <= 1.
Proof.
  unfold _cosine_similarity.
  destruct (negb _); [lra|].
  destruct (Req_EM_T (norm a) 0); [lra|].
  destruct (Req_EM_T (norm b) 0); [lra|].
  split; [apply Rmax_l|].
  apply Rmax_lub; [lra|apply Rmin_l].
Qed.

Lemma cosine_shape_mismatch (a b : list R) :
  length a <> length b -> _cosine_similarity a b = 0.
Proof.
  intros H. unfold _cosine_similarity.
  destruct (Nat.eqb_spec (length a) (length b)); [contradiction|reflexivity].
Qed.

Lemma cosine_zero_norm (a b : list R) :
  norm a = 0 \/ norm b = 0 -> _cosine_similarity a b = 0.
Proof.
  intros H. unfold _cosine_similarity.
  destruct (negb _); [reflexivity|].
  destruct (Req_EM_T (norm a) 0); [reflexivity|].
  destruct (Req_EM_T (norm b) 0); [reflexivity|].
  tauto.
Qed.
End Cosine.

Section Compare.
Local Open Scope R_scope.

(** C9 (amended). For every threshold in (0,1] (the claim says [0,1]),
    [compare_embeddings] returns a score in [0,1] and
    [matched = (score >= threshold)]; when the stored template has not
    the shape of the live vector, or one of the two vectors has norm
    zero, it returns score 0 and [matched = False]. *)
Theorem compare_embeddings_spec
    (settings : Settings) (threshold : R) (live_embedding : list R)
    (stored_hash stored_encrypted salt : string)
    (Hthreshold : 0 < threshold <= 1) :
  let r := face_compare_embeddings settings threshold live_embedding
             stored_hash stored_encrypted salt in
  0 <= snd r <= 1 /\
  (fst r = true <-> threshold <= snd r) /\
  (forall decrypted_bytes,
     decrypt_biometric settings stored_encrypted = inr decrypted_bytes ->
     length decrypted_bytes <> length live_embedding ->
     r = (false, 0)) /\
  (forall decrypted_bytes stored_embedding,
     decrypt_biometric settings stored_encrypted = inr decrypted_bytes ->
     dequantize_embedding decrypted_bytes (length live_embedding) = Some stored_embedding ->
     (length live_embedding <> length stored_embedding \/
      norm live_embedding = 0 \/ norm stored_embedding = 0) ->
     r = (false, 0)) /\
  (forall a b, 0 <= _cosine_similarity a b <= 1) /\
  (forall a b, length a <> length b -> _cosine_similarity a b = 0) /\
  (forall a b, norm a = 0 \/ norm b = 0 -> _cosine_similarity a b = 0).
Proof.
  intros r. subst r. unfold face_compare_embeddings.
  assert (Hzero : Rgeb 0 threshold = false) by (apply Rgeb_false; lra).
  split; [|split; [|split; [|split; [|split; [|split]]]]].
  - destruct (decrypt_biometric _ _); cbn; [lra|].
    destruct (dequantize_embedding _ _); cbn; [apply cosine_range|lra].
  - destruct (decrypt_biometric _ _); cbn; [split; [discriminate|lra]|].
    destruct (dequantize_embedding _ _); cbn; [apply Rgeb_true|split; [discriminate|lra]].
  - intros bs -> Hlen. unfold dequantize_embedding.
    destruct (Nat.eqb_spec (length bs) (length live_embedding)); [contradiction|reflexivity].
  - intros bs stored -> -> Hcase. cbn zeta.
    assert (Hcos : _cosine_similarity live_embedding stored = 0).
    { destruct Hcase as [H|H]; [apply cosine_shape_mismatch|apply cosine_zero_norm]; exact H. }
    rewrite Hcos, Hzero. reflexivity.
  - apply cosine_range.
  - apply cosine_shape_mismatch.
  - apply cosine_zero_norm.
Qed.
End Compare.

Section CompareAtZero.
Local Open Scope R_scope.

(** The stored template of one component 127 (1.0 after dequantising),
    encrypted under the default key with the nonce "0123456789ab". *)
Definition unit_template : string := "MDEyMzQ1Njc4OWFig/29SPj3Za2mVTXAawxmZUM=".

Lemma unit_template_decrypts :
  decrypt_biometric default_settings unit_template = inr [byte_of_N 127].
Proof. vm_compute. reflexivity. Qed.

(** C9, as stated, fails at threshold 0: a live vector of norm zero gets
    score 0 and [matched = True]. *)
Lemma compare_embeddings_zero_threshold :
  norm [0] = 0 /\
  face_compare_embeddings default_settings 0 [0] "" unit_template "" = (true, 0).
Proof.
  assert (Hn : norm [0] = 0).
  { unfold norm, dot. cbn. replace (0 * 0 + 0) with 0 by ring. apply sqrt_0. }
  split; [exact Hn|].
  unfold face_compare_embeddings. rewrite unit_template_decrypts.
  cbn [length dequantize_embedding Nat.eqb negb].
  rewrite (cosine_zero_norm [0] _ (or_introl Hn)).
  unfold Rgeb. destruct (Rle_dec 0 0) as [_|H]; [reflexivity|exfalso; apply H; lra].
Qed.

(** An instance of the specification at the default threshold 0.68. *)
Lemma compare_embeddings_spec_default :
  0 <= snd (face_compare_embeddings default_settings (68 / 100) [0] "" unit_template "") <= 1.
Proof.
  assert (Hthreshold : 0 < 68 / 100 <= 1) by lra.
  exact (proj1 (compare_embeddings_spec default_settings (68 / 100) [0] "" unit_template ""
                  Hthreshold)).
Defined.
End CompareAtZero.

(** * A polling station: concrete inputs *)

(** The ids of the rows and of the sessions are uuids in their usual
    spelling. *)
Definition alice_id : string := "a11ce000-0000-4000-8000-000000000001".
Definition bob_id : string := "b0b00000-0000-4000-8000-000000000002".
Definition north : string := "c0000000-0000-4000-8000-000000000001".
Definition election_0 : string := "e0000000-0000-4000-8000-000000000000".
Definition election_1 : string := "e0000000-0000-4000-8000-000000000001".
Definition candidate_1 : string := "ca000000-0000-4000-8000-000000000001".
Definition session_1 : string := "5e000000-0000-4000-8000-000000000001".
Definition session_2 : string := "5e000000-0000-4000-8000-000000000002".
Definition session_3 : string := "5e000000-0000-4000-8000-000000000003".
Definition session_4 : string := "5e000000-0000-4000-8000-000000000004".
Definition session_5 : string := "5e000000-0000-4000-8000-000000000005".
Definition session_9 : string := "5e000000-0000-4000-8000-000000000009".

(** The texts the examples send, as PostgreSQL reads them: an address is
    a dotted quad and a uuid is in the spelling 8-4-4-4-12.  (PostgreSQL
    reads other spellings too; the examples use none of them, and it reads
    neither [unknown] as an address nor [cand-9] as a uuid.) *)
Definition is_digit (c : Ascii.ascii) : bool :=
  (48 <=? Z.of_nat (Ascii.nat_of_ascii c)) && (Z.of_nat (Ascii.nat_of_ascii c) <=? 57).

Definition is_hex_digit (c : Ascii.ascii) : bool :=
  let n := Z.of_nat (Ascii.nat_of_ascii c) in
  is_digit c || ((97 <=? n) && (n <=? 102)) || ((65 <=? n) && (n <=? 70)).

Fixpoint split_dot (cur : list Ascii.ascii) (s : list Ascii.ascii) : list (list Ascii.ascii) :=
  match s with
  | [] => [cur]
  | c :: s' => if (Z.of_nat (Ascii.nat_of_ascii c) =? 46) then cur :: split_dot [] s'
               else split_dot (cur ++ [c]) s'
  end.

Definition octet (cs : list Ascii.ascii) : bool :=
  (1 <=? Z.of_nat (length cs)) && (Z.of_nat (length cs) <=? 3) && forallb is_digit cs
  && (fold_left (fun n c => 10 * n + (Z.of_nat (Ascii.nat_of_ascii c) - 48)) cs 0 <=? 255).

Definition dotted_quad (s : string) : bool :=
  let parts := split_dot [] (String.list_ascii_of_string s) in
  (Z.of_nat (length parts) =? 4) && forallb octet parts.

Definition hyphenated_uuid (s : string) : bool :=
  let cs := String.list_ascii_of_string s in
  (Z.of_nat (length cs) =? 36)
  && forallb (fun ic => if bool_decide (ic.1 ∈ [8; 13; 18; 23]%nat)
                        then (Z.of_nat (Ascii.nat_of_ascii ic.2) =? 45) else is_hex_digit ic.2)
             (imap pair cs).

Definition station_pg : Postgres := {| inet_in := dotted_quad; uuid_in := hyphenated_uuid |}.

(** The ledger service with its account and the VotingBooth contract loaded. *)
Definition station_chain : BlockchainService := {|
  default_account := Some "0x90F8bf6A479f320ead074411a4B0e7944Ea8c9C1";
  voting_booth := Some "0xCfEB869F69431e42cdB54A4F4f105C19C080A601"
|}.

(** A test double for the biometric service: a sample is accepted when it
    is the stored template; the score is 1 or 0. *)
Definition stub_service : BiometricService Z := {|
  image := string;
  embedding := string;
  decode_image := fun s => inr s;
  get_embedding := fun s => inr s;
  compare_embeddings := fun live _ stored _ =>
    if String.eqb live stored then (true, 1) else (false, 0);
  fmt4 := fun z => pretty z +:+ ".0000"
|}.

Definition alice : Voter.t := {|
  Voter.id_ := alice_id;
  Voter.full_name := "Alice";
  Voter.constituency_id := north;
  Voter.face_embedding_hash := "hash-a";
  Voter.fingerprint_template_hash := "fhash-a";
  Voter.biometric_salt := "salt-a";
  Voter.encrypted_face_embedding := "face-a";
  Voter.encrypted_fingerprint_template := "finger-a";
  Voter.blockchain_voter_id := "0xa11ce0";
  Voter.has_voted := false;
  Voter.voted_at := None;
  Voter.vote_tx_hash := None;
  Voter.failed_auth_count := 0;
  Voter.locked_out := false;
  Voter.lockout_at := None
|}.

Definition bob : Voter.t := {|
  Voter.id_ := bob_id;
  Voter.full_name := "Bob";
  Voter.constituency_id := north;
  Voter.face_embedding_hash := "hash-b";
  Voter.fingerprint_template_hash := "fhash-b";
  Voter.biometric_salt := "salt-b";
  Voter.encrypted_face_embedding := "face-b";
  Voter.encrypted_fingerprint_template := "finger-b";
  Voter.blockchain_voter_id := "0xb0b0";
  Voter.has_voted := false;
  Voter.voted_at := None;
  Voter.vote_tx_hash := None;
  Voter.failed_auth_count := 0;
  Voter.locked_out := false;
  Voter.lockout_at := None
|}.

Definition station_db : DB Z := {|
  voters := {[ "V1" := alice; "V2" := bob ]};
  constituencies := {[ north := Constituency.mk "North" 7 ]};
  elections := [Election.mk election_1 "active" 10; Election.mk election_0 "ended" 5];
  candidates := {[ candidate_1 := Candidate.mk election_1 north 1 true ]};
  auth_attempts := [];
  vote_submissions := [];
  blockchain_txns := []
|}.

Definition station : State Z := mkState station_db station_db ∅.

Definition ledger_ok (tx : string) : string -> Z -> Z -> LedgerReply :=
  fun _ _ _ => Receipt tx 12 21000.
Definition ledger_down : string -> Z -> Z -> LedgerReply :=
  fun _ _ _ => BlockchainError "Failed to submit vote: timeout".

(** The tokens issued to Alice and Bob at time 1000. *)
Definition alice_token : Credentials :=
  create_voting_session_token default_settings "V1" election_1 north session_1 1000.
Definition bob_token : Credentials :=
  create_voting_session_token default_settings "V2" election_1 north session_2 1000.

Definition alice_session : SessionData := mkSessionData "V1" election_1 north session_1.

(** Alice casts her vote at time 1010. *)
Definition after_alice : State Z :=
  step default_settings station_pg station_chain stub_service None station
    (CastVote alice_token candidate_1 (ledger_ok "0xabc") 1010).

(** Bob authenticates again and casts his vote at time 2000, more than ten
    minutes later. *)
Definition bob_late_token : Credentials :=
  create_voting_session_token default_settings "V2" election_1 north session_3 1990.
Definition after_bob : State Z :=
  step default_settings station_pg station_chain stub_service None after_alice
    (CastVote bob_late_token candidate_1 (ledger_ok "0xdef") 2000).

(** C1, as stated, fails: after her vote in the active election Alice's
    [has_voted] is true, and for the pair of Alice and the other election
    of the store there is no submission row.  The flag belongs to the
    voter, not to the pair. *)
Lemma has_voted_without_submission_for_the_pair :
  Voter.has_voted <$> voters (committed after_alice) !! "V1" = Some true /\
  Election.id_ <$> elections (committed after_alice) = [election_1; election_0] /\
  length (submissions_for (committed after_alice) alice_id election_1) = 1%nat /\
  length (submissions_for (committed after_alice) alice_id election_0) = 0%nat.
Proof. repeat split; vm_compute; reflexivity. Qed.

(** C2, as stated, fails: the cast at 1010 succeeds; presenting the same
    token again at 1020, inside its validity window, is refused, but by
    token validation with 409 "Voter has already cast vote" and not as a
    replayed session (403).  After Bob's cast at 2000 has cleaned the
    expired entry, [cast_vote] itself, given Alice's session data, no longer
    finds the session id and refuses with 409 as well. *)
Lemma replay_is_refused_as_already_voted :
  fst (request (post_cast default_settings station_pg station_chain alice_token candidate_1
                  (ledger_ok "0xabc") 1010) station)
    = Return (mkVoteResponse "0xabc" 12 1010) /\
  fst (request (post_cast default_settings station_pg station_chain alice_token candidate_1
                  (ledger_ok "0xabd") 1020) after_alice)
    = Raise (mkHTTP 409 "Voter has already cast vote") /\
  mkHTTP 409 "Voter has already cast vote" <> replay_exception /\
  used_tokens after_alice !! session_1 = Some 1610 /\
  used_tokens after_bob !! session_1 = None /\
  fst (cast_vote station_pg station_chain alice_session candidate_1 (ledger_ok "0xabd") 2010
         after_bob)
    = Raise (mkHTTP 409 "You have already cast your vote.").
Proof.
  repeat split; try (vm_compute; reflexivity). discriminate.
Qed.

(** Three failed matches for Alice at times 100, 110, 120. *)
Definition three_failures : State Z :=
  run default_settings station_pg station_chain stub_service None station
    [AuthenticateFace "V1" "face-x" "10.0.0.1" session_1 100;
     AuthenticateFace "V1" "face-y" "10.0.0.1" session_2 110;
     AuthenticateFace "V1" "face-z" "10.0.0.1" session_3 120].

(** C5, as stated, fails: after the third failure the counter is 3, but
    [locked_out] is still false and no lockout timestamp is recorded. *)
Lemma third_failure_does_not_lock :
  MAX_AUTH_ATTEMPTS default_settings = 3 /\
  map AuthAttempt.outcome (auth_attempts (committed three_failures))
    = [FAILURE; FAILURE; FAILURE] /\
  Voter.failed_auth_count <$> voters (committed three_failures) !! "V1" = Some 3 /\
  Voter.locked_out <$> voters (committed three_failures) !! "V1" = Some false /\
  Voter.lockout_at <$> voters (committed three_failures) !! "V1" = Some None.
Proof. repeat split; vm_compute; reflexivity. Qed.

(** The fourth attempt, at 130, locks the account. *)
Definition locked : State Z :=
  step default_settings station_pg station_chain stub_service None three_failures
    (AuthenticateFace "V1" "face-a" "10.0.0.1" session_4 130).

(** Alice's row while she is locked out (since 130, after three failures). *)
Definition alice_locked : Voter.t := Voter.lock 130 (Voter.set_failed_auth_count 3 alice).

Lemma alice_is_locked : voters (committed locked) !! "V1" = Some alice_locked.
Proof. vm_compute. reflexivity. Qed.

(** * The theorems at the polling station *)

Lemma station_voters (k : string) (v : Voter.t) :
  voters station_db !! k = Some v -> (k = "V1" /\ v = alice) \/ (k = "V2" /\ v = bob).
Proof.
  cbn. intros H. apply lookup_insert_Some in H as [[<- <-]|[_ H]]; [auto|].
  apply lookup_singleton_Some in H as [<- <-]. auto.
Defined.

Lemma station_consistent : votes_consistent station_db.
Proof.
  intros k v H. destruct (station_voters k v H) as [[-> ->]|[-> ->]]; reflexivity.
Defined.

Lemma station_keys : primary_key_unique station_db.
Proof.
  intros k1 k2 v1 v2 H1 H2.
  destruct (station_voters k1 v1 H1) as [[-> ->]|[-> ->]],
           (station_voters k2 v2 H2) as [[-> ->]|[-> ->]];
    cbn; intros Hid; first [reflexivity|vm_compute in Hid; discriminate].
Defined.

(** After Alice's and Bob's casts, Alice's row has exactly one submission. *)
Lemma has_voted_iff_one_submission_at_station :
  length (submissions_of (committed after_bob) alice_id) = 1%nat.
Proof.
  pose proof (has_voted_iff_one_submission default_settings station_pg station_chain
                stub_service None station
                [CastVote alice_token candidate_1 (ledger_ok "0xabc") 1010;
                 CastVote bob_late_token candidate_1 (ledger_ok "0xdef") 2000]
                station_consistent station_keys) as H.
  cbn zeta in H. destruct H as [H _].
  destruct (H "V1" (Voter.mark_voted 1010 "0xabc" alice)) as [[H1 _] _].
  - vm_compute. reflexivity.
  - apply H1. reflexivity.
Defined.

Lemma accepted_session_is_refused_at_station :
  used_tokens after_alice !! session_1 = Some (1010 + minutes 10).
Proof.
  destruct (accepted_session_is_refused_afterwards default_settings station_pg station_chain
              stub_service None station
              {| alg := "HS256";
                 payload := {| Claims.voter_id := Some "V1";
                               Claims.election_id := Some election_1;
                               Claims.constituency_id := Some north;
                               Claims.session_id := Some session_1;
                               Claims.exp := Some 1300; Claims.iat := Some 1000;
                               Claims.type := Some "voting_session" |};
                 signed_with := "change-this-voting-session-secret" |}
              candidate_1 (ledger_ok "0xabc") 1010 (mkVoteResponse "0xabc" 12 1010)
              eq_refl []) as [_ (sid & Hsid & Hused & _)].
  injection Hsid as <-. exact Hused.
Defined.

Lemma cast_vote_ledger_failure_at_station :
  cast_vote station_pg station_chain alice_session candidate_1 ledger_down 1010 station
  = (Raise (mkHTTP 503 "Blockchain error: Failed to submit vote: timeout"), station).
Proof.
  apply (cast_vote_ledger_failure station_pg station_chain alice_session candidate_1
           ledger_down 1010 station
           alice (Candidate.mk election_1 north 1 true) (Constituency.mk "North" 7)
           "Failed to submit vote: timeout");
    reflexivity.
Defined.

Lemma lock_is_set_on_the_fourth_attempt_at_station :
  voters (committed three_failures) !! "V1" = Some (Voter.set_failed_auth_count 3 alice) /\
  map AuthAttempt.outcome (auth_attempts (committed three_failures))
    = [FAILURE; FAILURE; FAILURE].
Proof.
  assert (Hrej : forall img, String.eqb img "face-a" = false ->
            rejects stub_service FACE alice img 0).
  { intros img Himg. exists img, img. cbn. rewrite Himg. auto. }
  assert (Hv : voters (committed station) !! "V1" = Some alice) by (vm_compute; reflexivity).
  assert (Hc : constituencies (committed station) !! Voter.constituency_id alice
               = Some (Constituency.mk "North" 7)) by (vm_compute; reflexivity).
  pose proof (lock_is_set_on_the_attempt_after_the_third_failure default_settings station_pg
                stub_service station_chain
                None station "V1" alice (Constituency.mk "North" 7)
                "face-x" "face-y" "face-z" "10.0.0.1" session_1 session_2 session_3
                0 0 0 100 110 120
                eq_refl Hv Hc eq_refl eq_refl eq_refl
                (Hrej "face-x" eq_refl) (Hrej "face-y" eq_refl) (Hrej "face-z" eq_refl)) as H.
  cbn zeta in H. destruct H as (Hlog & H & _). split; [exact H|].
  fold three_failures in Hlog. rewrite Hlog. reflexivity.
Defined.

(** At 1930, thirty minutes after the lock of 130, Alice presents the
    sample that matches her template. *)
Lemma attempt_after_lockout_expiry_fails_at_station :
  compare_embeddings stub_service "face-a" "hash-a" "face-a" "salt-a" = (true, 1) /\
  130 + minutes (LOCKOUT_DURATION_MINUTES default_settings) <= 1930 /\
  (let r := request (authenticate default_settings station_pg stub_service FACE
                       "V1" "face-a" "10.0.0.1" session_5 1930) locked in
   fst r = Raise (mkHTTP 500 "Authentication failed. Please try again.") /\
   voters (committed (snd r)) !! "V1" = Some alice_locked /\
   auth_attempts (committed (snd r)) = auth_attempts (committed locked)).
Proof.
  assert (Hc : constituencies (committed locked) !! Voter.constituency_id alice_locked
               = Some (Constituency.mk "North" 7)) by (vm_compute; reflexivity).
  assert (He : 130 + minutes (LOCKOUT_DURATION_MINUTES default_settings) <= 1930)
    by (vm_compute; discriminate).
  assert (Hm : accepts stub_service FACE alice_locked "face-a" 1).
  { exists "face-a", "face-a". auto. }
  destruct (attempt_after_lockout_expiry_fails default_settings station_pg stub_service FACE
              "V1" "face-a" "10.0.0.1" session_5 1930 130 locked alice_locked
              (Constituency.mk "North" 7) 1
              alice_is_locked Hc eq_refl eq_refl eq_refl He Hm) as (H1 & _ & H3 & H4 & _).
  split; [reflexivity|]. split; [exact He|]. cbn zeta. auto.
Defined.

(** A well-formed voting-session token signed with the admin secret. *)
Definition admin_signed : JWT := {|
  alg := "HS256";
  payload := {| Claims.voter_id := Some "V1"; Claims.election_id := Some election_1;
                Claims.constituency_id := Some north; Claims.session_id := Some session_9;
                Claims.exp := Some 1300; Claims.iat := Some 1000;
                Claims.type := Some "voting_session" |};
  signed_with := JWT_SECRET default_settings
|}.

Lemma get_current_session_refuses_admin_secret :
  fst (get_current_session default_settings (Bearer admin_signed) 1010 station)
  = Raise credentials_exception.
Proof.
  assert (Hne : JWT_SECRET default_settings <> VOTING_SESSION_SECRET default_settings)
    by discriminate.
  destruct (get_current_session_validates default_settings (Bearer admin_signed) 1010 station Hne)
    as (_ & _ & H & _).
  apply (H admin_signed); reflexivity.
Defined.

(** * The embedded primitives on published test vectors *)

Section TestVectors.
Local Open Scope N_scope.

(** FIPS 197, Appendix C: the example vectors of AES-128, AES-192 and
    AES-256. *)
Example aes_fips197_appendix_c :
  be_to_N (aes_encrypt_block (map N.of_nat (seq 0 16))
             (N_to_be 16 0x00112233445566778899aabbccddeeff))
    = 0x69c4e0d86a7b0430d8cdb78070b4c55a /\
  be_to_N (aes_encrypt_block (map N.of_nat (seq 0 24))
             (N_to_be 16 0x00112233445566778899aabbccddeeff))
    = 0xdda97ca4864cdfe06eaf70a0ec0d7191 /\
  be_to_N (aes_encrypt_block (map N.of_nat (seq 0 32))
             (N_to_be 16 0x00112233445566778899aabbccddeeff))
    = 0x8ea2b7ca516745bfeafc49904b496089.
Proof. repeat split; vm_compute; reflexivity. Qed.

(** The GCM specification (McGrew and Viega), test cases 13, 14 and 15:
    AES-256 with a 96-bit IV and no associated data. *)
Example gcm_test_cases_13_14_15 :
  be_to_N (gcm_encrypt (repeat 0 32) (repeat 0 12) [] [])
    = 0x530f8afbc74536b9a963b4f1c4cb738b /\
  be_to_N (gcm_encrypt (repeat 0 32) (repeat 0 12) [] (repeat 0 16))
    = 0xcea7403d4d606b6e074ec5d3baf39d18d0d1c8a799996bf0265b98b5d48ab919 /\
  be_to_N (gcm_encrypt
             (N_to_be 32 0xfeffe9928665731c6d6a8f9467308308feffe9928665731c6d6a8f9467308308)
             (N_to_be 12 0xcafebabefacedbaddecaf888) []
             (N_to_be 64 0xd9313225f88406e5a55909c5aff5269a86a7a9531534f7da2e4c303d8a318a721c3c0c95956809532fcf0e2449a6b525b16aedf5aa0de657ba637b391aafd255))
    = 0x522dc1f099567d07f47f37a32a84427d643a8cdcbfe5c0c97598a2bd2555d1aa8cb08e48590dbb3da7b08b1056828838c5f61e6393ba7a0abcc9f662898015adb094dac5d93471bdec1a502270e3cc6c.
Proof. repeat split; vm_compute; reflexivity. Qed.

(** RFC 4648, section 10, and what [binascii.a2b_base64] does with
    characters outside the alphabet and with missing padding. *)
Example base64_rfc4648 :
  map (fun s => decode_utf8 (b64encode (encode_utf8 s)))
      ["" ; "f"; "fo"; "foo"; "foob"; "fooba"; "foobar"]
    = ["" ; "Zg=="; "Zm8="; "Zm9v"; "Zm9vYg=="; "Zm9vYmE="; "Zm9vYmFy"] /\
  map (fun s => decode_utf8 <$> b64decode (encode_utf8 s))
      ["Zm9vYmE="; "Zm9v YmE="; "Zm9vYmE"; "Zg=="; "Zg="; "Z"]
    = [Some "fooba"; Some "fooba"; None; Some "f"; None; None].
Proof. split; vm_compute; reflexivity. Qed.

End TestVectors.

(** * Encrypted templates: bytes and base64 *)

Section Base64.
Local Open Scope N_scope.

Lemma bytes_to_N_bounded (bs : list byte) : Forall (fun n => n < 256) (bytes_to_N bs).
Proof.
  unfold bytes_to_N. apply Forall_fmap, Forall_forall. intros b _. cbn.
  pose proof (Byte.to_N_bounded b). lia.
Qed.

Lemma bytes_of_to_N (bs : list byte) : bytes_of_N (bytes_to_N bs) = bs.
Proof.
  unfold bytes_of_N, bytes_to_N. induction bs as [|b bs IH]; cbn; [reflexivity|].
  rewrite byte_of_to_N. f_equal. exact IH.
Qed.

Lemma bytes_to_of_N (ns : list N) :
  Forall (fun n => n < 256) ns -> bytes_to_N (bytes_of_N ns) = ns.
Proof.
  unfold bytes_of_N, bytes_to_N. induction 1 as [|n ns Hn _ IH]; cbn; [reflexivity|].
  rewrite to_N_byte_of_N, N.mod_small by exact Hn. f_equal. exact IH.
Qed.

Lemma encode_decode_utf8 (bs : list byte) : encode_utf8 (decode_utf8 bs) = bs.
Proof. apply String.list_byte_of_string_of_list_byte. Qed.

(** A property that holds on the first [n] numbers, checked by running it. *)
Lemma forall_below (P : N -> bool) (n : nat) :
  forallb P (map N.of_nat (seq 0 n)) = true -> forall a, a < N.of_nat n -> P a = true.
Proof.
  intros Hall a Ha. rewrite forallb_forall in Hall. apply Hall.
  apply in_map_iff. exists (N.to_nat a). split; [lia|].
  apply in_seq. lia.
Qed.

Lemma b64_value_char (x : N) :
  x < 64 -> b64_value (b64_char x) = Some x /\ b64_char x <> BASE64_PAD /\ b64_char x < 256.
Proof.
  intros Hx.
  pose proof (forall_below
    (fun x => match b64_value (b64_char x) with
              | Some y => (y =? x) && negb (b64_char x =? BASE64_PAD) && (b64_char x <? 256)
              | None => false
              end) 64 ltac:(vm_compute; reflexivity) x Hx) as H.
  cbn beta in H. destruct (b64_value (b64_char x)) as [y|]; [|discriminate].
  apply andb_prop in H as [H H3]. apply andb_prop in H as [H1 H2].
  apply N.eqb_eq in H1. apply negb_true_iff, N.eqb_neq in H2. apply N.ltb_lt in H3.
  subst y. auto.
Qed.

(** The decoder on a character of the alphabet, by position in the quad. *)
Lemma a2b_alphabet (x : N) (cs : list N) (quad_pos leftchar pads : N) (out : list N) :
  x < 64 ->
  a2b_base64 (b64_char x :: cs) quad_pos leftchar pads out =
    if quad_pos =? 0 then a2b_base64 cs 1 x 0 out
    else if quad_pos =? 1 then
      a2b_base64 cs 2 (N.land x 15) 0 (out ++ [N.lor (N.shiftl leftchar 2) (N.shiftr x 4)])
    else if quad_pos =? 2 then
      a2b_base64 cs 3 (N.land x 3) 0 (out ++ [N.lor (N.shiftl leftchar 4) (N.shiftr x 2)])
    else a2b_base64 cs 0 0 0 (out ++ [N.lor (N.shiftl leftchar 6) x]).
Proof.
  intros Hx. destruct (b64_value_char x Hx) as (Hv & Hpad & _).
  cbn [a2b_base64]. apply N.eqb_neq in Hpad. rewrite Hpad, Hv. reflexivity.
Qed.

Lemma first_sextet (a : N) : a < 256 -> N.shiftr a 2 < 64.
Proof.
  intros Ha.
  pose proof (forall_below (fun a => N.shiftr a 2 <? 64) 256
                ltac:(vm_compute; reflexivity) a Ha) as H.
  apply N.ltb_lt in H. exact H.
Qed.

Lemma second_sextet (a b : N) :
  a < 256 -> b < 256 ->
  let v := N.lor (N.shiftl (N.land a 3) 4) (N.shiftr b 4) in
  v < 64 /\ N.lor (N.shiftl (N.shiftr a 2) 2) (N.shiftr v 4) = a /\ N.land v 15 = N.shiftr b 4.
Proof.
  intros Ha Hb v.
  pose proof (forall_below
    (fun a => forallb (fun b =>
       let v := N.lor (N.shiftl (N.land a 3) 4) (N.shiftr b 4) in
       (v <? 64) && (N.lor (N.shiftl (N.shiftr a 2) 2) (N.shiftr v 4) =? a)
       && (N.land v 15 =? N.shiftr b 4)) (map N.of_nat (seq 0 256))) 256
    ltac:(vm_compute; reflexivity) a Ha) as H.
  cbn beta in H. pose proof (forall_below _ 256 H b Hb) as H'. cbn beta zeta in H'.
  apply andb_prop in H' as [H' H3]. apply andb_prop in H' as [H1 H2].
  apply N.ltb_lt in H1. apply N.eqb_eq in H2, H3. auto.
Qed.

Lemma third_sextet (b c : N) :
  b < 256 -> c < 256 ->
  let v := N.lor (N.shiftl (N.land b 15) 2) (N.shiftr c 6) in
  v < 64 /\ N.lor (N.shiftl (N.shiftr b 4) 4) (N.shiftr v 2) = b /\ N.land v 3 = N.shiftr c 6.
Proof.
  intros Hb Hc v.
  pose proof (forall_below
    (fun b => forallb (fun c =>
       let v := N.lor (N.shiftl (N.land b 15) 2) (N.shiftr c 6) in
       (v <? 64) && (N.lor (N.shiftl (N.shiftr b 4) 4) (N.shiftr v 2) =? b)
       && (N.land v 3 =? N.shiftr c 6)) (map N.of_nat (seq 0 256))) 256
    ltac:(vm_compute; reflexivity) b Hb) as H.
  cbn beta in H. pose proof (forall_below _ 256 H c Hc) as H'. cbn beta zeta in H'.
  apply andb_prop in H' as [H' H3]. apply andb_prop in H' as [H1 H2].
  apply N.ltb_lt in H1. apply N.eqb_eq in H2, H3. auto.
Qed.

Lemma fourth_sextet (c : N) :
  c < 256 -> N.land c 63 < 64 /\ N.lor (N.shiftl (N.shiftr c 6) 6) (N.land c 63) = c.
Proof.
  intros Hc.
  pose proof (forall_below
    (fun c => (N.land c 63 <? 64) && (N.lor (N.shiftl (N.shiftr c 6) 6) (N.land c 63) =? c))
    256 ltac:(vm_compute; reflexivity) c Hc) as H.
  cbn beta in H. apply andb_prop in H as [H1 H2].
  apply N.ltb_lt in H1. apply N.eqb_eq in H2. auto.
Qed.

(** Encoding produces characters, and decoding them gives the bytes back,
    whatever was left in the decoder's registers. *)
Lemma a2b_b2a_base64 (n : nat) :
  forall bs, (length bs <= n)%nat -> Forall (fun n => n < 256) bs ->
  Forall (fun n => n < 256) (b2a_base64 bs) /\
  forall leftchar pads out,
    a2b_base64 (b2a_base64 bs) 0 leftchar pads out = Some (out ++ bs).
Proof.
  induction n as [|n IH]; intros bs Hlen Hbs.
  { destruct bs; [|cbn in Hlen; lia]. split; [constructor|].
    intros. cbn. rewrite app_nil_r. reflexivity. }
  destruct bs as [|a [|b [|c rest]]].
  - split; [constructor|]. intros. cbn. rewrite app_nil_r. reflexivity.
  - apply Forall_cons in Hbs as [Ha _].
    pose proof (first_sextet a Ha) as H1.
    destruct (second_sextet a 0 Ha ltac:(lia)) as (H2 & Ha' & _).
    change (N.shiftr 0 4) with 0 in H2, Ha'. rewrite N.lor_0_r in H2, Ha'.
    cbn [b2a_base64]. split.
    + repeat constructor; try (apply b64_value_char; assumption).
    + intros. rewrite a2b_alphabet by exact H1. cbn [N.eqb Pos.eqb].
      rewrite a2b_alphabet by exact H2. cbn [N.eqb Pos.eqb].
      rewrite Ha'. reflexivity.
  - apply Forall_cons in Hbs as [Ha Hbs]. apply Forall_cons in Hbs as [Hb _].
    pose proof (first_sextet a Ha) as H1.
    destruct (second_sextet a b Ha Hb) as (H2 & Ha' & Hl2).
    destruct (third_sextet b 0 Hb ltac:(lia)) as (H3 & Hb' & _).
    change (N.shiftr 0 6) with 0 in H3, Hb'. rewrite N.lor_0_r in H3, Hb'.
    cbn [b2a_base64]. split.
    + repeat constructor; try (apply b64_value_char; assumption).
    + intros. rewrite a2b_alphabet by exact H1. cbn [N.eqb Pos.eqb].
      rewrite a2b_alphabet by exact H2. cbn [N.eqb Pos.eqb].
      rewrite a2b_alphabet by exact H3. cbn [N.eqb Pos.eqb].
      rewrite Ha', Hl2, Hb'. cbn. rewrite <- app_assoc. reflexivity.
  - apply Forall_cons in Hbs as [Ha Hbs]. apply Forall_cons in Hbs as [Hb Hbs].
    apply Forall_cons in Hbs as [Hc Hrest].
    pose proof (first_sextet a Ha) as H1.
    destruct (second_sextet a b Ha Hb) as (H2 & Ha' & Hl2).
    destruct (third_sextet b c Hb Hc) as (H3 & Hb' & Hl3).
    destruct (fourth_sextet c Hc) as (H4 & Hc').
    destruct (IH rest ltac:(cbn in Hlen; lia) Hrest) as (IH1 & IH2).
    cbn [b2a_base64]. split.
    + repeat (apply Forall_cons; split; [apply b64_value_char; assumption|]). exact IH1.
    + intros. rewrite a2b_alphabet by exact H1. cbn [N.eqb Pos.eqb].
      rewrite a2b_alphabet by exact H2. cbn [N.eqb Pos.eqb].
      rewrite a2b_alphabet by exact H3. cbn [N.eqb Pos.eqb].
      rewrite a2b_alphabet by exact H4. cbn [N.eqb Pos.eqb].
      rewrite Ha', Hl2, Hb', Hl3, Hc', IH2. rewrite <- !app_assoc. reflexivity.
Qed.

Lemma b64decode_b64encode (data : list byte) : b64decode (b64encode data) = Some data.
Proof.
  unfold b64decode, b64encode.
  destruct (a2b_b2a_base64 (length (bytes_to_N data)) (bytes_to_N data) (le_n _)
              (bytes_to_N_bounded data)) as (Hchars & Hdec).
  rewrite bytes_to_of_N by exact Hchars. rewrite Hdec. cbn.
  rewrite bytes_of_to_N. reflexivity.
Qed.

End Base64.

(** * Encrypted templates: the counter mode *)

Section CounterMode.
Local Open Scope N_scope.

Lemma N_to_be_length (len : nat) (n : N) : length (N_to_be len n) = len.
Proof.
  revert n. induction len as [|len IH]; intros n; cbn; [reflexivity|].
  rewrite length_app, IH. cbn. lia.
Qed.

Lemma N_to_be_bounded (len : nat) (n : N) : Forall (fun b => b < 256) (N_to_be len n).
Proof.
  revert n. induction len as [|len IH]; intros n; cbn; [constructor|].
  apply Forall_app. split; [apply IH|].
  constructor; [|constructor]. apply N.mod_upper_bound. lia.
Qed.

Lemma xor_byte_bounded (a b : N) : a < 256 -> b < 256 -> N.lxor a b < 256.
Proof.
  intros Ha Hb.
  pose proof (forall_below
    (fun a => forallb (fun b => N.lxor a b <? 256) (map N.of_nat (seq 0 256))) 256
    ltac:(vm_compute; reflexivity) a Ha) as H.
  cbn beta in H. pose proof (forall_below _ 256 H b Hb) as H'.
  apply N.ltb_lt in H'. exact H'.
Qed.

Lemma xor_bytes_bounded (xs ys : list N) :
  Forall (fun b => b < 256) xs -> Forall (fun b => b < 256) ys ->
  Forall (fun b => b < 256) (xor_bytes xs ys).
Proof.
  unfold xor_bytes. intros Hxs. revert ys.
  induction Hxs as [|x xs Hx _ IH]; intros ys Hys; [constructor|].
  destruct Hys as [|y ys Hy Hys]; cbn; [constructor|].
  constructor; [apply xor_byte_bounded; assumption|]. apply IH. exact Hys.
Qed.

Lemma xor_bytes_involutive (xs ks : list N) :
  (length xs <= length ks)%nat -> xor_bytes (xor_bytes xs ks) ks = xs.
Proof.
  unfold xor_bytes. revert ks. induction xs as [|x xs IH]; intros ks Hlen.
  - destruct ks; reflexivity.
  - destruct ks as [|k ks]; cbn in Hlen; [lia|]. cbn.
    rewrite N.lxor_assoc, N.lxor_nilpotent, N.lxor_0_r. f_equal.
    apply IH. lia.
Qed.

Lemma gctr_nil (fuel : nat) (key : list N) (cb : N) : gctr fuel key cb [] = [].
Proof. destruct fuel; reflexivity. Qed.

Lemma gctr_unfold (fuel : nat) (key : list N) (cb : N) (xs : list N) :
  gctr (S fuel) key cb xs =
    xor_bytes (take 16 xs) (N_to_be 16 (CIPH key cb)) ++ gctr fuel key (inc32 cb) (drop 16 xs).
Proof.
  destruct xs as [|x xs]; [|reflexivity].
  cbn [gctr]. rewrite take_nil, drop_nil, gctr_nil. reflexivity.
Qed.

Lemma gctr_length (fuel : nat) (key : list N) (cb : N) (xs : list N) :
  (length xs <= fuel)%nat -> length (gctr fuel key cb xs) = length xs.
Proof.
  revert cb xs. induction fuel as [|fuel IH]; intros cb xs Hlen.
  - destruct xs; [reflexivity|cbn in Hlen; lia].
  - rewrite gctr_unfold, length_app. unfold xor_bytes.
    rewrite length_zip_with, N_to_be_length, length_take.
    rewrite IH by (rewrite length_drop; lia). rewrite length_drop. lia.
Qed.

Lemma gctr_bounded (fuel : nat) (key : list N) (cb : N) (xs : list N) :
  Forall (fun b => b < 256) xs -> Forall (fun b => b < 256) (gctr fuel key cb xs).
Proof.
  revert cb xs. induction fuel as [|fuel IH]; intros cb xs Hxs; [constructor|].
  rewrite gctr_unfold. apply Forall_app. split.
  - apply xor_bytes_bounded; [apply Forall_take; exact Hxs|apply N_to_be_bounded].
  - apply IH, Forall_drop. exact Hxs.
Qed.

(** Running the counter mode twice from the same counter block is the
    identity: decryption is encryption. *)
Lemma gctr_involutive (fuel : nat) (key : list N) (cb : N) (xs : list N) :
  (length xs <= fuel)%nat -> gctr fuel key cb (gctr fuel key cb xs) = xs.
Proof.
  revert cb xs. induction fuel as [|fuel IH]; intros cb xs Hlen.
  - destruct xs; [reflexivity|cbn in Hlen; lia].
  - rewrite (gctr_unfold fuel key cb xs).
    set (ks := N_to_be 16 (CIPH key cb)).
    set (blk := xor_bytes (take 16 xs) ks).
    set (rest := gctr fuel key (inc32 cb) (drop 16 xs)).
    assert (Hks : length ks = 16%nat) by apply N_to_be_length.
    assert (Hblk : length blk = Nat.min (length xs) 16).
    { unfold blk, xor_bytes. rewrite length_zip_with, length_take, Hks. lia. }
    assert (Hsplit : take 16 (blk ++ rest) = blk /\ drop 16 (blk ++ rest) = rest).
    { destruct (decide (16 <= length xs)%nat) as [Hge|Hlt].
      - rewrite take_app_length', drop_app_length' by lia. auto.
      - assert (Hrest : rest = []).
        { unfold rest. rewrite drop_ge by lia. apply gctr_nil. }
        rewrite Hrest, app_nil_r. rewrite take_ge, drop_ge by lia. auto. }
    destruct Hsplit as [Htake Hdrop].
    rewrite gctr_unfold, Htake, Hdrop. fold ks. unfold blk, rest.
    rewrite xor_bytes_involutive by (rewrite length_take, Hks; lia).
    rewrite IH by (rewrite length_drop; lia).
    apply take_drop.
Qed.

End CounterMode.

(** * Encrypted templates: the hash of the ciphertext *)

Ltac bitwise :=
  apply N.bits_inj; intros ?k; rewrite ?N.lxor_spec;
  repeat match goal with |- context [N.testbit ?a ?k] => destruct (N.testbit a k) end;
  reflexivity.

Section Field.
Local Open Scope N_scope.

Lemma testbit_mod_pow2 (a n k : N) :
  N.testbit (a mod 2 ^ n) k = (k <? n) && N.testbit a k.
Proof.
  destruct (N.ltb_spec k n) as [Hlt|Hge]; cbn.
  - apply N.mod_pow2_bits_low. exact Hlt.
  - apply N.mod_pow2_bits_high. exact Hge.
Qed.

Lemma lxor_mod_pow2 (a b n : N) :
  N.lxor a b mod 2 ^ n = N.lxor (a mod 2 ^ n) (b mod 2 ^ n).
Proof.
  apply N.bits_inj. intros k.
  rewrite N.lxor_spec, !testbit_mod_pow2, N.lxor_spec.
  destruct (k <? n); reflexivity.
Qed.

Lemma lxor_cancel_r (a b c : N) : N.lxor a c = N.lxor b c -> a = b.
Proof.
  intros H. apply (f_equal (fun x => N.lxor x c)) in H.
  rewrite !N.lxor_assoc, N.lxor_nilpotent, !N.lxor_0_r in H. exact H.
Qed.

Lemma mod_pow2_succ (x n : N) :
  x mod 2 ^ N.succ n = N.lxor (x mod 2 ^ n) (if N.testbit x n then 2 ^ n else 0).
Proof.
  apply N.bits_inj. intros k.
  rewrite N.lxor_spec, !testbit_mod_pow2.
  destruct (N.testbit x n) eqn:Hbit.
  - rewrite N.pow2_bits_eqb.
    destruct (N.eqb_spec n k) as [->|Hne].
    + rewrite Hbit, N.ltb_irrefl. replace (k <? N.succ k) with true; [reflexivity|].
      symmetry. apply N.ltb_lt. lia.
    + replace (k <? N.succ n) with (k <? n); [rewrite xorb_false_r; reflexivity|].
      destruct (N.ltb_spec k n), (N.ltb_spec k (N.succ n)); try reflexivity; lia.
  - rewrite N.bits_0, xorb_false_r.
    destruct (N.eqb_spec n k) as [->|Hne].
    + rewrite Hbit, !andb_false_r. reflexivity.
    + replace (k <? N.succ n) with (k <? n); [reflexivity|].
      destruct (N.ltb_spec k n), (N.ltb_spec k (N.succ n)); try reflexivity; lia.
Qed.

(** The product is additive in its first factor, ... *)
Lemma gf_mul_aux_lxor (n : nat) (a b v za zb : N) :
  gf_mul_aux n (N.lxor a b) v (N.lxor za zb)
  = N.lxor (gf_mul_aux n a v za) (gf_mul_aux n b v zb).
Proof.
  revert v za zb. induction n as [|n IH]; intros v za zb; cbn [gf_mul_aux]; [reflexivity|].
  rewrite N.lxor_spec.
  destruct (N.testbit a (N.of_nat n)), (N.testbit b (N.of_nat n)); cbn [xorb];
    rewrite <- IH; f_equal; bitwise.
Qed.

Lemma gf_mul_lxor_l (a b y : N) :
  gf_mul (N.lxor a b) y = N.lxor (gf_mul a y) (gf_mul b y).
Proof.
  unfold gf_mul. rewrite <- gf_mul_aux_lxor. rewrite N.lxor_0_l. reflexivity.
Qed.

Lemma gf_mul_aux_0_l (n : nat) (v z : N) : gf_mul_aux n 0 v z = z.
Proof.
  revert v z. induction n as [|n IH]; intros v z; cbn [gf_mul_aux]; [reflexivity|].
  rewrite N.bits_0. apply IH.
Qed.

Lemma gf_mul_0_l (y : N) : gf_mul 0 y = 0.
Proof. unfold gf_mul. apply gf_mul_aux_0_l. Qed.

(** ... and reads only the 128 bits of a block. *)
Lemma gf_mul_aux_low (n : nat) (x v z : N) :
  (n <= 128)%nat -> gf_mul_aux n (x mod 2 ^ 128) v z = gf_mul_aux n x v z.
Proof.
  revert v z. induction n as [|n IH]; intros v z Hn; cbn [gf_mul_aux]; [reflexivity|].
  rewrite N.mod_pow2_bits_low by lia. apply IH. lia.
Qed.

Lemma gf_mul_low (x y : N) : gf_mul (x mod 2 ^ 128) y = gf_mul x y.
Proof. unfold gf_mul. apply gf_mul_aux_low. lia. Qed.

(** What the check of the hash subkey gives on each basis element. *)
Lemma hash_subkey_basis (H : N) (j : nat) :
  hash_subkey_invertible H = true -> (j < 128)%nat ->
  gf_mul (gf_mul (2 ^ N.of_nat j) H) (gf_inv H) = 2 ^ N.of_nat j.
Proof.
  unfold hash_subkey_invertible. cbv zeta. intros Hall Hj.
  pose proof (proj1 (forallb_forall _ _) Hall j) as Hj'.
  apply N.eqb_eq. apply Hj'. apply in_seq. lia.
Qed.

Section Invertible.
Variable H : N.
Hypothesis Hinvertible : hash_subkey_invertible H = true.

Lemma gf_mul_inverse_low (n : nat) :
  (n <= 128)%nat ->
  forall x, gf_mul (gf_mul (x mod 2 ^ N.of_nat n) H) (gf_inv H) = x mod 2 ^ N.of_nat n.
Proof.
  induction n as [|n IH]; intros Hn x.
  - cbn [N.of_nat]. rewrite N.pow_0_r, N.mod_1_r, !gf_mul_0_l. reflexivity.
  - rewrite Nat2N.inj_succ, mod_pow2_succ, !gf_mul_lxor_l, IH by lia. f_equal.
    destruct (N.testbit x (N.of_nat n)).
    + apply hash_subkey_basis; [exact Hinvertible|lia].
    + rewrite !gf_mul_0_l. reflexivity.
Qed.

Lemma gf_mul_inverse (x : N) : gf_mul (gf_mul x H) (gf_inv H) = x mod 2 ^ 128.
Proof.
  rewrite <- (gf_mul_low x H). apply (gf_mul_inverse_low 128). lia.
Qed.

(** Multiplication by an invertible hash subkey is injective on blocks. *)
Lemma gf_mul_inj (a b : N) :
  gf_mul a H mod 2 ^ 128 = gf_mul b H mod 2 ^ 128 -> a mod 2 ^ 128 = b mod 2 ^ 128.
Proof.
  intros Heq. rewrite <- (gf_mul_inverse a), <- (gf_mul_inverse b).
  rewrite <- (gf_mul_low (gf_mul a H)), <- (gf_mul_low (gf_mul b H)), Heq. reflexivity.
Qed.

End Invertible.

(** A chained hash [y := g (y xor x)] whose step [g] is injective on blocks
    tells apart two inputs that differ in exactly one block. *)
Section Chain.
Variable g : N -> N.
Hypothesis g_inj :
  forall a b, g a mod 2 ^ 128 = g b mod 2 ^ 128 -> a mod 2 ^ 128 = b mod 2 ^ 128.

Lemma chain_step_differs (y1 y2 x : N) :
  y1 mod 2 ^ 128 <> y2 mod 2 ^ 128 ->
  g (N.lxor y1 x) mod 2 ^ 128 <> g (N.lxor y2 x) mod 2 ^ 128.
Proof.
  intros Hne Heq. apply g_inj in Heq. rewrite !lxor_mod_pow2 in Heq.
  apply lxor_cancel_r in Heq. contradiction.
Qed.

Lemma chain_fold_differs (post : list N) (y1 y2 : N) :
  y1 mod 2 ^ 128 <> y2 mod 2 ^ 128 ->
  fold_left (fun y x => g (N.lxor y x)) post y1 mod 2 ^ 128
  <> fold_left (fun y x => g (N.lxor y x)) post y2 mod 2 ^ 128.
Proof.
  revert y1 y2. induction post as [|x post IH]; intros y1 y2 Hne; cbn [fold_left].
  - exact Hne.
  - apply IH, chain_step_differs, Hne.
Qed.

Lemma chain_single_block (pre post : list N) (x x' y0 : N) :
  x mod 2 ^ 128 <> x' mod 2 ^ 128 ->
  fold_left (fun y x => g (N.lxor y x)) (pre ++ x :: post) y0 mod 2 ^ 128
  <> fold_left (fun y x => g (N.lxor y x)) (pre ++ x' :: post) y0 mod 2 ^ 128.
Proof.
  intros Hne. rewrite !fold_left_app. cbn [fold_left].
  apply chain_fold_differs. intros Heq. apply g_inj in Heq.
  rewrite !lxor_mod_pow2 in Heq.
  rewrite (N.lxor_comm _ (x mod _)), (N.lxor_comm _ (x' mod _)) in Heq.
  apply lxor_cancel_r in Heq. contradiction.
Qed.

End Chain.

(** Two inputs of GHASH that differ in exactly one block have different
    hashes, when the hash subkey is invertible. *)
Lemma ghash_single_block (H : N) (pre post : list N) (x x' : N) :
  hash_subkey_invertible H = true ->
  x mod 2 ^ 128 <> x' mod 2 ^ 128 ->
  ghash H (pre ++ x :: post) mod 2 ^ 128 <> ghash H (pre ++ x' :: post) mod 2 ^ 128.
Proof.
  intros Hinv Hne.
  exact (chain_single_block (fun a => gf_mul a H) (gf_mul_inj H Hinv) pre post x x' 0 Hne).
Qed.

(** ** Blocks and their bytes *)

Lemma N_to_be_inj (len : nat) (a b : N) :
  N_to_be len a = N_to_be len b -> a mod 256 ^ N.of_nat len = b mod 256 ^ N.of_nat len.
Proof.
  revert a b. induction len as [|len IH]; intros a b Heq.
  - cbn [N.of_nat]. rewrite N.pow_0_r, !N.mod_1_r. reflexivity.
  - cbn [N_to_be] in Heq. apply app_inj_tail in Heq as [Hhi Hlo].
    apply IH in Hhi.
    rewrite Nat2N.inj_succ, N.pow_succ_r', !N.Div0.mod_mul_r, Hhi, Hlo. reflexivity.
Qed.

Lemma be_fold_inj (l l' : list N) (acc acc' : N) :
  length l = length l' ->
  Forall (fun b => b < 256) l -> Forall (fun b => b < 256) l' ->
  fold_left (fun acc b => acc * 256 + b) l acc
  = fold_left (fun acc b => acc * 256 + b) l' acc' ->
  acc = acc' /\ l = l'.
Proof.
  revert l' acc acc'. induction l as [|x l IH]; intros l' acc acc' Hlen Hl Hl' Heq.
  - destruct l'; [|discriminate]. cbn in Heq. auto.
  - destruct l' as [|x' l']; [discriminate|].
    apply Forall_cons in Hl as [Hx Hl]. apply Forall_cons in Hl' as [Hx' Hl'].
    cbn [fold_left] in Heq. apply IH in Heq as [Hacc ->]; [|cbn in Hlen; lia|assumption..].
    assert (acc = acc' /\ x = x') as [-> ->] by lia. auto.
Qed.

Lemma be_to_N_inj (l l' : list N) :
  length l = length l' ->
  Forall (fun b => b < 256) l -> Forall (fun b => b < 256) l' ->
  be_to_N l = be_to_N l' -> l = l'.
Proof.
  intros Hlen Hl Hl' Heq. apply (be_fold_inj l l' 0 0 Hlen Hl Hl' Heq).
Qed.

Lemma be_fold_bound (l : list N) (acc : N) :
  Forall (fun b => b < 256) l ->
  fold_left (fun acc b => acc * 256 + b) l acc < (acc + 1) * 256 ^ N.of_nat (length l).
Proof.
  intros Hl. revert acc. induction Hl as [|x l Hx _ IH]; intros acc.
  - cbn. lia.
  - cbn [fold_left length]. rewrite Nat2N.inj_succ, N.pow_succ_r'.
    eapply N.lt_le_trans; [apply IH|].
    rewrite N.mul_assoc. apply N.mul_le_mono_r. lia.
Qed.

Lemma be_to_N_bound (l : list N) :
  Forall (fun b => b < 256) l -> be_to_N l < 256 ^ N.of_nat (length l).
Proof.
  intros Hl. pose proof (be_fold_bound l 0 Hl) as Hb. rewrite N.mul_1_l in Hb. exact Hb.
Qed.

Lemma blocks_of_unfold (fuel : nat) (bs : list N) :
  bs <> [] ->
  blocks_of (S fuel) bs
  = be_to_N (take 16 (bs ++ repeat 0 15)) :: blocks_of fuel (drop 16 bs).
Proof. destruct bs; [congruence|reflexivity]. Qed.

(** Replacing one byte changes exactly one block. *)
Lemma blocks_of_insert (fuel : nat) :
  forall (c : list N) (i : nat) (v' : N),
    (length c <= fuel)%nat -> Forall (fun b => b < 256) c -> v' < 256 ->
    (i < length c)%nat -> c !! i <> Some v' ->
    exists pre x x' post,
      blocks_of fuel c = pre ++ x :: post /\
      blocks_of fuel (<[i:=v']> c) = pre ++ x' :: post /\
      x mod 2 ^ 128 <> x' mod 2 ^ 128.
Proof.
  induction fuel as [|fuel IH]; intros c i v' Hlen Hc Hv' Hi Hne; [lia|].
  assert (Hc' : Forall (fun b => b < 256) (<[i:=v']> c)).
  { apply Forall_insert; assumption. }
  assert (Hpad : Forall (fun b => b < 256) (repeat 0 15)).
  { repeat constructor. }
  assert (Hnil : c <> []).
  { intros ->. cbn in Hi. lia. }
  assert (Hnil' : <[i:=v']> c <> []).
  { intros E. apply (f_equal length) in E. rewrite length_insert in E.
    cbn in E. lia. }
  rewrite (blocks_of_unfold fuel c Hnil), (blocks_of_unfold fuel _ Hnil').
  destruct (decide (i < 16)%nat) as [Hlt|Hge].
  - exists [], (be_to_N (take 16 (c ++ repeat 0 15))),
      (be_to_N (take 16 (<[i:=v']> c ++ repeat 0 15))), (blocks_of fuel (drop 16 c)).
    assert (Hl1 : length (take 16 (c ++ repeat 0 15)) = 16%nat).
    { rewrite length_take, length_app, repeat_length. lia. }
    assert (Hl2 : length (take 16 (<[i:=v']> c ++ repeat 0 15)) = 16%nat).
    { rewrite length_take, length_app, length_insert, repeat_length. lia. }
    assert (Hb1 : Forall (fun b => b < 256) (take 16 (c ++ repeat 0 15))).
    { apply Forall_take, Forall_app. auto. }
    assert (Hb2 : Forall (fun b => b < 256) (take 16 (<[i:=v']> c ++ repeat 0 15))).
    { apply Forall_take, Forall_app. auto. }
    split; [reflexivity|]. split.
    + rewrite drop_insert_lt by lia. reflexivity.
    + pose proof (be_to_N_bound _ Hb1) as B1. pose proof (be_to_N_bound _ Hb2) as B2.
      rewrite Hl1 in B1. rewrite Hl2 in B2.
      change (256 ^ N.of_nat 16) with (2 ^ 128) in B1, B2.
      rewrite !N.mod_small by assumption.
      intros Heq. apply be_to_N_inj in Heq; [|congruence|assumption..].
      apply (f_equal (fun l => l !! i)) in Heq.
      rewrite !lookup_take_lt in Heq by lia.
      rewrite !lookup_app_l in Heq by (rewrite ?length_insert; lia).
      rewrite list_lookup_insert_eq in Heq by lia. contradiction.
  - destruct (IH (drop 16 c) (i - 16)%nat v') as (pre & y & y' & post & E1 & E2 & Hd).
    + rewrite length_drop. lia.
    + apply Forall_drop. exact Hc.
    + exact Hv'.
    + rewrite length_drop. lia.
    + rewrite lookup_drop. replace (16 + (i - 16))%nat with i by lia. exact Hne.
    + exists (be_to_N (take 16 (c ++ repeat 0 15)) :: pre), y, y', post.
      split; [|split; [|exact Hd]].
      * rewrite E1. reflexivity.
      * rewrite drop_insert_ge by lia. rewrite E2.
        rewrite !take_app_le by (rewrite ?length_insert; lia).
        rewrite take_insert_ge by lia. reflexivity.
Qed.

End Field.

(** * Encrypted templates: AES-GCM *)

Section Gcm.
Local Open Scope N_scope.

Lemma gcm_tag_length (key iv a c : list N) : length (gcm_tag key iv a c) = 16%nat.
Proof. unfold gcm_tag. apply N_to_be_length. Qed.

Lemma gcm_encrypt_bounded (key iv a p : list N) :
  Forall (fun b => b < 256) p -> Forall (fun b => b < 256) (gcm_encrypt key iv a p).
Proof.
  intros Hp. unfold gcm_encrypt, gcm_tag. apply Forall_app. split.
  - apply gctr_bounded. exact Hp.
  - apply N_to_be_bounded.
Qed.

Lemma gcm_encrypt_length (key iv a p : list N) :
  length (gcm_encrypt key iv a p) = (length p + 16)%nat.
Proof.
  unfold gcm_encrypt. rewrite length_app, gcm_tag_length, gctr_length by lia. reflexivity.
Qed.

Lemma gcm_decrypt_encrypt (key iv a p : list N) :
  gcm_decrypt key iv a (gcm_encrypt key iv a p) = Some p.
Proof.
  unfold gcm_decrypt, gcm_encrypt.
  set (cb := inc32 (j0 (CIPH key 0) iv)).
  set (c := gctr (length p) key cb p).
  assert (Hc : length c = length p) by (apply gctr_length; lia).
  assert (Hl : (length (c ++ gcm_tag key iv a c) - 16)%nat = length c).
  { rewrite length_app, gcm_tag_length. lia. }
  rewrite Hl, take_app_length, drop_app_length.
  rewrite bool_decide_eq_true_2 by reflexivity.
  rewrite Hc. unfold c. rewrite gctr_involutive by lia. reflexivity.
Qed.

Lemma gcm_decrypt_length (key iv a ct p : list N) :
  (16 <= length ct)%nat -> gcm_decrypt key iv a ct = Some p ->
  length ct = (length p + 16)%nat.
Proof.
  unfold gcm_decrypt. intros Hlen Hdec.
  destruct (bool_decide _); [|discriminate].
  injection Hdec as <-. rewrite gctr_length by lia.
  rewrite length_take. lia.
Qed.

Lemma ghash_ac_no_aad (H : N) (c : list N) :
  ghash_ac H [] c
  = ghash H (blocks_of (length c) c ++ [N.shiftl (8 * N.of_nat 0) 64 + 8 * N.of_nat (length c)]).
Proof. reflexivity. Qed.

(** A tag computed over a ciphertext with one byte replaced is not the tag
    of the ciphertext. *)
Lemma gcm_tag_detects (key iv c : list N) (i : nat) (v' : N) :
  hash_subkey_invertible (CIPH key 0) = true ->
  Forall (fun b => b < 256) c -> v' < 256 -> (i < length c)%nat -> c !! i <> Some v' ->
  gcm_tag key iv [] (<[i:=v']> c) <> gcm_tag key iv [] c.
Proof.
  intros Hinv Hc Hv' Hi Hne Heq. unfold gcm_tag in Heq.
  apply N_to_be_inj in Heq. change (256 ^ N.of_nat 16) with (2 ^ 128) in Heq.
  rewrite !lxor_mod_pow2 in Heq. apply lxor_cancel_r in Heq.
  rewrite !ghash_ac_no_aad, length_insert in Heq.
  destruct (blocks_of_insert (length c) c i v' (le_n _) Hc Hv' Hi Hne)
    as (pre & x & x' & post & E1 & E2 & Hd).
  rewrite E1, E2, <- !app_assoc, <- !app_comm_cons in Heq.
  symmetry in Heq. revert Heq. apply ghash_single_block; assumption.
Qed.

Lemma gcm_decrypt_tampered (key iv ct p : list N) (i : nat) (v' : N) :
  hash_subkey_invertible (CIPH key 0) = true ->
  Forall (fun b => b < 256) ct -> v' < 256 ->
  (16 <= length ct)%nat -> gcm_decrypt key iv [] ct = Some p ->
  (i < length ct)%nat -> ct !! i <> Some v' ->
  gcm_decrypt key iv [] (<[i:=v']> ct) = None.
Proof.
  intros Hinv Hct Hv' Hlen Hdec Hi Hne. unfold gcm_decrypt in *.
  rewrite length_insert.
  set (n := (length ct - 16)%nat) in *.
  destruct (bool_decide (gcm_tag key iv [] (take n ct) = drop n ct)) eqn:Htag;
    [|discriminate].
  apply bool_decide_eq_true_1 in Htag.
  rewrite bool_decide_eq_false_2; [reflexivity|].
  destruct (decide (i < n)%nat) as [Hlt|Hge].
  - rewrite take_insert_lt, drop_insert_lt by lia. rewrite <- Htag.
    apply gcm_tag_detects.
    + exact Hinv.
    + apply Forall_take. exact Hct.
    + exact Hv'.
    + rewrite length_take. lia.
    + rewrite lookup_take_lt by lia. exact Hne.
  - rewrite take_insert_ge, drop_insert_ge by lia. rewrite Htag.
    intros Heq. apply (f_equal (fun l => l !! (i - n)%nat)) in Heq.
    rewrite list_lookup_insert_eq in Heq by (rewrite length_drop; lia).
    rewrite lookup_drop in Heq. replace (n + (i - n))%nat with i in Heq by lia.
    congruence.
Qed.

End Gcm.

(** * Encrypted templates: [encrypt_biometric] and [decrypt_biometric] *)

(** The key both functions use: the first 32 bytes of the configured one. *)
Definition biometric_key (settings : Settings) : list byte :=
  take 32 (encode_utf8 (BIOMETRIC_ENCRYPTION_KEY settings)).

(** What is stored for a nonce and the bytes that follow it. *)
Definition stored_template (nonce body : list byte) : string :=
  decode_utf8 (b64encode (nonce ++ body)).

Section Templates.
Variable settings : Settings.

Lemma nonce_12_ok (nonce : list byte) : length nonce = 12%nat -> nonce_length_ok nonce = true.
Proof. intros Hn. unfold nonce_length_ok. rewrite Hn. reflexivity. Qed.

Lemma decrypt_biometric_stored (nonce body : list byte) :
  key_length_ok (biometric_key settings) = true -> length nonce = 12%nat ->
  decrypt_biometric settings (stored_template nonce body)
  = AESGCM_decrypt (biometric_key settings) nonce body.
Proof.
  intros Hkey Hn. unfold decrypt_biometric, stored_template. cbv zeta.
  fold (biometric_key settings). rewrite Hkey. cbn [negb].
  rewrite encode_decode_utf8, b64decode_b64encode.
  rewrite take_app_length', drop_app_length' by (symmetry; exact Hn). reflexivity.
Qed.

Lemma encrypt_biometric_stored (nonce template_bytes : list byte) :
  key_length_ok (biometric_key settings) = true -> length nonce = 12%nat ->
  encrypt_biometric settings nonce template_bytes
  = inr (stored_template nonce
           (bytes_of_N (gcm_encrypt (bytes_to_N (biometric_key settings)) (bytes_to_N nonce) []
                          (bytes_to_N template_bytes)))).
Proof.
  intros Hkey Hn. unfold encrypt_biometric, AESGCM_encrypt. cbv zeta.
  fold (biometric_key settings). rewrite Hkey, (nonce_12_ok nonce Hn). reflexivity.
Qed.

Lemma AESGCM_decrypt_encrypted (key nonce data : list byte) :
  key_length_ok key = true -> nonce_length_ok nonce = true ->
  AESGCM_decrypt key nonce
    (bytes_of_N (gcm_encrypt (bytes_to_N key) (bytes_to_N nonce) [] (bytes_to_N data)))
  = inr data.
Proof.
  intros Hkey Hn. unfold AESGCM_decrypt. rewrite Hkey, Hn. cbn [negb].
  assert (Hb := gcm_encrypt_bounded (bytes_to_N key) (bytes_to_N nonce) [] (bytes_to_N data)
                  (bytes_to_N_bounded data)).
  assert (Hl : length (bytes_of_N (gcm_encrypt (bytes_to_N key) (bytes_to_N nonce) []
                                     (bytes_to_N data))) = (length data + 16)%nat).
  { unfold bytes_of_N. rewrite length_map, gcm_encrypt_length.
    unfold bytes_to_N. rewrite length_map. reflexivity. }
  rewrite Hl. replace (length data + 16 <? 16)%nat with false
    by (symmetry; apply Nat.ltb_ge; lia).
  rewrite bytes_to_of_N by exact Hb. rewrite gcm_decrypt_encrypt, bytes_of_to_N. reflexivity.
Qed.

Lemma AESGCM_decrypt_length (key nonce data p : list byte) :
  AESGCM_decrypt key nonce data = inr p -> length data = (length p + 16)%nat.
Proof.
  unfold AESGCM_decrypt. intros Hdec.
  destruct (negb (key_length_ok key)); [discriminate|].
  destruct (negb (nonce_length_ok nonce)); [discriminate|].
  destruct (Nat.ltb_spec (length data) 16) as [Hlt|Hge]; [discriminate|].
  destruct (gcm_decrypt _ _ _ _) as [q|] eqn:Hq; [|discriminate].
  injection Hdec as <-.
  apply gcm_decrypt_length in Hq; [|unfold bytes_to_N; rewrite length_map; exact Hge].
  unfold bytes_to_N in Hq. rewrite length_map in Hq.
  unfold bytes_of_N. rewrite length_map. exact Hq.
Qed.

Lemma AESGCM_decrypt_tampered (key nonce data p : list byte) (i : nat) (b' : byte) :
  hash_subkey_invertible (CIPH (bytes_to_N key) 0%N) = true ->
  AESGCM_decrypt key nonce data = inr p ->
  (i < length data)%nat -> data !! i <> Some b' ->
  AESGCM_decrypt key nonce (<[i:=b']> data) = inl InvalidTag.
Proof.
  intros Hinv Hdec Hi Hne. unfold AESGCM_decrypt in *.
  destruct (negb (key_length_ok key)); [discriminate|].
  destruct (negb (nonce_length_ok nonce)); [discriminate|].
  rewrite length_insert.
  destruct (Nat.ltb_spec (length data) 16) as [Hlt|Hge]; [discriminate|].
  destruct (gcm_decrypt _ _ _ (bytes_to_N data)) as [q|] eqn:Hq; [|discriminate].
  unfold bytes_to_N at 3. rewrite list_fmap_insert. fold (bytes_to_N data).
  rewrite (gcm_decrypt_tampered _ _ (bytes_to_N data) q i (Byte.to_N b')); try assumption.
  - reflexivity.
  - apply bytes_to_N_bounded.
  - pose proof (Byte.to_N_bounded b'). lia.
  - unfold bytes_to_N. rewrite length_map. exact Hge.
  - unfold bytes_to_N. rewrite length_map. exact Hi.
  - unfold bytes_to_N. rewrite list_lookup_fmap. intros Heq. apply Hne.
    destruct (data !! i) as [b|]; [|discriminate]. cbn in Heq. injection Heq as Heq.
    apply (f_equal Byte.of_N) in Heq. rewrite !Byte.of_to_N in Heq. exact Heq.
Qed.

End Templates.

(** * Properties of the template store ([encrypt_biometric], [decrypt_biometric]) *)

(** A nonce, and what follows it in the store for the one-byte template
    [127] under the default key. *)
Definition sample_nonce : list byte := encode_utf8 "0123456789ab".
Definition sample_body : list byte :=
  bytes_of_N (gcm_encrypt (bytes_to_N (biometric_key default_settings))
                (bytes_to_N sample_nonce) [] [127%N]).

Lemma default_key_ok : key_length_ok (biometric_key default_settings) = true.
Proof. vm_compute. reflexivity. Qed.

Lemma default_hash_subkey_invertible :
  hash_subkey_invertible (CIPH (bytes_to_N (biometric_key default_settings)) 0%N) = true.
Proof. vm_compute. reflexivity. Qed.

Lemma sample_body_decrypts :
  decrypt_biometric default_settings (stored_template sample_nonce sample_body)
  = inr [byte_of_N 127].
Proof. vm_compute. reflexivity. Qed.

Section Store.
Variable settings : Settings.

(** X1. Decryption inverts encryption: with a key of a length AES accepts and
    the 12-byte nonce that [secrets.token_bytes(12)] returns,
    [encrypt_biometric] returns a string and [decrypt_biometric] of that
    string is the template, byte for byte. *)
Theorem decrypt_biometric_inverts_encrypt (nonce template_bytes : list byte) :
  key_length_ok (biometric_key settings) = true ->
  length nonce = 12%nat ->
  exists stored,
    encrypt_biometric settings nonce template_bytes = inr stored /\
    decrypt_biometric settings stored = inr template_bytes.
Proof.
  intros Hkey Hn. eexists. split.
  - apply encrypt_biometric_stored; assumption.
  - rewrite decrypt_biometric_stored by assumption.
    apply AESGCM_decrypt_encrypted; [exact Hkey|apply nonce_12_ok, Hn].
Qed.

(** X2. Tamper detection: when a stored value (12-byte nonce, then ciphertext
    and tag) decrypts, the value with any single byte after the nonce
    replaced by a different one makes [decrypt_biometric] raise
    [InvalidTag]; the hash subkey of the key is invertible. *)
Theorem tampered_template_raises_InvalidTag
    (nonce body p : list byte) (i : nat) (b' : byte) :
  key_length_ok (biometric_key settings) = true ->
  hash_subkey_invertible (CIPH (bytes_to_N (biometric_key settings)) 0%N) = true ->
  length nonce = 12%nat ->
  decrypt_biometric settings (stored_template nonce body) = inr p ->
  (i < length body)%nat ->
  body !! i <> Some b' ->
  decrypt_biometric settings (stored_template nonce (<[i:=b']> body)) = inl InvalidTag.
Proof.
  intros Hkey Hinv Hn Hdec Hi Hne.
  rewrite decrypt_biometric_stored in * by assumption.
  exact (AESGCM_decrypt_tampered _ nonce body p i b' Hinv Hdec Hi Hne).
Qed.

(** X3. A stored value that decrypts carries 28 bytes more than the template:
    the nonce and the tag.  In particular nothing that decodes to fewer
    than 28 bytes decrypts. *)
Theorem decrypt_biometric_length (encrypted_b64 : string) (p : list byte) :
  decrypt_biometric settings encrypted_b64 = inr p ->
  exists encrypted_data,
    b64decode (encode_utf8 encrypted_b64) = Some encrypted_data /\
    length encrypted_data = (12 + length p + 16)%nat.
Proof.
  unfold decrypt_biometric. cbv zeta. intros Hdec.
  destruct (negb (key_length_ok _)); [discriminate|].
  destruct (b64decode (encode_utf8 encrypted_b64)) as [data|]; [|discriminate].
  exists data. split; [reflexivity|].
  pose proof Hdec as Hlen. apply AESGCM_decrypt_length in Hlen.
  rewrite length_drop in Hlen.
  assert (Hnonce : nonce_length_ok (take 12 data) = true).
  { unfold AESGCM_decrypt in Hdec.
    destruct (negb (key_length_ok _)); [discriminate|].
    destruct (nonce_length_ok (take 12 data)); [reflexivity|discriminate]. }
  lia.
Qed.

(** X4. The stored string determines what was encrypted: two calls that
    return the same string had the same nonce and the same template. *)
Theorem encrypt_biometric_injective (nonce1 nonce2 t1 t2 : list byte) (stored : string) :
  key_length_ok (biometric_key settings) = true ->
  length nonce1 = 12%nat -> length nonce2 = 12%nat ->
  encrypt_biometric settings nonce1 t1 = inr stored ->
  encrypt_biometric settings nonce2 t2 = inr stored ->
  nonce1 = nonce2 /\ t1 = t2.
Proof.
  intros Hkey Hn1 Hn2 E1 E2.
  rewrite encrypt_biometric_stored in E1, E2 by assumption.
  injection E1 as E1. injection E2 as E2.
  assert (Hnonce : nonce1 = nonce2).
  { rewrite <- E2 in E1. unfold stored_template in E1.
    apply (f_equal encode_utf8) in E1. rewrite !encode_decode_utf8 in E1.
    apply (f_equal b64decode) in E1. rewrite !b64decode_b64encode in E1.
    injection E1 as E1. apply (f_equal (take 12)) in E1.
    rewrite !take_app_length' in E1 by (symmetry; assumption). exact E1. }
  split; [exact Hnonce|]. subst nonce2.
  assert (D1 := AESGCM_decrypt_encrypted (biometric_key settings) nonce1 t1 Hkey
                  (nonce_12_ok nonce1 Hn1)).
  assert (D2 := AESGCM_decrypt_encrypted (biometric_key settings) nonce1 t2 Hkey
                  (nonce_12_ok nonce1 Hn1)).
  rewrite <- (decrypt_biometric_stored settings) in D1, D2 by assumption.
  rewrite E1 in D1. rewrite E2 in D2. congruence.
Qed.

(** With a key whose first 32 bytes are not 16, 24 or 32 bytes, both
    functions raise [ValueError] whatever they are given; with such a key
    and a 12-byte nonce [encrypt_biometric] never raises. *)
Theorem encrypt_biometric_key_length (nonce template_bytes : list byte) (stored : string) :
  length nonce = 12%nat ->
  if key_length_ok (biometric_key settings)
  then exists s, encrypt_biometric settings nonce template_bytes = inr s
  else encrypt_biometric settings nonce template_bytes = inl ValueError /\
       decrypt_biometric settings stored = inl ValueError.
Proof.
  intros Hn. destruct (key_length_ok (biometric_key settings)) eqn:Hkey.
  - eexists. apply encrypt_biometric_stored; assumption.
  - unfold encrypt_biometric, decrypt_biometric, AESGCM_encrypt. cbv zeta.
    fold (biometric_key settings). rewrite Hkey. auto.
Qed.

End Store.

Lemma decrypt_biometric_inverts_encrypt_default :
  exists stored,
    encrypt_biometric default_settings sample_nonce [byte_of_N 127] = inr stored /\
    decrypt_biometric default_settings stored = inr [byte_of_N 127].
Proof.
  exact (decrypt_biometric_inverts_encrypt default_settings sample_nonce [byte_of_N 127]
           default_key_ok eq_refl).
Defined.

Lemma tampered_template_raises_InvalidTag_default :
  decrypt_biometric default_settings
    (stored_template sample_nonce (<[0%nat:="000"%byte]> sample_body)) = inl InvalidTag.
Proof.
  assert (Hi : (0 < length sample_body)%nat) by (vm_compute; lia).
  assert (Hne : sample_body !! 0%nat <> Some "000"%byte) by (vm_compute; discriminate).
  exact (tampered_template_raises_InvalidTag default_settings sample_nonce sample_body
           [byte_of_N 127] 0 "000"%byte default_key_ok default_hash_subkey_invertible
           eq_refl sample_body_decrypts Hi Hne).
Defined.

Lemma decrypt_biometric_length_default :
  exists encrypted_data,
    b64decode (encode_utf8 (stored_template sample_nonce sample_body)) = Some encrypted_data /\
    length encrypted_data = (12 + length [byte_of_N 127] + 16)%nat.
Proof.
  exact (decrypt_biometric_length default_settings _ _ sample_body_decrypts).
Defined.

Lemma encrypt_biometric_injective_default :
  sample_nonce = sample_nonce /\ [byte_of_N 127] = [byte_of_N 127].
Proof.
  assert (E : encrypt_biometric default_settings sample_nonce [byte_of_N 127]
              = inr (stored_template sample_nonce sample_body)).
  { vm_compute. reflexivity. }
  exact (encrypt_biometric_injective default_settings sample_nonce sample_nonce
           [byte_of_N 127] [byte_of_N 127] _ default_key_ok eq_refl eq_refl E E).
Defined.

Lemma encrypt_biometric_key_length_default :
  exists s, encrypt_biometric default_settings sample_nonce [] = inr s.
Proof.
  pose proof (encrypt_biometric_key_length default_settings sample_nonce [] "" eq_refl) as H.
  rewrite default_key_ok in H. exact H.
Defined.

(** * Properties of quantisation and of the similarity score *)

Section QuantizeFacts.
Local Open Scope R_scope.

Lemma abs_max_lt_scale (a : list R) (x : R) :
  x ∈ a -> Rabs x < abs_max a + 1 / 100000000.
Proof.
  intros Hin. apply list_elem_of_lookup in Hin as [i Hi].
  pose proof (abs_max_bound a i x Hi). lra.
Qed.

Lemma int8_of_byte_range (b : byte) : (-128 <= int8_of_byte b <= 127)%Z.
Proof.
  unfold int8_of_byte. pose proof (Byte.to_N_bounded b).
  destruct (Z.ltb_spec (Z.of_N (Byte.to_N b)) 128); lia.
Qed.

Lemma Int_part_0 : Int_part 0 = 0%Z.
Proof. symmetry. apply Int_part_spec. lra. Qed.

Lemma trunc_opp (x : R) : trunc (- x) = (- trunc x)%Z.
Proof.
  unfold trunc. destruct (Rle_dec 0 x) as [Hx|Hx], (Rle_dec 0 (- x)) as [Hx'|Hx'].
  - assert (x = 0) by lra. subst x. rewrite Ropp_0, Int_part_0. reflexivity.
  - rewrite Ropp_involutive. reflexivity.
  - lia.
  - lra.
Qed.

Lemma abs_max_opp (a : list R) : abs_max (map Ropp a) = abs_max a.
Proof.
  unfold abs_max. induction a as [|x a IH]; cbn; [reflexivity|].
  rewrite Rabs_Ropp, IH. reflexivity.
Qed.

(** The value stored for one component. *)
Lemma quantized_value (x scale : R) :
  Rabs x < scale ->
  int8_of_byte (int8_to_byte (astype_int8 (x / scale * 127))) = trunc (x / scale * 127) /\
  (-127 < trunc (x / scale * 127) < 127)%Z.
Proof.
  intros Hx. pose proof (quantize_component x scale Hx) as [Hq _]. cbv zeta in Hq.
  assert (Hs : 0 < scale) by (pose proof (Rabs_pos x); lra).
  assert (Ht : Rabs (x / scale * 127) < 127).
  { unfold Rdiv. rewrite !Rabs_mult, (Rabs_right 127), (Rabs_right (/ scale)) by
      (try lra; left; apply Rinv_0_lt_compat; exact Hs).
    apply (Rmult_lt_compat_r (/ scale)) in Hx; [|apply Rinv_0_lt_compat; exact Hs].
    rewrite Rinv_r in Hx by lra. nra. }
  destruct (trunc_spec (x / scale * 127)) as [H1 H2].
  assert (Hz : (-127 < trunc (x / scale * 127) < 127)%Z).
  { assert (H : Rabs (IZR (trunc (x / scale * 127))) < 127) by lra.
    apply Rabs_def2 in H. split; apply lt_IZR; lra. }
  split; [|exact Hz].
  unfold astype_int8. rewrite wrap_int8_small by lia. apply int8_roundtrip. lia.
Qed.

Lemma quantize_embedding_cons (x0 : R) (rest : list R) :
  quantize_embedding (x0 :: rest)
  = Some (map (fun x => int8_to_byte
                 (astype_int8 (x / (abs_max (x0 :: rest) + 1 / 100000000) * 127)))
              (x0 :: rest)).
Proof.
  unfold quantize_embedding. cbv zeta. rewrite !List.map_map. reflexivity.
Qed.

End QuantizeFacts.

Section Quantize.
Local Open Scope R_scope.

(** X5. [quantize_embedding] fails exactly on the empty array; otherwise it
    returns one byte per component, each an [int8] between -127 and 127
    (never -128). *)
Theorem quantize_embedding_range (embedding_array : list R) :
  match quantize_embedding embedding_array with
  | None => embedding_array = []
  | Some embedding_bytes =>
      length embedding_bytes = length embedding_array /\
      Forall (fun b => (-127 <= int8_of_byte b <= 127)%Z) embedding_bytes
  end.
Proof.
  destruct embedding_array as [|x0 rest]; [reflexivity|].
  rewrite quantize_embedding_cons.
  split; [rewrite length_map; reflexivity|].
  rewrite Forall_map. apply Forall_forall. intros x Hx. cbn beta.
  destruct (quantized_value x _ (abs_max_lt_scale _ x Hx)) as [-> Hz].
  lia.
Qed.

(** X6. The all-zero vector is quantised without a division by zero, to
    all-zero bytes. *)
Theorem quantize_embedding_zero (n : nat) :
  quantize_embedding (repeat 0 (S n)) = Some (repeat "000"%byte (S n)).
Proof.
  unfold quantize_embedding. cbn [repeat]. cbv zeta.
  set (scale := abs_max (0 :: repeat 0 n) + 1 / 100000000).
  change (0 :: repeat 0 n) with (repeat 0 (S n)).
  rewrite !map_repeat. f_equal. f_equal.
  replace (0 / scale * 127) with 0 by (unfold Rdiv; ring).
  unfold astype_int8, trunc.
  destruct (Rle_dec 0 0) as [_|H]; [|exfalso; apply H; lra].
  rewrite Int_part_0. reflexivity.
Qed.

(** X7. Negating the vector negates every stored component. *)
Theorem quantize_embedding_opp (embedding_array : list R) :
  match quantize_embedding embedding_array,
        quantize_embedding (map Ropp embedding_array) with
  | Some bs, Some bs' => map int8_of_byte bs' = map Z.opp (map int8_of_byte bs)
  | None, None => embedding_array = []
  | _, _ => False
  end.
Proof.
  destruct embedding_array as [|x0 rest]; [reflexivity|].
  change (map Ropp (x0 :: rest)) with (- x0 :: map Ropp rest).
  rewrite !quantize_embedding_cons.
  change (- x0 :: map Ropp rest) with (map Ropp (x0 :: rest)).
  rewrite abs_max_opp. rewrite !List.map_map.
  apply map_ext_in. intros x Hx. apply list_elem_of_In in Hx.
  destruct (quantized_value x _ (abs_max_lt_scale _ x Hx)) as [-> _].
  assert (Hx' : Rabs (- x) < abs_max (x0 :: rest) + 1 / 100000000).
  { rewrite Rabs_Ropp. apply abs_max_lt_scale. exact Hx. }
  destruct (quantized_value (- x) _ Hx') as [-> _].
  rewrite <- trunc_opp. f_equal. unfold Rdiv. ring.
Qed.

(** X8. [dequantize_embedding] fails exactly when the number of bytes is not
    the requested shape; otherwise it returns that many floats, each
    between -128/127 and 1. *)
Theorem dequantize_embedding_range (embedding_bytes : list byte) (shape : nat) :
  match dequantize_embedding embedding_bytes shape with
  | None => length embedding_bytes <> shape
  | Some embedding_float =>
      length embedding_bytes = shape /\
      length embedding_float = shape /\
      Forall (fun x => - 128 / 127 <= x <= 1) embedding_float
  end.
Proof.
  unfold dequantize_embedding.
  destruct (Nat.eqb_spec (length embedding_bytes) shape) as [Hlen|Hlen]; cbn [negb];
    [|exact Hlen].
  split; [exact Hlen|]. split; [rewrite length_map; exact Hlen|].
  rewrite Forall_map. apply Forall_forall. intros b _. cbn beta.
  pose proof (int8_of_byte_range b) as [Hlo Hhi].
  apply IZR_le in Hlo, Hhi. lra.
Qed.

End Quantize.

Section Similarity.
Local Open Scope R_scope.

Lemma dot_comm (a b : list R) : dot a b = dot b a.
Proof.
  unfold dot. revert b. induction a as [|x a IH]; intros [|y b]; cbn; try reflexivity.
  rewrite IH. ring.
Qed.

(** X9. The score does not depend on which vector is the live one. *)
Theorem cosine_similarity_sym (a b : list R) :
  _cosine_similarity a b = _cosine_similarity b a.
Proof.
  unfold _cosine_similarity. cbv zeta.
  rewrite (Nat.eqb_sym (length b)), (dot_comm b a), (Rmult_comm (norm b)).
  destruct (negb _); [reflexivity|].
  destruct (Req_EM_T (norm a) 0), (Req_EM_T (norm b) 0); reflexivity.
Qed.

End Similarity.

(** * Properties of [decode_image] *)

Section DecodeImage.
Local Open Scope N_scope.

(** A character of the base64 alphabet is ASCII and is not the comma. *)
Lemma b64_char_plain (x : N) : x < 64 -> b64_char x <> 44 /\ b64_char x < 128.
Proof.
  intros Hx.
  pose proof (forall_below (fun x => negb (b64_char x =? 44) && (b64_char x <? 128)) 64
                ltac:(vm_compute; reflexivity) x Hx) as H.
  apply andb_prop in H as [H1 H2].
  apply negb_true_iff, N.eqb_neq in H1. apply N.ltb_lt in H2. auto.
Qed.

Lemma b2a_base64_plain (n : nat) :
  forall bs, (length bs <= n)%nat -> Forall (fun b => b < 256) bs ->
  Forall (fun c => c <> 44 /\ c < 128) (b2a_base64 bs).
Proof.
  assert (Hpad : BASE64_PAD <> 44 /\ BASE64_PAD < 128) by (vm_compute; split; [discriminate|reflexivity]).
  induction n as [|n IH]; intros bs Hlen Hbs.
  { destruct bs; [constructor|cbn in Hlen; lia]. }
  destruct bs as [|a [|b [|c rest]]].
  - constructor.
  - apply Forall_cons in Hbs as [Ha _].
    pose proof (first_sextet a Ha) as H1.
    destruct (second_sextet a 0 Ha ltac:(lia)) as (H2 & _ & _).
    change (N.shiftr 0 4) with 0 in H2. rewrite N.lor_0_r in H2.
    cbn [b2a_base64].
    repeat (apply Forall_cons; split; [first [apply b64_char_plain; assumption|exact Hpad]|]).
    constructor.
  - apply Forall_cons in Hbs as [Ha Hbs]. apply Forall_cons in Hbs as [Hb _].
    pose proof (first_sextet a Ha) as H1.
    destruct (second_sextet a b Ha Hb) as (H2 & _ & _).
    destruct (third_sextet b 0 Hb ltac:(lia)) as (H3 & _ & _).
    change (N.shiftr 0 6) with 0 in H3. rewrite N.lor_0_r in H3.
    cbn [b2a_base64].
    repeat (apply Forall_cons; split; [first [apply b64_char_plain; assumption|exact Hpad]|]).
    constructor.
  - apply Forall_cons in Hbs as [Ha Hbs]. apply Forall_cons in Hbs as [Hb Hbs].
    apply Forall_cons in Hbs as [Hc Hrest].
    pose proof (first_sextet a Ha) as H1.
    destruct (second_sextet a b Ha Hb) as (H2 & _ & _).
    destruct (third_sextet b c Hb Hc) as (H3 & _ & _).
    destruct (fourth_sextet c Hc) as (H4 & _).
    cbn [b2a_base64].
    repeat (apply Forall_cons; split; [apply b64_char_plain; assumption|]).
    apply IH; [cbn in Hlen; lia|exact Hrest].
Qed.

Lemma b64encode_plain (data : list byte) (c : byte) :
  c ∈ b64encode data -> c <> ","%byte /\ is_ascii c = true.
Proof.
  unfold b64encode, bytes_of_N. intros Hin.
  apply list_elem_of_fmap in Hin as (n & Hc & Hin).
  pose proof (b2a_base64_plain _ _ (le_n _) (bytes_to_N_bounded data)) as Hno.
  destruct (a2b_b2a_base64 _ _ (le_n _) (bytes_to_N_bounded data)) as [Hb _].
  rewrite Forall_forall in Hno, Hb.
  destruct (Hno n Hin) as [H44 H128]. specialize (Hb n Hin). cbn beta in Hb.
  assert (Hn : Byte.to_N c = n).
  { rewrite Hc, to_N_byte_of_N, N.mod_small by exact Hb. reflexivity. }
  split.
  - intros ->. apply H44. rewrite <- Hn. reflexivity.
  - unfold is_ascii. rewrite Hn. apply N.ltb_lt. exact H128.
Qed.

Lemma b64encode_no_comma (data : list byte) : ","%byte ∉ b64encode data.
Proof. intros Hin. destruct (b64encode_plain data _ Hin) as [H _]. congruence. Qed.

Lemma b64encode_ascii (data : list byte) : forallb is_ascii (b64encode data) = true.
Proof.
  apply forallb_forall. intros c Hc. apply list_elem_of_In in Hc.
  exact (proj2 (b64encode_plain data c Hc)).
Qed.

Lemma split_comma_no_comma (s cur : list byte) :
  ","%byte ∉ s -> split_comma cur s = [cur ++ s].
Proof.
  revert cur. induction s as [|c s IH]; intros cur Hno; cbn [split_comma].
  - rewrite app_nil_r. reflexivity.
  - destruct (Byte.eqb c ","%byte) eqn:Hc.
    + apply Byte.byte_dec_bl in Hc. subst c. exfalso. apply Hno. left.
    + rewrite IH by (intros H; apply Hno; right; exact H).
      rewrite <- app_assoc. reflexivity.
Qed.

Lemma split_comma_first (p rest cur : list byte) :
  ","%byte ∉ p ->
  split_comma cur (p ++ ","%byte :: rest) = (cur ++ p) :: split_comma [] rest.
Proof.
  revert cur. induction p as [|c p IH]; intros cur Hno; cbn [split_comma app].
  - rewrite app_nil_r. reflexivity.
  - destruct (Byte.eqb c ","%byte) eqn:Hc.
    + apply Byte.byte_dec_bl in Hc. subst c. exfalso. apply Hno. left.
    + rewrite IH by (intros H; apply Hno; right; exact H).
      rewrite <- app_assoc. reflexivity.
Qed.

(** X13. [decode_image] gives back the bytes of an image sent as base64, bare
    or as a data URI whose header (what precedes the first comma) is
    dropped. *)
Theorem decode_image_inverts_b64encode (header image_bytes : list byte) :
  ","%byte ∉ header ->
  face_decode_image (decode_utf8 (b64encode image_bytes)) = inr image_bytes /\
  face_decode_image (decode_utf8 (header ++ ","%byte :: b64encode image_bytes))
  = inr image_bytes.
Proof.
  intros Hno. unfold face_decode_image. cbv zeta. rewrite !encode_decode_utf8. split.
  - rewrite split_comma_no_comma by apply b64encode_no_comma.
    cbn [app]. rewrite b64encode_ascii, b64decode_b64encode. reflexivity.
  - rewrite split_comma_first by exact Hno.
    rewrite split_comma_no_comma by apply b64encode_no_comma.
    cbn [app]. rewrite b64encode_ascii, b64decode_b64encode. reflexivity.
Qed.

End DecodeImage.

Lemma decode_image_inverts_b64encode_png :
  face_decode_image
    (decode_utf8 (encode_utf8 "data:image/png;base64" ++ ","%byte :: b64encode ["137"%byte]))
  = inr ["137"%byte].
Proof.
  assert (Hno : ","%byte ∉ encode_utf8 "data:image/png;base64").
  { vm_compute. intros H. repeat (apply elem_of_cons in H as [H|H]; [discriminate|]).
    inversion H. }
  exact (proj2 (decode_image_inverts_b64encode _ ["137"%byte] Hno)).
Defined.

(** * Properties of the voting endpoints *)

Section Tracker.
Context {score : Type}.

(** X14. [clean_expired_tokens] removes exactly the entries whose expiry is
    before now: the others keep their expiry, and no row is touched. *)
Theorem clean_expired_tokens_lookup (now : Z) (s : State score) (token : string) :
  let s' := snd (clean_expired_tokens now s) in
  used_tokens s' !! token
    = match used_tokens s !! token with
      | Some exp_time => if exp_time <? now then None else Some exp_time
      | None => None
      end /\
  committed s' = committed s /\ pending s' = pending s.
Proof.
  cbn. split; [|auto].
  destruct (used_tokens s !! token) as [e|] eqn:He.
  - destruct (Z.ltb_spec e now) as [Hlt|Hge].
    + apply map_lookup_filter_None. right. intros x Hx. cbn. rewrite He in Hx.
      injection Hx as <-. lia.
    + apply map_lookup_filter_Some. split; [exact He|cbn; lia].
  - apply map_lookup_filter_None. left. exact He.
Qed.

(** X15. The election a successful authentication issues its token for: an
    active one with the latest creation time; there is none exactly when
    no election is active. *)
Theorem active_election_latest (es : list Election.t) :
  match active_election es with
  | Some e =>
      e ∈ es /\ Election.status e = "active" /\
      forall e', e' ∈ es -> Election.status e' = "active" ->
                 Election.created_at e' <= Election.created_at e
  | None => forall e, e ∈ es -> Election.status e <> "active"
  end.
Proof.
  induction es as [|e0 es IH]; cbn [active_election].
  - intros e He. inversion He.
  - destruct (String.eqb_spec (Election.status e0) "active") as [Ha|Hna];
      destruct (active_election es) as [e1|].
    + destruct IH as (Hin & Hact & Hmax).
      destruct (Z.ltb_spec (Election.created_at e0) (Election.created_at e1)).
      * split; [right; exact Hin|]. split; [exact Hact|].
        intros e' He' Ha'. apply elem_of_cons in He' as [->|He']; [lia|auto].
      * split; [left|]. split; [exact Ha|].
        intros e' He' Ha'. apply elem_of_cons in He' as [->|He']; [lia|].
        specialize (Hmax e' He' Ha'). lia.
    + split; [left|]. split; [exact Ha|].
      intros e' He' Ha'. apply elem_of_cons in He' as [->|He']; [lia|].
      exfalso. exact (IH e' He' Ha').
    + destruct IH as (Hin & Hact & Hmax).
      split; [right; exact Hin|]. split; [exact Hact|].
      intros e' He' Ha'. apply elem_of_cons in He' as [->|He']; [contradiction|auto].
    + intros e' He'. apply elem_of_cons in He' as [->|He']; [exact Hna|auto].
Qed.

End Tracker.

(** * Properties of the authentication endpoints *)

Lemma active_election_elem (es : list Election.t) (e : Election.t) :
  active_election es = Some e -> e ∈ es.
Proof.
  revert e. induction es as [|e0 es IH]; intros e; cbn [active_election]; [discriminate|].
  destruct (String.eqb (Election.status e0) "active"), (active_election es) as [e1|].
  - destruct (Election.created_at e0 <? Election.created_at e1); intros [= <-].
    + right. apply IH. reflexivity.
    + left.
  - intros [= <-]. left.
  - intros [= <-]. right. apply IH. reflexivity.
  - discriminate.
Qed.

Section Authentication.
Context {score : Type}.
Variable settings : Settings.
Variable pg : Postgres.
Variable blockchain_service : BlockchainService.
Variable svc : BiometricService score.

(** What a successful authentication did. *)
Lemma authenticate_Return (method : AuthMethod)
    (voter_id sample ip session_id : string) (now : Z) (s s' : State score)
    (resp : AuthResponse) :
  request (authenticate settings pg svc method voter_id sample ip session_id now) s
    = (Return resp, s') ->
  exists voter c election sc voter',
    voters (committed s) !! voter_id = Some voter /\
    constituencies (committed s) !! Voter.constituency_id voter = Some c /\
    Voter.has_voted voter = false /\
    Voter.failed_auth_count voter < MAX_AUTH_ATTEMPTS settings /\
    accepts svc method voter sample sc /\
    active_election (elections (committed s)) = Some election /\
    resp = mkAuthResponse
             (create_voting_session_token settings voter_id (Election.id_ election)
                (Voter.constituency_id voter) session_id now)
             300 (Voter.constituency_id voter) (Voter.full_name voter)
             (Constituency.name c) session_id /\
    voters (committed s') !! voter_id = Some voter' /\
    Voter.has_voted voter' = false /\
    Voter.locked_out voter' = false /\
    Voter.failed_auth_count voter' = 0 /\
    auth_attempts (committed s')
      = auth_attempts (committed s)
        ++ (if inet_in pg ip
            then [AuthAttempt.mk (Some (Voter.id_ voter)) method SUCCESS None (Some sc) ip now]
            else []) /\
    pending s' = committed s' /\
    used_tokens s' = used_tokens s.
Proof.
  unfold request, authenticate, log_auth_attempt, try_except, close, accepts. unfold_M.
  destruct (voters (committed s) !! voter_id) as [voter|] eqn:Hv; cbn;
    [|intros H; repeat (case_match; simplify_eq/=)].
  destruct (constituencies (committed s) !! Voter.constituency_id voter) as [c|] eqn:Hc;
    cbn; [|intros H; repeat (case_match; simplify_eq/=)].
  intros H.
  repeat (case_match; simplify_eq/=).
  all: exists voter, c; eexists _, _, _.
  all: rewrite ?lookup_alter_eq, ?Hv; cbn.
  all: repeat split; try reflexivity; try eassumption; try lia; eauto.
  all: try (rewrite app_nil_r; reflexivity).
  all: destruct b; [|discriminate]; eexists _, _; eauto.
Qed.

(** X16. A successful authentication resets the failure counter of the voter,
    leaves the account unlocked and answers with a session that lasts 300
    seconds; it logs one SUCCESS attempt when the client address is one
    that the INET column reads, and no attempt otherwise. *)
Theorem successful_authentication_resets_counter (method : AuthMethod)
    (voter_id sample ip session_id : string) (now : Z) (s s' : State score)
    (resp : AuthResponse) :
  request (authenticate settings pg svc method voter_id sample ip session_id now) s
    = (Return resp, s') ->
  expires_in resp = 300 /\
  ar_session_id resp = session_id /\
  (exists voter',
     voters (committed s') !! voter_id = Some voter' /\
     Voter.failed_auth_count voter' = 0 /\
     Voter.locked_out voter' = false) /\
  (exists attempt,
     auth_attempts (committed s')
       = auth_attempts (committed s) ++ (if inet_in pg ip then [attempt] else []) /\
     AuthAttempt.outcome attempt = SUCCESS /\
     AuthAttempt.auth_method attempt = method /\
     AuthAttempt.ip_address attempt = ip /\
     AuthAttempt.attempted_at attempt = now).
Proof.
  intros H. apply authenticate_Return in H
    as (voter & c & election & sc & voter' & Hv & Hc & Hhv & Hcount & Hacc & Hel & ->
        & Hv' & Hhv' & Hlo' & Hcount' & Hlog & Hp & Hu).
  cbn. repeat split.
  - exists voter'. auto.
  - eexists. split; [exact Hlog|]. cbn. auto.
Qed.

(** X17. The token of a successful authentication is accepted by
    [get_current_session], in the state the authentication left, at every
    time up to 300 seconds later; the session data are the voter id, the
    constituency of the answer and the session id of the request.  The
    identifiers are not empty. *)
Theorem issued_token_is_accepted (method : AuthMethod)
    (voter_id sample ip session_id : string) (now t : Z) (s s' : State score)
    (resp : AuthResponse) :
  request (authenticate settings pg svc method voter_id sample ip session_id now) s
    = (Return resp, s') ->
  voter_id <> "" -> session_id <> "" -> ar_constituency_id resp <> "" ->
  Forall (fun e => Election.id_ e <> "") (elections (committed s)) ->
  t <= now + 300 ->
  exists election_id,
    get_current_session settings (auth_token resp) t s'
    = (Return (mkSessionData voter_id election_id (ar_constituency_id resp) session_id), s').
Proof.
  intros H Hvid Hsid Hcid Hels Ht. apply authenticate_Return in H
    as (voter & c & election & sc & voter' & Hv & Hc & Hhv & Hcount & Hacc & Hel & ->
        & Hv' & Hhv' & Hlo' & Hcount' & Hlog & Hp & Hu).
  cbn in Hcid. exists (Election.id_ election).
  assert (Heid : Election.id_ election <> "").
  { rewrite Forall_forall in Hels. exact (Hels _ (active_election_elem _ _ Hel)). }
  unfold get_current_session, create_voting_session_token, jwt_encode, jwt_decode.
  cbn [auth_token alg payload signed_with Claims.exp Claims.type Claims.voter_id
       Claims.election_id Claims.constituency_id Claims.session_id].
  rewrite bool_decide_eq_true_2 by (apply list_elem_of_singleton; reflexivity).
  rewrite bool_decide_eq_true_2 by reflexivity. cbn [negb].
  destruct (Z.ltb_spec (now + minutes 5) t) as [Hexp|_]; [unfold minutes in Hexp; lia|].
  rewrite bool_decide_eq_true_2 by reflexivity. cbn [negb truthy].
  unfold_M.
  rewrite (proj2 (String.eqb_neq voter_id "") Hvid),
    (proj2 (String.eqb_neq (Election.id_ election) "") Heid),
    (proj2 (String.eqb_neq (Voter.constituency_id voter) "") Hcid),
    (proj2 (String.eqb_neq session_id "") Hsid).
  cbn. rewrite Hp, Hv'. cbn. rewrite Hhv', Hlo'. reflexivity.
Qed.

(** X18. A voting-session token is refused with 401 once more than 300
    seconds have passed since it was issued, whatever the rows say. *)
Theorem voting_session_token_expires
    (voter_id election_id constituency_id session_id : string) (now t : Z)
    (s : State score) :
  now + 300 < t ->
  get_current_session settings
    (create_voting_session_token settings voter_id election_id constituency_id session_id now)
    t s
  = (Raise credentials_exception, s).
Proof.
  intros Ht.
  unfold get_current_session, create_voting_session_token, jwt_encode, jwt_decode.
  cbn [alg payload signed_with Claims.exp].
  rewrite bool_decide_eq_true_2 by (apply list_elem_of_singleton; reflexivity).
  rewrite bool_decide_eq_true_2 by reflexivity. cbn [negb].
  destruct (Z.ltb_spec (now + minutes 5) t) as [_|Hexp]; [|unfold minutes in Hexp; lia].
  reflexivity.
Qed.

(** X31. When the service cannot decode the sample or finds no usable
    features in it, the request answers 500 "Authentication failed", not
    400 with the message of the service: the router's clause
    [except BiometricAuthError] names the class of
    [app/services/biometric/__init__.py], the services raise the class of
    [face.py], and the exception ends in the last handler.  The voter's
    counter is not incremented and no attempt is logged. *)
Theorem service_error_answers_500 (method : AuthMethod)
    (voter_id sample ip session_id : string) (now : Z) (s : State score)
    (voter : Voter.t) (c : Constituency.t) :
  voters (committed s) !! voter_id = Some voter ->
  constituencies (committed s) !! Voter.constituency_id voter = Some c ->
  Voter.has_voted voter = false ->
  Voter.locked_out voter = false ->
  Voter.failed_auth_count voter < MAX_AUTH_ATTEMPTS settings ->
  ((exists e, decode_image svc sample = inl e) \/
   (exists img e, decode_image svc sample = inr img /\ get_embedding svc img = inl e)) ->
  request (authenticate settings pg svc method voter_id sample ip session_id now) s
  = (Raise (mkHTTP 500 "Authentication failed. Please try again."), close s).
Proof.
  intros Hv Hc Hhv Hlo Hcount Herr.
  unfold request, authenticate, try_except at 1, close. unfold_M.
  rewrite Hv. cbn. rewrite Hc. cbn. rewrite Hhv, Hlo. cbn.
  destruct (Z.leb_spec (MAX_AUTH_ATTEMPTS settings) (Voter.failed_auth_count voter)); [lia|].
  destruct Herr as [[e He]|(img & e & Himg & He)].
  - rewrite He. reflexivity.
  - rewrite Himg, He. reflexivity.
Qed.

(** X20. A voter who has voted cannot authenticate again: 409 whatever the
    sample, with the row unchanged; one FAILURE attempt is logged when the
    client address is one that the INET column reads, and nothing is
    written otherwise. *)
Theorem authenticate_after_voting (method : AuthMethod)
    (voter_id sample ip session_id : string) (now : Z) (s : State score)
    (voter : Voter.t) (c : Constituency.t) :
  voters (committed s) !! voter_id = Some voter ->
  constituencies (committed s) !! Voter.constituency_id voter = Some c ->
  Voter.has_voted voter = true ->
  let attempt := AuthAttempt.mk (Some (Voter.id_ voter)) method FAILURE (Some "Already voted")
                   None ip now in
  let d := if inet_in pg ip then insert_auth_attempt attempt (committed s)
           else committed s in
  request (authenticate settings pg svc method voter_id sample ip session_id now) s
  = (Raise (mkHTTP 409 "You have already cast your vote in this election."),
     mkState d d (used_tokens s)).
Proof.
  intros Hv Hc Hhv attempt d.
  unfold request, authenticate, try_except at 1, close. unfold_M.
  rewrite Hv. cbn. rewrite Hc. cbn. rewrite Hhv. cbn.
  rewrite log_auth_attempt_clean. cbn. rewrite Hv. reflexivity.
Qed.

End Authentication.

(** * Properties of [cast_vote] *)

Definition is_authentication (r : Request) : bool :=
  match r with
  | CastVote _ _ _ _ => false
  | _ => true
  end.

(** The transaction hash as [cast_vote] stores it. *)
Definition with_0x (tx_hash : string) : string :=
  if String.prefix "0x" tx_hash then tx_hash else "0x" +:+ tx_hash.

(** The candidate can receive the vote of the session. *)
Definition eligible {score} (d : DB score) (sd : SessionData) (candidate_id : string) : bool :=
  match candidates d !! candidate_id with
  | Some c =>
      String.eqb (Candidate.election_id c) (sd_election_id sd)
      && Candidate.is_active c
      && String.eqb (Candidate.constituency_id c) (sd_constituency_id sd)
  | None => false
  end.

Section Casting.
Context {score : Type}.
Variable settings : Settings.
Variable pg : Postgres.
Variable blockchain_service : BlockchainService.

Lemma with_0x_prefix (tx_hash : string) : String.prefix "0x" (with_0x tx_hash) = true.
Proof.
  unfold with_0x. destruct (String.prefix "0x" tx_hash) eqn:H; [exact H|].
  cbn. destruct tx_hash; reflexivity.
Qed.

(** What an accepted [cast_vote] found and what the ledger answered. *)
Lemma cast_vote_Return (sd : SessionData) (candidate_id : string)
    (ledger : string -> Z -> Z -> LedgerReply) (now : Z) (s s' : State score)
    (resp : VoteResponse) :
  cast_vote pg blockchain_service sd candidate_id ledger now s = (Return resp, s') ->
  exists voter candidate constituency tx_hash block_number gas_used,
    voters (pending s) !! sd_voter_id sd = Some voter /\
    candidates (pending s) !! candidate_id = Some candidate /\
    constituencies (pending s) !! sd_constituency_id sd = Some constituency /\
    eligible (pending s) sd candidate_id = true /\
    ledger (Voter.blockchain_voter_id voter) (Candidate.on_chain_id candidate)
           (Constituency.on_chain_id constituency)
      = Receipt tx_hash block_number gas_used /\
    resp = mkVoteResponse (with_0x tx_hash) block_number now /\
    let d := committed_vote (pending s) (sd_voter_id sd) candidate_id voter
               (sd_election_id sd) (sd_session_id sd) (with_0x tx_hash)
               block_number gas_used now in
    s' = mkState d d
           (filter (fun kv => ~ (kv.2 < now))
              (<[sd_session_id sd := now + minutes 10]> (used_tokens s))).
Proof.
  unfold cast_vote, select_candidate, get_used_tokens, try_except, insert_vote_submission,
    add_blockchain_tx, mark_used, clean_expired_tokens, eligible, with_0x. unfold_M.
  destruct (bool_decide (is_Some (used_tokens s !! sd_session_id sd))); [discriminate|].
  destruct (voters (pending s) !! sd_voter_id sd) as [voter|] eqn:Hv; cbn; [|discriminate].
  destruct (Voter.has_voted voter); [discriminate|].
  destruct (Voter.locked_out voter); [discriminate|].
  destruct (candidates (pending s) !! candidate_id) as [cand|] eqn:Hcand; cbn;
    [|intros H; repeat (case_match; simplify_eq/=)].
  destruct (String.eqb (Candidate.election_id cand) (sd_election_id sd)); cbn;
    [|intros H; repeat (case_match; simplify_eq/=)].
  destruct (Candidate.is_active cand); cbn; [|discriminate].
  destruct (String.eqb (Candidate.constituency_id cand) (sd_constituency_id sd)); cbn;
    [|discriminate].
  destruct (constituencies (pending s) !! sd_constituency_id sd) as [k|] eqn:Hk; cbn;
    [|discriminate].
  destruct (ledger _ _ _) as [h blk gas|msg] eqn:Hl; cbn; [|discriminate].
  intros H. exists voter, cand, k, h, blk, gas.
  repeat (case_match; simplify_eq/=); auto 10.
Qed.

(** X21. An accepted vote is for a candidate that is active and belongs to the
    election and the constituency of the session; the answer carries the
    transaction hash of the ledger's receipt, with the prefix 0x, and
    that hash is what the submission row, the voter's row and the
    transaction log record, in one commit, with the session id marked
    used for ten minutes. *)
Theorem accepted_vote_is_eligible_and_recorded
    (credentials : Credentials) (candidate_id : string)
    (ledger : string -> Z -> Z -> LedgerReply) (now : Z) (s s' : State score)
    (resp : VoteResponse) :
  request (post_cast settings pg blockchain_service credentials candidate_id ledger now) s = (Return resp, s') ->
  exists sd voter,
    get_current_session settings credentials now (close s) = (Return sd, close s) /\
    voters (committed s) !! sd_voter_id sd = Some voter /\
    eligible (committed s) sd candidate_id = true /\
    String.prefix "0x" (vr_tx_hash resp) = true /\
    vr_timestamp resp = now /\
    (exists gas_used,
       committed s' = committed_vote (committed s) (sd_voter_id sd) candidate_id voter
                        (sd_election_id sd) (sd_session_id sd) (vr_tx_hash resp)
                        (vr_block_number resp) gas_used now) /\
    pending s' = committed s' /\
    used_tokens s' !! sd_session_id sd = Some (now + 600).
Proof.
  unfold request, post_cast. unfold mbind, M_bind.
  pose proof (get_current_session_reads settings credentials now (close s)) as [Hs Hnt].
  destruct (get_current_session settings credentials now (close s)) as [[sd|e|msg] s0] eqn:Hg;
    cbn in Hs; subst s0.
  2: { intros [= ]. }
  2: { intros [= ]. }
  destruct (cast_vote pg blockchain_service sd candidate_id ledger now (close s)) as [r s1] eqn:Hc.
  intros [= -> <-].
  apply cast_vote_Return in Hc
    as (voter & cand & k & h & blk & gas & Hv & Hcand & Hk & Hel & Hl & -> & ->).
  exists sd, voter. cbn in *.
  split; [reflexivity|]. split; [exact Hv|]. split; [exact Hel|].
  split; [apply with_0x_prefix|]. split; [reflexivity|].
  split; [exists gas; reflexivity|]. split; [reflexivity|].
  apply map_lookup_filter_Some. split.
  - apply lookup_insert_eq.
  - cbn. unfold minutes. lia.
Qed.


(** X23. When the ledger has accepted the vote but the submission row cannot
    be inserted (the transaction hash or the pair of voter and election is
    already there), [cast_vote] answers 500 and rolls back: the voter is not
    marked as having voted and the session id is not marked used. *)
Theorem cast_vote_rolls_back_on_duplicate
    (sd : SessionData) (candidate_id : string)
    (ledger : string -> Z -> Z -> LedgerReply) (now : Z) (s : State score)
    (voter : Voter.t) (candidate : Candidate.t) (constituency : Constituency.t)
    (tx_hash : string) (block_number gas_used : Z) :
  used_tokens s !! sd_session_id sd = None ->
  voters (pending s) !! sd_voter_id sd = Some voter ->
  Voter.has_voted voter = false ->
  Voter.locked_out voter = false ->
  candidates (pending s) !! candidate_id = Some candidate ->
  eligible (pending s) sd candidate_id = true ->
  constituencies (pending s) !! sd_constituency_id sd = Some constituency ->
  ledger (Voter.blockchain_voter_id voter) (Candidate.on_chain_id candidate)
         (Constituency.on_chain_id constituency)
    = Receipt tx_hash block_number gas_used ->
  violates_unique
    (VoteSubmission.mk (Voter.id_ voter) (sd_election_id sd) (sd_session_id sd)
       (with_0x tx_hash) block_number gas_used now)
    (vote_submissions (pending s)) = true ->
  cast_vote pg blockchain_service sd candidate_id ledger now s
  = (Raise (mkHTTP 500 "Failed to cast vote. Please try again."),
     mkState (committed s) (committed s) (used_tokens s)).
Proof.
  intros Hfresh Hv Hhv Hlo Hcand Hel Hk Hl Hdup. unfold eligible in Hel.
  rewrite Hcand in Hel.
  apply andb_prop in Hel as [Hel H3]. apply andb_prop in Hel as [H1 H2].
  unfold cast_vote, select_candidate, get_used_tokens, try_except, insert_vote_submission. unfold_M.
  rewrite Hfresh. cbn. rewrite Hv. cbn. rewrite Hhv, Hlo.
  rewrite Hcand. cbn. rewrite H1. cbn. rewrite H2, H3. cbn. rewrite Hk. cbn.
  rewrite Hl. cbn. unfold with_0x in Hdup.
  destruct (uuid_in pg (sd_session_id sd)); cbn; [rewrite Hdup|]; reflexivity.
Qed.

(** X32. When the VotingBooth contract was not loaded at start-up, a vote
    that the ledger has accepted is not recorded: building the row of
    [blockchain_txns] reads [blockchain_service.voting_booth.address] and
    raises, [cast_vote] answers 500 and rolls back the submission row and
    the voter's flag, and the session id is not marked used. *)
Theorem cast_vote_without_voting_booth
    (sd : SessionData) (candidate_id : string)
    (ledger : string -> Z -> Z -> LedgerReply) (now : Z) (s : State score)
    (voter : Voter.t) (candidate : Candidate.t) (constituency : Constituency.t)
    (tx_hash : string) (block_number gas_used : Z) :
  voting_booth blockchain_service = None ->
  used_tokens s !! sd_session_id sd = None ->
  voters (pending s) !! sd_voter_id sd = Some voter ->
  Voter.has_voted voter = false ->
  Voter.locked_out voter = false ->
  candidates (pending s) !! candidate_id = Some candidate ->
  eligible (pending s) sd candidate_id = true ->
  constituencies (pending s) !! sd_constituency_id sd = Some constituency ->
  ledger (Voter.blockchain_voter_id voter) (Candidate.on_chain_id candidate)
         (Constituency.on_chain_id constituency)
    = Receipt tx_hash block_number gas_used ->
  cast_vote pg blockchain_service sd candidate_id ledger now s
  = (Raise (mkHTTP 500 "Failed to cast vote. Please try again."),
     mkState (committed s) (committed s) (used_tokens s)).
Proof.
  intros Hbooth Hfresh Hv Hhv Hlo Hcand Hel Hk Hl. unfold eligible in Hel.
  rewrite Hcand in Hel.
  apply andb_prop in Hel as [Hel H3]. apply andb_prop in Hel as [H1 H2].
  unfold cast_vote, select_candidate, get_used_tokens, try_except, insert_vote_submission.
  unfold_M.
  rewrite Hfresh. cbn. rewrite Hv. cbn. rewrite Hhv, Hlo.
  rewrite Hcand. cbn. rewrite H1. cbn. rewrite H2, H3. cbn. rewrite Hk. cbn.
  rewrite Hl. cbn.
  destruct (uuid_in pg (sd_session_id sd)); cbn; [|reflexivity].
  rewrite Hbooth.
  destruct (violates_unique _ _); reflexivity.
Qed.

End Casting.

Section Runs.
Context {score : Type}.
Variable settings : Settings.
Variable pg : Postgres.
Variable blockchain_service : BlockchainService.
Variable face_service : BiometricService score.
Variable fingerprint_service : option (BiometricService score).

Lemma authentication_step_keeps_votes (s : State score) (r : Request) :
  is_authentication r = true ->
  let s' := step settings pg blockchain_service face_service fingerprint_service s r in
  same_ballots (committed s) (committed s') /\ used_tokens s' = used_tokens s.
Proof.
  intros Hr. destruct r as [v img ip sid now|v tpl ip sid now|]; [| |discriminate];
    cbn [step].
  - unfold authenticate_with_face.
    pose proof (authenticate_same_ballots settings pg face_service FACE v img ip sid now s)
      as (H1 & _ & H3).
    auto.
  - unfold authenticate_with_fingerprint. destruct fingerprint_service as [svc|].
    + pose proof (authenticate_same_ballots settings pg svc FINGERPRINT v tpl ip sid now s)
        as (H1 & _ & H3).
      auto.
    + cbn. split; [apply same_ballots_refl|reflexivity].
Qed.

(** What the throttle does to the rows of the other voters: nothing. *)
Lemma authenticate_other_rows (svc : BiometricService score) (method : AuthMethod)
    (v sample ip session_id : string) (now : Z) (s : State score) (k : string) :
  v <> k ->
  voters (committed (snd (request (authenticate settings pg svc method v sample ip
                                     session_id now) s))) !! k
  = voters (committed s) !! k.
Proof.
  intros Hne. unfold request, authenticate, log_auth_attempt, try_except, close. unfold_M.
  repeat (case_match; simplify_eq/=).
  all: rewrite ?lookup_alter_ne by assumption; reflexivity.
Qed.

(** An attempt of a voter whose row is locked with a lockout instant
    raises and leaves the row as it is. *)
Lemma authenticate_locked_row (svc : BiometricService score) (method : AuthMethod)
    (voter_id sample ip session_id : string) (now lockout_time : Z) (s : State score)
    (voter : Voter.t) :
  voters (committed s) !! voter_id = Some voter ->
  Voter.locked_out voter = true ->
  Voter.lockout_at voter = Some lockout_time ->
  let r := request (authenticate settings pg svc method voter_id sample ip session_id now) s in
  (exists e, fst r = Raise e) /\
  voters (committed (snd r)) !! voter_id = Some voter.
Proof.
  intros Hv Hlo Hat.
  assert (H : exists e d,
            request (authenticate settings pg svc method voter_id sample ip session_id now) s
            = (Raise e, mkState d d (used_tokens s)) /\
            voters d !! voter_id = Some voter).
  { unfold request, authenticate, try_except at 1, close. unfold_M.
    rewrite Hv. cbn.
    destruct (constituencies (committed s) !! Voter.constituency_id voter) as [c|]; cbn.
    - destruct (Voter.has_voted voter); cbn.
      + rewrite log_auth_attempt_clean. cbn [fst snd committed].
        eexists _, _. split; [reflexivity|]. rewrite voters_logged. exact Hv.
      + rewrite Hlo, Hat. cbn. eexists _, _. split; [reflexivity|]. exact Hv.
    - rewrite log_auth_attempt_clean. cbn [fst snd committed].
      eexists _, _. split; [reflexivity|]. rewrite voters_logged. exact Hv. }
  destruct H as (e & d & -> & Hd). cbn. eauto.
Qed.

Lemma step_keeps_locked_row (s : State score) (r : Request)
    (voter_id : string) (voter : Voter.t) (lockout_time : Z) :
  voters (committed s) !! voter_id = Some voter ->
  Voter.locked_out voter = true ->
  Voter.lockout_at voter = Some lockout_time ->
  voters (committed (step settings pg blockchain_service face_service fingerprint_service s r))
    !! voter_id = Some voter.
Proof.
  intros Hv Hlo Hat.
  destruct r as [v img ip sid now|v tpl ip sid now|c cand ledger now]; cbn [step].
  - unfold authenticate_with_face. destruct (decide (v = voter_id)) as [->|Hne].
    + apply (authenticate_locked_row face_service FACE voter_id img ip sid now lockout_time s
               voter Hv Hlo Hat).
    + rewrite authenticate_other_rows by assumption. exact Hv.
  - unfold authenticate_with_fingerprint. destruct fingerprint_service as [svc|]; [|exact Hv].
    destruct (decide (v = voter_id)) as [->|Hne].
    + apply (authenticate_locked_row svc FINGERPRINT voter_id tpl ip sid now lockout_time s
               voter Hv Hlo Hat).
    + rewrite authenticate_other_rows by assumption. exact Hv.
  - pose proof (post_cast_outcomes settings pg blockchain_service c cand ledger now s) as H.
    cbn zeta in H.
    destruct H as [(sd & tok & voter0 & tx & blk & gas & _ & _ & _ & _ & _ & _ & _ & _
                    & Hv0 & _ & Hlo0 & Hs)|[_ Hs]]; rewrite Hs; cbn; [|exact Hv].
    destruct (decide (sd_voter_id sd = voter_id)) as [E|Hne].
    + rewrite E, Hv in Hv0. injection Hv0 as <-. congruence.
    + rewrite lookup_alter_ne by assumption. exact Hv.
Qed.

(** X19. The lock of the throttle is never lifted by the endpoints: once
    a voter's row has [locked_out] set and a lockout instant, the row
    stays as it is through every sequence of authentication and cast
    requests, however much time passes, and every later authentication
    attempt of that voter raises, whatever the sample.  (The branch that
    would reset the row after the lockout duration comes after the
    comparison of a naive with an aware datetime, which raises.) *)
Theorem locked_voter_stays_locked (rs : list Request) (s : State score)
    (voter_id : string) (voter : Voter.t) (lockout_time : Z) :
  voters (committed s) !! voter_id = Some voter ->
  Voter.locked_out voter = true ->
  Voter.lockout_at voter = Some lockout_time ->
  let s' := run settings pg blockchain_service face_service fingerprint_service s rs in
  voters (committed s') !! voter_id = Some voter /\
  forall svc method sample ip session_id now,
    let r := request (authenticate settings pg svc method voter_id sample ip session_id now)
               s' in
    (exists e, fst r = Raise e) /\
    voters (committed (snd r)) !! voter_id = Some voter.
Proof.
  intros Hv Hlo Hat. cbn zeta.
  assert (Hrun : voters (committed (run settings pg blockchain_service face_service
                                      fingerprint_service s rs)) !! voter_id = Some voter).
  { revert s Hv. unfold run. induction rs as [|r rs IH]; intros s Hv; cbn [fold_left].
    - exact Hv.
    - apply IH. exact (step_keeps_locked_row s r voter_id voter lockout_time Hv Hlo Hat). }
  split; [exact Hrun|].
  intros svc method sample ip session_id now.
  exact (authenticate_locked_row svc method voter_id sample ip session_id now lockout_time _
           voter Hrun Hlo Hat).
Qed.

(** X24. However many authentication requests are served, and whatever their
    outcome, no ballot is touched: the submission rows, every voter's
    [has_voted] flag and the used session ids stay as they were. *)
Theorem authentication_never_touches_ballots (rs : list Request) (s : State score) :
  Forall (fun r => is_authentication r = true) rs ->
  let s' := run settings pg blockchain_service face_service fingerprint_service s rs in
  vote_submissions (committed s') = vote_submissions (committed s) /\
  (forall voter_id,
     Voter.has_voted <$> voters (committed s') !! voter_id
     = Voter.has_voted <$> voters (committed s) !! voter_id) /\
  used_tokens s' = used_tokens s.
Proof.
  intros Hrs. cbn zeta. revert s. unfold run.
  induction Hrs as [|r rs Hr _ IH]; intros s; cbn [fold_left].
  - auto.
  - destruct (IH (step settings pg blockchain_service face_service fingerprint_service s r)) as (I1 & I2 & I3).
    destruct (authentication_step_keeps_votes s r Hr) as ([S1 S2] & S3).
    rewrite I1, I3, S1, S3. repeat split.
    intros k. rewrite I2. specialize (S2 k).
    destruct (voters (committed (step settings pg blockchain_service face_service fingerprint_service s r)) !! k),
      (voters (committed s) !! k); cbn in *; congruence.
Qed.

End Runs.

(** * The polling station again: instances of the endpoint properties *)

(** Alice authenticates with her face at time 1000. *)
Definition alice_login_response : AuthResponse :=
  mkAuthResponse alice_token 300 north "Alice" "North" session_1.
Definition after_alice_login : State Z :=
  snd (request (authenticate default_settings station_pg stub_service FACE
                  "V1" "face-a" "10.0.0.1" session_1 1000) station).

Lemma alice_login :
  request (authenticate default_settings station_pg stub_service FACE
             "V1" "face-a" "10.0.0.1" session_1 1000) station
  = (Return alice_login_response, after_alice_login).
Proof. vm_compute. reflexivity. Qed.

Lemma successful_authentication_resets_counter_at_station :
  expires_in alice_login_response = 300 /\
  ar_session_id alice_login_response = session_1 /\
  (exists voter',
     voters (committed after_alice_login) !! "V1" = Some voter' /\
     Voter.failed_auth_count voter' = 0 /\
     Voter.locked_out voter' = false) /\
  (exists attempt,
     auth_attempts (committed after_alice_login)
       = auth_attempts (committed station)
         ++ (if inet_in station_pg "10.0.0.1" then [attempt] else []) /\
     AuthAttempt.outcome attempt = SUCCESS /\
     AuthAttempt.auth_method attempt = FACE /\
     AuthAttempt.ip_address attempt = "10.0.0.1" /\
     AuthAttempt.attempted_at attempt = 1000).
Proof.
  exact (successful_authentication_resets_counter default_settings station_pg stub_service FACE
           "V1" "face-a" "10.0.0.1" session_1 1000 station after_alice_login
           alice_login_response alice_login).
Defined.

Lemma issued_token_is_accepted_at_station :
  exists election_id,
    get_current_session default_settings (auth_token alice_login_response) 1300
      after_alice_login
    = (Return (mkSessionData "V1" election_id (ar_constituency_id alice_login_response)
                 session_1),
       after_alice_login).
Proof.
  assert (H1 : "V1" <> "") by discriminate.
  assert (H2 : session_1 <> "") by discriminate.
  assert (H3 : ar_constituency_id alice_login_response <> "") by discriminate.
  assert (H4 : Forall (fun e => Election.id_ e <> "") (elections (committed station))).
  { repeat constructor; discriminate. }
  assert (H5 : 1300 <= 1000 + 300) by lia.
  exact (issued_token_is_accepted default_settings station_pg stub_service FACE
           "V1" "face-a" "10.0.0.1" session_1 1000 1300 station after_alice_login
           alice_login_response alice_login H1 H2 H3 H4 H5).
Defined.

Lemma voting_session_token_expires_at_station :
  get_current_session default_settings
    (create_voting_session_token default_settings "V1" election_1 north session_1 1000) 1301 station
  = (Raise credentials_exception, station).
Proof.
  assert (H : 1000 + 300 < 1301) by lia.
  exact (voting_session_token_expires default_settings "V1" election_1 north session_1 1000 1301
           station H).
Defined.

(** Locked at 130, Alice is still locked after a day of further requests,
    and her matching sample is still refused then. *)
Lemma locked_voter_stays_locked_at_station :
  voters (committed (run default_settings station_pg station_chain stub_service None locked
                       [AuthenticateFace "V1" "face-a" "10.0.0.1" session_5 1930;
                        CastVote alice_token candidate_1 (ledger_ok "0xabc") 1940;
                        AuthenticateFace "V2" "face-b" "10.0.0.1" session_2 1950;
                        AuthenticateFace "V1" "face-a" "10.0.0.1" session_9 86530]))
    !! "V1" = Some alice_locked /\
  exists e,
    fst (request (authenticate default_settings station_pg stub_service FACE
                    "V1" "face-a" "10.0.0.1" session_1 90000)
           (run default_settings station_pg station_chain stub_service None locked
              [AuthenticateFace "V1" "face-a" "10.0.0.1" session_5 1930;
               CastVote alice_token candidate_1 (ledger_ok "0xabc") 1940;
               AuthenticateFace "V2" "face-b" "10.0.0.1" session_2 1950;
               AuthenticateFace "V1" "face-a" "10.0.0.1" session_9 86530]))
    = Raise e.
Proof.
  destruct (locked_voter_stays_locked default_settings station_pg station_chain stub_service
              None
              [AuthenticateFace "V1" "face-a" "10.0.0.1" session_5 1930;
               CastVote alice_token candidate_1 (ledger_ok "0xabc") 1940;
               AuthenticateFace "V2" "face-b" "10.0.0.1" session_2 1950;
               AuthenticateFace "V1" "face-a" "10.0.0.1" session_9 86530]
              locked "V1" alice_locked 130 alice_is_locked eq_refl eq_refl) as [H1 H2].
  split; [exact H1|].
  exact (proj1 (H2 stub_service FACE "face-a" "10.0.0.1" session_1 90000)).
Defined.

(** Alice's row after her vote at 1010. *)
Definition alice_voted : Voter.t := Voter.mark_voted 1010 "0xabc" alice.

Lemma authenticate_after_voting_at_station :
  request (authenticate default_settings station_pg stub_service FACE
             "V1" "face-a" "unknown" session_9 1100) after_alice
  = (Raise (mkHTTP 409 "You have already cast your vote in this election."),
     mkState (committed after_alice) (committed after_alice) (used_tokens after_alice)).
Proof.
  assert (Hv : voters (committed after_alice) !! "V1" = Some alice_voted)
    by (vm_compute; reflexivity).
  assert (Hc : constituencies (committed after_alice) !! Voter.constituency_id alice_voted
               = Some (Constituency.mk "North" 7)) by (vm_compute; reflexivity).
  exact (authenticate_after_voting default_settings station_pg stub_service FACE
           "V1" "face-a" "unknown" session_9 1100 after_alice alice_voted _ Hv Hc eq_refl).
Defined.

Lemma alice_vote :
  request (post_cast default_settings station_pg station_chain alice_token candidate_1 (ledger_ok "abc") 1010) station
  = (Return (mkVoteResponse "0xabc" 12 1010), after_alice).
Proof. vm_compute. reflexivity. Qed.

Lemma accepted_vote_is_eligible_and_recorded_at_station :
  exists sd voter,
    get_current_session default_settings alice_token 1010 (close station)
      = (Return sd, close station) /\
    voters (committed station) !! sd_voter_id sd = Some voter /\
    eligible (committed station) sd candidate_1 = true /\
    String.prefix "0x" (vr_tx_hash (mkVoteResponse "0xabc" 12 1010)) = true /\
    vr_timestamp (mkVoteResponse "0xabc" 12 1010) = 1010 /\
    (exists gas_used,
       committed after_alice
       = committed_vote (committed station) (sd_voter_id sd) candidate_1 voter
           (sd_election_id sd) (sd_session_id sd)
           (vr_tx_hash (mkVoteResponse "0xabc" 12 1010))
           (vr_block_number (mkVoteResponse "0xabc" 12 1010)) gas_used 1010) /\
    pending after_alice = committed after_alice /\
    used_tokens after_alice !! sd_session_id sd = Some (1010 + 600).
Proof.
  exact (accepted_vote_is_eligible_and_recorded default_settings station_pg station_chain alice_token candidate_1
           (ledger_ok "abc") 1010 station after_alice _ alice_vote).
Defined.


(** Bob's session, and a ledger that answers with the hash of Alice's
    transaction. *)
Definition bob_session : SessionData := mkSessionData "V2" election_1 north session_2.

Lemma cast_vote_rolls_back_on_duplicate_at_station :
  cast_vote station_pg station_chain bob_session candidate_1 (ledger_ok "0xabc") 1020 after_alice
  = (Raise (mkHTTP 500 "Failed to cast vote. Please try again."),
     mkState (committed after_alice) (committed after_alice) (used_tokens after_alice)).
Proof.
  assert (Hu : used_tokens after_alice !! sd_session_id bob_session = None)
    by (vm_compute; reflexivity).
  assert (Hv : voters (pending after_alice) !! sd_voter_id bob_session = Some bob)
    by (vm_compute; reflexivity).
  assert (Hcand : candidates (pending after_alice) !! candidate_1
                  = Some (Candidate.mk election_1 north 1 true)) by (vm_compute; reflexivity).
  assert (Hel : eligible (pending after_alice) bob_session candidate_1 = true)
    by (vm_compute; reflexivity).
  assert (Hk : constituencies (pending after_alice) !! sd_constituency_id bob_session
               = Some (Constituency.mk "North" 7)) by (vm_compute; reflexivity).
  assert (Hdup : violates_unique
                   (VoteSubmission.mk (Voter.id_ bob) (sd_election_id bob_session)
                      (sd_session_id bob_session) (with_0x "0xabc") 12 21000 1020)
                   (vote_submissions (pending after_alice)) = true)
    by (vm_compute; reflexivity).
  exact (cast_vote_rolls_back_on_duplicate station_pg station_chain bob_session candidate_1 (ledger_ok "0xabc") 1020
           after_alice bob _ _ "0xabc" 12 21000 Hu Hv eq_refl eq_refl Hcand Hel Hk
           eq_refl Hdup).
Defined.

Lemma authentication_never_touches_ballots_at_station :
  vote_submissions (committed three_failures) = vote_submissions (committed station) /\
  (forall voter_id,
     Voter.has_voted <$> voters (committed three_failures) !! voter_id
     = Voter.has_voted <$> voters (committed station) !! voter_id) /\
  used_tokens three_failures = used_tokens station.
Proof.
  assert (H : Forall (fun r => is_authentication r = true)
                [AuthenticateFace "V1" "face-x" "10.0.0.1" session_1 100;
                 AuthenticateFace "V1" "face-y" "10.0.0.1" session_2 110;
                 AuthenticateFace "V1" "face-z" "10.0.0.1" session_3 120]).
  { repeat constructor. }
  exact (authentication_never_touches_ballots default_settings station_pg station_chain stub_service None _ station H).
Defined.

(** The station when the VotingBooth contract could not be loaded. *)
Definition chain_without_booth : BlockchainService := {|
  default_account := Some "0x90F8bf6A479f320ead074411a4B0e7944Ea8c9C1";
  voting_booth := None
|}.

Lemma cast_vote_without_voting_booth_at_station :
  cast_vote station_pg chain_without_booth alice_session candidate_1 (ledger_ok "0xabc") 1010
    station
  = (Raise (mkHTTP 500 "Failed to cast vote. Please try again."), station).
Proof.
  assert (Hu : used_tokens station !! sd_session_id alice_session = None)
    by (vm_compute; reflexivity).
  assert (Hv : voters (pending station) !! sd_voter_id alice_session = Some alice)
    by (vm_compute; reflexivity).
  assert (Hcand : candidates (pending station) !! candidate_1
                  = Some (Candidate.mk election_1 north 1 true)) by (vm_compute; reflexivity).
  assert (Hel : eligible (pending station) alice_session candidate_1 = true)
    by (vm_compute; reflexivity).
  assert (Hk : constituencies (pending station) !! sd_constituency_id alice_session
               = Some (Constituency.mk "North" 7)) by (vm_compute; reflexivity).
  exact (cast_vote_without_voting_booth station_pg chain_without_booth alice_session
           candidate_1 (ledger_ok "0xabc") 1010 station alice _ _ "0xabc" 12 21000
           eq_refl Hu Hv eq_refl eq_refl Hcand Hel Hk eq_refl).
Defined.

(** * Stored templates, genuine and corrupted *)

Section StoredTemplates.
Variable settings : Settings.

(** C7. With a key of a length AES accepts and the 12-byte nonce that
    [secrets.token_bytes(12)] returns, [decrypt_biometric] of what
    [encrypt_biometric] returns is the template, byte for byte, for every
    template.  When moreover the hash subkey of the key is invertible (it
    is not zero) and a stored value (nonce, then ciphertext and tag)
    decrypts, the value with any single byte after the nonce replaced by a
    different one does not decrypt: [decrypt_biometric] raises
    [InvalidTag] and returns no plaintext. *)
Theorem decrypt_biometric_round_trip_and_tamper
    (Hkey : key_length_ok (biometric_key settings) = true) :
  (forall nonce template_bytes : list byte,
     length nonce = 12%nat ->
     exists stored,
       encrypt_biometric settings nonce template_bytes = inr stored /\
       decrypt_biometric settings stored = inr template_bytes) /\
  (hash_subkey_invertible (CIPH (bytes_to_N (biometric_key settings)) 0%N) = true ->
   forall (nonce body p : list byte) (i : nat) (b' : byte),
     length nonce = 12%nat ->
     decrypt_biometric settings (stored_template nonce body) = inr p ->
     (i < length body)%nat ->
     body !! i <> Some b' ->
     decrypt_biometric settings (stored_template nonce (<[i:=b']> body)) = inl InvalidTag).
Proof.
  split.
  - intros nonce template_bytes Hn. eexists. split.
    + apply encrypt_biometric_stored; assumption.
    + rewrite decrypt_biometric_stored by assumption.
      apply AESGCM_decrypt_encrypted; [exact Hkey|apply nonce_12_ok, Hn].
  - intros Hsubkey nonce body p i b' Hn Hdec Hi Hne.
    rewrite decrypt_biometric_stored in * by assumption.
    exact (AESGCM_decrypt_tampered _ nonce body p i b' Hsubkey Hdec Hi Hne).
Qed.

Variable pg : Postgres.
(** [self.threshold], the OpenCV pipeline and the format [:.4f]. *)
Variable threshold : R.
Variable face_get_embedding : list byte -> string + list R.
Variable format_score : R -> string.

(** C10. A stored face template that was tampered with (one byte after
    the nonce replaced) does not decrypt, and a stored template whose
    length is not the length of the live vector cannot be reshaped: in both
    cases [compare_embeddings] returns [(False, 0.0)], whatever the live
    embedding.  For an active voter with the tampered template the
    authentication attempt is then an ordinary mismatch: 401, the counter
    [failed_auth_count] goes up by one, and a FAILURE attempt with score 0
    is logged when the client address is one that the INET column reads. *)
Theorem corrupted_template_is_a_mismatch
    (nonce body template_bytes : list byte) (i : nat) (b' : byte)
    (Hkey : key_length_ok (biometric_key settings) = true)
    (Hsubkey : hash_subkey_invertible (CIPH (bytes_to_N (biometric_key settings)) 0%N) = true)
    (Hnonce : length nonce = 12%nat)
    (Hstored : decrypt_biometric settings (stored_template nonce body) = inr template_bytes)
    (Hi : (i < length body)%nat)
    (Hflip : body !! i <> Some b') :
  let face_service := FaceService settings threshold face_get_embedding format_score in
  let tampered := stored_template nonce (<[i:=b']> body) in
  decrypt_biometric settings tampered = inl InvalidTag /\
  (forall live_embedding stored_hash salt,
     face_compare_embeddings settings threshold live_embedding stored_hash tampered salt
     = (false, 0%R)) /\
  (forall live_embedding stored_hash salt,
     length template_bytes <> length live_embedding ->
     face_compare_embeddings settings threshold live_embedding stored_hash
       (stored_template nonce body) salt
     = (false, 0%R)) /\
  (forall voter_id face_image ip session_id now (s : State R) voter c image_bytes
          live_embedding,
     voters (committed s) !! voter_id = Some voter ->
     constituencies (committed s) !! Voter.constituency_id voter = Some c ->
     Voter.has_voted voter = false ->
     Voter.locked_out voter = false ->
     Voter.failed_auth_count voter < MAX_AUTH_ATTEMPTS settings ->
     Voter.failed_auth_count voter < SMALLINT_MAX ->
     Voter.encrypted_face_embedding voter = tampered ->
     face_decode_image face_image = inr image_bytes ->
     face_get_embedding image_bytes = inr live_embedding ->
     let r := request (authenticate_with_face settings pg face_service voter_id face_image ip
                         session_id now) s in
     fst r = Raise (mkHTTP 401 ("Face authentication failed. "
                +:+ pretty (MAX_AUTH_ATTEMPTS settings - (Voter.failed_auth_count voter + 1))
                +:+ " attempt(s) remaining.")) /\
     voters (committed (snd r)) !! voter_id
       = Some (Voter.set_failed_auth_count (Voter.failed_auth_count voter + 1) voter) /\
     auth_attempts (committed (snd r))
       = auth_attempts (committed s)
         ++ (if inet_in pg ip
             then [AuthAttempt.mk (Some (Voter.id_ voter)) FACE FAILURE
                     (Some ("Face not matched (similarity: " +:+ format_score 0%R +:+ ")"))
                     (Some 0%R) ip now]
             else [])).
Proof.
  intros face_service tampered.
  assert (Hdec : decrypt_biometric settings tampered = inl InvalidTag).
  { unfold tampered. rewrite decrypt_biometric_stored in * by assumption.
    exact (AESGCM_decrypt_tampered _ nonce body template_bytes i b' Hsubkey Hstored Hi Hflip). }
  assert (Hcmp : forall live_embedding stored_hash salt,
            face_compare_embeddings settings threshold live_embedding stored_hash tampered salt
            = (false, 0%R)).
  { intros live hash salt. unfold face_compare_embeddings. rewrite Hdec. reflexivity. }
  split; [exact Hdec|]. split; [exact Hcmp|]. split.
  - intros live hash salt Hlen. unfold face_compare_embeddings. rewrite Hstored.
    unfold dequantize_embedding.
    destruct (Nat.eqb_spec (length template_bytes) (length live)) as [E|_]; [|reflexivity].
    contradiction.
  - intros voter_id face_image ip session_id now s voter c image_bytes live_embedding
      Hv Hc Hhv Hlo Hcount Hsmall Henc Himg Hemb r.
    assert (Hrej : rejects face_service FACE voter face_image 0%R).
    { exists image_bytes, live_embedding. split; [exact Himg|]. split; [exact Hemb|].
      cbn. rewrite Henc. apply Hcmp. }
    subst r. unfold authenticate_with_face.
    rewrite (authenticate_failed_match settings pg face_service FACE voter_id face_image ip
               session_id now s voter c 0%R Hv Hc Hhv Hlo Hcount Hsmall Hrej).
    cbn [fst snd committed]. split; [reflexivity|]. split.
    + rewrite voters_logged. cbn. rewrite lookup_alter_eq, Hv. reflexivity.
    + rewrite auth_attempts_logged. reflexivity.
Qed.
End StoredTemplates.

(** ** At the polling station *)

Lemma decrypt_biometric_round_trip_and_tamper_default :
  (exists stored,
     encrypt_biometric default_settings sample_nonce [byte_of_N 127] = inr stored /\
     decrypt_biometric default_settings stored = inr [byte_of_N 127]) /\
  decrypt_biometric default_settings
    (stored_template sample_nonce (<[1%nat:="000"%byte]> sample_body)) = inl InvalidTag.
Proof.
  assert (Hi : (1 < length sample_body)%nat) by (vm_compute; lia).
  assert (Hne : sample_body !! 1%nat <> Some "000"%byte) by (vm_compute; discriminate).
  destruct (decrypt_biometric_round_trip_and_tamper default_settings default_key_ok)
    as [H1 H2].
  split.
  - exact (H1 sample_nonce [byte_of_N 127] eq_refl).
  - exact (H2 default_hash_subkey_invertible sample_nonce sample_body [byte_of_N 127]
             1%nat "000"%byte eq_refl sample_body_decrypts Hi Hne).
Defined.

(** Carol's stored face template is the sample one with its first byte
    after the nonce replaced. *)
Definition tampered_template : string :=
  stored_template sample_nonce (<[0%nat:="000"%byte]> sample_body).

Definition carol : Voter.t := {|
  Voter.id_ := "ca501000-0000-4000-8000-000000000003";
  Voter.full_name := "Carol";
  Voter.constituency_id := north;
  Voter.face_embedding_hash := "hash-c";
  Voter.fingerprint_template_hash := "fhash-c";
  Voter.biometric_salt := "salt-c";
  Voter.encrypted_face_embedding := tampered_template;
  Voter.encrypted_fingerprint_template := "finger-c";
  Voter.blockchain_voter_id := "0xca501";
  Voter.has_voted := false;
  Voter.voted_at := None;
  Voter.vote_tx_hash := None;
  Voter.failed_auth_count := 0;
  Voter.locked_out := false;
  Voter.lockout_at := None
|}.

Definition carol_db : DB R := {|
  voters := {[ "V3" := carol ]};
  constituencies := {[ north := Constituency.mk "North" 7 ]};
  elections := [Election.mk election_1 "active" 10];
  candidates := ∅;
  auth_attempts := [];
  vote_submissions := [];
  blockchain_txns := []
|}.

Definition carol_station : State R := mkState carol_db carol_db ∅.

(** A face service whose pipeline finds the one-component vector [1.0]
    in every image. *)
Definition station_face_service : BiometricService R :=
  FaceService default_settings (68 / 100)%R (fun _ => inr [1%R]) (fun _ => "0.0000").

Lemma corrupted_template_is_a_mismatch_at_station :
  decrypt_biometric default_settings tampered_template = inl InvalidTag /\
  (let r := request (authenticate_with_face default_settings station_pg station_face_service
                       "V3" "QQ==" "10.0.0.1" session_1 100) carol_station in
   fst r = Raise (mkHTTP 401 "Face authentication failed. 2 attempt(s) remaining.") /\
   voters (committed (snd r)) !! "V3" = Some (Voter.set_failed_auth_count 1 carol)).
Proof.
  assert (Hi : (0 < length sample_body)%nat) by (vm_compute; lia).
  assert (Hne : sample_body !! 0%nat <> Some "000"%byte) by (vm_compute; discriminate).
  destruct (corrupted_template_is_a_mismatch default_settings station_pg (68 / 100)%R
              (fun _ => inr [1%R]) (fun _ => "0.0000")
              sample_nonce sample_body [byte_of_N 127] 0%nat "000"%byte
              default_key_ok default_hash_subkey_invertible eq_refl sample_body_decrypts
              Hi Hne) as (Hdec & _ & _ & Hauth).
  split; [exact Hdec|].
  assert (Himg : face_decode_image "QQ==" = inr ["A"%byte]) by (vm_compute; reflexivity).
  destruct (Hauth "V3" "QQ==" "10.0.0.1" session_1 100 carol_station carol
              (Constituency.mk "North" 7) ["A"%byte] [1%R]
              eq_refl eq_refl eq_refl eq_refl eq_refl eq_refl eq_refl Himg eq_refl)
    as (H1 & H2 & _).
  split; [exact H1|exact H2].
Defined.

(** A sample that is not base64 (one character). *)
Lemma service_error_answers_500_at_station :
  face_decode_image "A" = inl "Invalid image format" /\
  request (authenticate default_settings station_pg station_face_service FACE
             "V3" "A" "10.0.0.1" session_1 100) carol_station
  = (Raise (mkHTTP 500 "Authentication failed. Please try again."), carol_station).
Proof.
  assert (Himg : face_decode_image "A" = inl "Invalid image format")
    by (vm_compute; reflexivity).
  split; [exact Himg|].
  exact (service_error_answers_500 default_settings station_pg station_face_service FACE
           "V3" "A" "10.0.0.1" session_1 100 carol_station carol (Constituency.mk "North" 7)
           eq_refl eq_refl eq_refl eq_refl eq_refl
           (or_introl (ex_intro _ "Invalid image format" Himg))).
Defined.

(** * Properties of the administrator tokens and of [require_role] *)

(** The lifetime, in seconds, of the token [create_access_token] makes. *)
Definition access_token_lifetime (token_settings : TokenSettings) (expires_delta : option Z)
    : Z :=
  match expires_delta with
  | Some delta =>
      if delta =? 0 then minutes (ACCESS_TOKEN_EXPIRE_MINUTES token_settings) else delta
  | None => minutes (ACCESS_TOKEN_EXPIRE_MINUTES token_settings)
  end.

(** The rank of a role string: 4 for the super administrator down to 1
    for the auditor, 0 for anything else. *)
Definition rank (role : string) : Z := Admin.role_hierarchy_get role 0.

Definition sample_admin_claims : AdminClaims.t :=
  AdminClaims.mk (Some "admin-1") (Some "root") (Some "super_admin") (Some true) None None None.

Definition sample_admin : Admin.t := Admin.mk "admin-1" "root" "super_admin" true.

Definition sample_query_admin (admin_id : string) : option Admin.t :=
  if String.eqb admin_id "admin-1" then Some sample_admin else None.

Section AdminTokenFacts.
Variable settings : Settings.
Variable token_settings : TokenSettings.

Lemma admin_jwt_decode_own (data : AdminClaims.t) (t : Z) :
  admin_jwt_decode (admin_jwt_encode data (JWT_SECRET settings) (JWT_ALGORITHM settings))
    (JWT_SECRET settings) [JWT_ALGORITHM settings] t
  = match AdminClaims.exp data with
    | Some e => if e <? t then inl ExpiredSignatureError else inr data
    | None => inr data
    end.
Proof.
  unfold admin_jwt_decode, admin_jwt_encode. cbn [admin_alg admin_payload admin_signed_with].
  rewrite bool_decide_eq_true_2 by (apply list_elem_of_singleton; reflexivity).
  rewrite bool_decide_eq_true_2 by reflexivity. reflexivity.
Qed.

(** X25. A refresh token never authenticates an administrator: whatever its
    claims and whenever it is presented, [get_current_admin] answers 401. *)
Theorem refresh_token_never_authenticates (data : AdminClaims.t) (now t : Z)
    (query_admin : string -> option Admin.t) :
  exists e,
    get_current_admin settings query_admin
      (create_refresh_token settings token_settings data now) t = inl e /\
    status_code e = 401.
Proof.
  unfold get_current_admin, create_refresh_token. cbv zeta.
  rewrite admin_jwt_decode_own. cbn [AdminClaims.exp].
  destruct (_ <? t); [eexists; split; reflexivity|].
  cbn [AdminClaims.sub AdminClaims.type].
  destruct (AdminClaims.sub data); [|eexists; split; reflexivity].
  rewrite bool_decide_eq_true_2 by reflexivity. eexists; split; reflexivity.
Qed.

(** X26. An access token authenticates the administrator its subject names
    until it expires, whatever its other claims ([mfa_required] included):
    the administrator is returned when active and refused with 403 when
    inactive. *)
Theorem access_token_authenticates (data : AdminClaims.t) (expires_delta : option Z)
    (now t : Z) (query_admin : string -> option Admin.t) (admin_id : string)
    (admin : Admin.t) :
  AdminClaims.sub data = Some admin_id ->
  AdminClaims.type data <> Some "refresh" ->
  query_admin admin_id = Some admin ->
  t <= now + access_token_lifetime token_settings expires_delta ->
  get_current_admin settings query_admin
    (create_access_token settings token_settings data expires_delta now) t
  = if Admin.is_active admin then inr admin
    else inl (mkHTTP 403 "Admin account is inactive").
Proof.
  intros Hsub Htype Hq Ht.
  unfold get_current_admin, create_access_token. cbv zeta.
  rewrite admin_jwt_decode_own. cbn [AdminClaims.exp].
  assert (Hlive : (match expires_delta with
                   | Some delta =>
                       if negb (delta =? 0) then now + delta
                       else now + minutes (ACCESS_TOKEN_EXPIRE_MINUTES token_settings)
                   | None => now + minutes (ACCESS_TOKEN_EXPIRE_MINUTES token_settings)
                   end <? t) = false).
  { apply Z.ltb_ge. unfold access_token_lifetime in Ht.
    destruct expires_delta as [delta|]; [|exact Ht].
    destruct (delta =? 0); cbn [negb]; exact Ht. }
  rewrite Hlive. cbn [AdminClaims.sub AdminClaims.type]. rewrite Hsub.
  rewrite bool_decide_eq_false_2 by exact Htype.
  rewrite Hq. destruct (Admin.is_active admin); reflexivity.
Qed.

(** X27. [decode_refresh_token] gives back the claims of a refresh token, with
    its type, expiry and issue time, until the token expires. *)
Theorem refresh_token_round_trip (data : AdminClaims.t) (now t : Z) :
  t <= now + days (REFRESH_TOKEN_EXPIRE_DAYS token_settings) ->
  decode_refresh_token settings (create_refresh_token settings token_settings data now) t
  = inr (AdminClaims.mk (AdminClaims.sub data) (AdminClaims.username data)
           (AdminClaims.role data) (AdminClaims.mfa_required data) (Some "refresh")
           (Some (now + days (REFRESH_TOKEN_EXPIRE_DAYS token_settings))) (Some now)).
Proof.
  intros Ht. unfold decode_refresh_token, create_refresh_token. cbv zeta.
  rewrite admin_jwt_decode_own. cbn [AdminClaims.exp].
  destruct (Z.ltb_spec (now + days (REFRESH_TOKEN_EXPIRE_DAYS token_settings)) t); [lia|].
  cbn [AdminClaims.type]. rewrite bool_decide_eq_true_2 by reflexivity. reflexivity.
Qed.

(** An access token is not accepted as a refresh token. *)
Theorem access_token_is_not_a_refresh_token (data : AdminClaims.t)
    (expires_delta : option Z) (now t : Z) :
  AdminClaims.type data <> Some "refresh" ->
  exists e,
    decode_refresh_token settings
      (create_access_token settings token_settings data expires_delta now) t = inl e /\
    status_code e = 401.
Proof.
  intros Htype. unfold decode_refresh_token, create_access_token. cbv zeta.
  rewrite admin_jwt_decode_own. cbn [AdminClaims.exp].
  destruct (_ <? t); [eexists; split; reflexivity|].
  cbn [AdminClaims.type]. rewrite bool_decide_eq_false_2 by exact Htype.
  eexists; split; reflexivity.
Qed.

End AdminTokenFacts.

Section Roles.

Lemma has_permission_rank (admin : Admin.t) (r : AdminRole) :
  Admin.has_permission admin r = true <-> rank (AdminRole_value r) <= rank (Admin.role admin).
Proof. unfold Admin.has_permission, rank. apply Z.leb_le. Qed.

Lemma role_checker_accepts (roles : list AdminRole) (current_admin : Admin.t) :
  role_checker roles current_admin = inr current_admin <->
  exists r, r ∈ roles /\ rank (AdminRole_value r) <= rank (Admin.role current_admin).
Proof.
  unfold role_checker. cbv zeta.
  destruct (bool_decide (Admin.role current_admin ∈ map AdminRole_value roles)) eqn:Hin;
    cbn [negb].
  - split; [intros _|reflexivity].
    apply bool_decide_eq_true_1 in Hin.
    apply list_elem_of_fmap in Hin as (r & Hr & Hin).
    exists r. split; [exact Hin|]. rewrite Hr. lia.
  - destruct (existsb (Admin.has_permission current_admin) roles) eqn:Hex; cbn [negb].
    + split; [intros _|reflexivity].
      apply existsb_exists in Hex as (r & Hr & Hp).
      exists r. split; [apply list_elem_of_In; exact Hr|apply has_permission_rank; exact Hp].
    + split; [discriminate|].
      intros (r & Hr & Hp). exfalso.
      assert (existsb (Admin.has_permission current_admin) roles = true); [|congruence].
      apply existsb_exists. exists r.
      split; [apply list_elem_of_In; exact Hr|apply has_permission_rank; exact Hp].
Qed.

Lemma role_checker_cases (roles : list AdminRole) (current_admin : Admin.t) :
  role_checker roles current_admin = inr current_admin \/
  role_checker roles current_admin
  = inl (mkHTTP 403 ("Insufficient permissions. Required: " +:+ repr_values roles)).
Proof.
  unfold role_checker. cbv zeta.
  destruct (negb (bool_decide _)); [|left; reflexivity].
  destruct (negb (existsb _ _)); [right|left]; reflexivity.
Qed.

(** X29. The roles given to [require_role] act as a threshold: an
    administrator passes exactly when their rank is at least the rank of
    one of the listed roles, so every role above the lowest listed one
    passes, listed or not; with no role listed nobody passes.  Who does
    not pass gets 403. *)
Theorem role_checker_threshold (roles : list AdminRole) (current_admin : Admin.t) :
  (require_role roles current_admin = inr current_admin <->
   exists r, r ∈ roles /\ rank (AdminRole_value r) <= rank (Admin.role current_admin)) /\
  (require_role roles current_admin = inr current_admin \/
   require_role roles current_admin
   = inl (mkHTTP 403 ("Insufficient permissions. Required: " +:+ repr_values roles))) /\
  require_role [] current_admin
  = inl (mkHTTP 403 "Insufficient permissions. Required: []").
Proof.
  unfold require_role. split; [apply role_checker_accepts|]. split; [|reflexivity].
  apply role_checker_cases.
Qed.

(** X30. Whoever outranks an administrator that passes, passes too: the
    polling officer passes where the auditor is listed. *)
Theorem role_checker_monotone (roles : list AdminRole) (a b : Admin.t) :
  rank (Admin.role a) <= rank (Admin.role b) ->
  require_role roles a = inr a ->
  require_role roles b = inr b.
Proof.
  unfold require_role. intros Hrank Ha.
  apply role_checker_accepts in Ha. apply role_checker_accepts.
  destruct Ha as (r & Hr & Hp). exists r. split; [exact Hr|lia].
Qed.

End Roles.

(** Instances: an administrator with a temporary token that still
    requires the second factor, and the roles of the audit routes. *)

Lemma access_token_authenticates_with_mfa_pending :
  get_current_admin default_settings sample_query_admin
    (create_access_token default_settings default_token_settings sample_admin_claims
       (Some 300) 1000) 1200
  = if Admin.is_active sample_admin then inr sample_admin
    else inl (mkHTTP 403 "Admin account is inactive").
Proof.
  assert (Htype : AdminClaims.type sample_admin_claims <> Some "refresh") by discriminate.
  assert (Ht : 1200 <= 1000 + access_token_lifetime default_token_settings (Some 300))
    by (vm_compute; discriminate).
  exact (access_token_authenticates default_settings default_token_settings
           sample_admin_claims (Some 300) 1000 1200 sample_query_admin "admin-1" sample_admin
           eq_refl Htype eq_refl Ht).
Defined.

Lemma refresh_token_round_trip_one_week :
  decode_refresh_token default_settings
    (create_refresh_token default_settings default_token_settings sample_admin_claims 1000)
    (1000 + 604800)
  = inr (AdminClaims.mk (AdminClaims.sub sample_admin_claims)
           (AdminClaims.username sample_admin_claims) (AdminClaims.role sample_admin_claims)
           (AdminClaims.mfa_required sample_admin_claims) (Some "refresh")
           (Some (1000 + days (REFRESH_TOKEN_EXPIRE_DAYS default_token_settings)))
           (Some 1000)).
Proof.
  assert (Ht : 1000 + 604800 <= 1000 + days (REFRESH_TOKEN_EXPIRE_DAYS default_token_settings))
    by (vm_compute; discriminate).
  exact (refresh_token_round_trip default_settings default_token_settings
           sample_admin_claims 1000 (1000 + 604800) Ht).
Defined.

Lemma access_token_is_not_a_refresh_token_sample :
  exists e,
    decode_refresh_token default_settings
      (create_access_token default_settings default_token_settings sample_admin_claims
         None 1000) 1001 = inl e /\
    status_code e = 401.
Proof.
  assert (Htype : AdminClaims.type sample_admin_claims <> Some "refresh") by discriminate.
  exact (access_token_is_not_a_refresh_token default_settings default_token_settings
           sample_admin_claims None 1000 1001 Htype).
Defined.

Definition an_auditor : Admin.t := Admin.mk "admin-2" "aud" "auditor" true.
Definition a_polling_officer : Admin.t := Admin.mk "admin-3" "poll" "polling_officer" true.

Lemma role_checker_monotone_audit_routes :
  require_role [AUDITOR; ELECTION_ADMINISTRATOR; SUPER_ADMIN] a_polling_officer
  = inr a_polling_officer.
Proof.
  assert (Hrank : rank (Admin.role an_auditor) <= rank (Admin.role a_polling_officer))
    by (vm_compute; discriminate).
  exact (role_checker_monotone [AUDITOR; ELECTION_ADMINISTRATOR; SUPER_ADMIN]
           an_auditor a_polling_officer Hrank eq_refl).
Defined.
